(** * pbrpc: framed transport and channel call surface

    A shallow embedding of [transport.go] (packet framing over a duplex byte
    stream) and of the channel call surface ([ClientChannel], [ServerChannel],
    [channelBase], [makeContextVars], [makeOutgoingMethodInterceptors]),
    followed by the properties the specification states about them.

    Conventions.
    - Go's [int] is taken at its 64-bit width.  Every [int] computed below is
      a slice length, a difference of two slice lengths or a value below
      [2^32] plus a small constant, so no [int] operation wraps; [int32] and
      [uint32] values are [Z] with their wrap-around written out where the
      code does arithmetic or converts.
    - A Go function that returns [(v, error)] returns a pair or an
      [option error]; a run-time panic (nil dereference, slice bounds) is a
      separate outcome.
    - State is passed explicitly: a method with receiver [self *transport]
      takes the transport and returns the updated one. *)

From Stdlib Require Import ZArith Lia Strings.Byte Strings.Ascii.
From stdpp Require Import base option list strings gmap pretty.

Local Open Scope Z_scope.

(** ** Errors *)

(** Go error values.  The package-level sentinels are constructors; values of
    foreign error types carry what the code can observe of them: their
    dynamic type ([*net.OpError], the package's own [*Error]) or nothing but
    their identity. *)
Inductive error : Type :=
| TransportClosedError
| PacketPayloadTooLargeError
| io_EOF
| net_OpError (op : string)
| context_Canceled
| context_DeadlineExceeded
| rpc_Error (code : Z) (desc : string) (data : list byte)
| other_error (msg : string).

(** ** Bytes and [encoding/binary.BigEndian] *)

Definition byte_of_Z (z : Z) : byte :=
  match Byte.of_N (Z.to_N (z mod 256)) with
  | Some b => b
  | None => x00
  end.

Definition Z_of_byte (b : byte) : Z := Z.of_N (Byte.to_N b).

(** [uint32(x)] for an [int] [x]. *)
Definition uint32 (x : Z) : Z := x mod 2 ^ 32.

(** The four bytes [binary.BigEndian.PutUint32] stores. *)
Definition PutUint32 (v : Z) : list byte :=
  [ byte_of_Z (Z.shiftr v 24); byte_of_Z (Z.shiftr v 16);
    byte_of_Z (Z.shiftr v 8); byte_of_Z v ].

(** [binary.BigEndian.Uint32]; it panics ([None]) on fewer than four bytes. *)
Definition Uint32 (b : list byte) : option Z :=
  match b with
  | b0 :: b1 :: b2 :: b3 :: _ =>
      Some (Z.lor (Z.lor (Z.lor (Z_of_byte b3) (Z.shiftl (Z_of_byte b2) 8))
                         (Z.shiftl (Z_of_byte b1) 16))
                  (Z.shiftl (Z_of_byte b0) 24))
  | _ => None
  end.

(** ** [byte_stream.ByteStream]

    The byte stream comes from [github.com/let-z-go/toolkit], outside this
    repository.  It is a growable array split in two: the data written and
    not yet skipped, and the free buffer behind it.  The model keeps both as
    lists; [bs_buffer] holds whatever bytes the free space currently
    contains.  [ReserveBuffer] grows the free space to the requested size and
    no further. *)
Record ByteStream : Type := mkByteStream {
  bs_data : list byte;
  bs_buffer : list byte
}.

Definition emptyByteStream : ByteStream := mkByteStream [] [].

Definition GetData (bs : ByteStream) : list byte := bs_data bs.
Definition GetDataSize (bs : ByteStream) : Z := Z.of_nat (length (bs_data bs)).
Definition GetBuffer (bs : ByteStream) : list byte := bs_buffer bs.
Definition GetBufferSize (bs : ByteStream) : Z := Z.of_nat (length (bs_buffer bs)).

Definition ReserveBuffer (n : Z) (bs : ByteStream) : ByteStream :=
  if GetBufferSize bs <? n
  then mkByteStream (bs_data bs)
         (bs_buffer bs ++ replicate (Z.to_nat n - length (bs_buffer bs)) x00)
  else bs.

(** [copy(self.GetBuffer(), src)] followed by [CommitBuffer(len(src))], for a
    [src] that fits the buffer (the caller in [transport.go] reads at most
    [len(GetBuffer())] bytes). *)
Definition CommitBytes (src : list byte) (bs : ByteStream) : ByteStream :=
  mkByteStream (bs_data bs ++ src) (drop (length src) (bs_buffer bs)).

(** [Write(data)]: reserve, copy, commit. *)
Definition ByteStream_Write (src : list byte) (bs : ByteStream) : ByteStream :=
  CommitBytes src (ReserveBuffer (Z.of_nat (length src)) bs).

(** [WriteDirectly(n, callback)] with the callback of [transport.write],
    which leaves the reserved bytes as they are and returns nil. *)
Definition WriteDirectly_untouched (n : Z) (bs : ByteStream) : ByteStream :=
  let bs' := ReserveBuffer n bs in
  CommitBytes (take (Z.to_nat n) (bs_buffer bs')) bs'.

(** [Skip(n)]: drop [n] bytes (at most all of them) from the front of the
    data. *)
Definition ByteStream_Skip (n : Z) (bs : ByteStream) : ByteStream :=
  mkByteStream (drop (Z.to_nat n) (bs_data bs)) (bs_buffer bs).

(** [Unwrite(n)]: give the last [n] data bytes (at most all of them) back to
    the free buffer. *)
Definition Unwrite (n : Z) (bs : ByteStream) : ByteStream :=
  let k := (length (bs_data bs) - Z.to_nat n)%nat in
  mkByteStream (take k (bs_data bs)) (drop k (bs_data bs) ++ bs_buffer bs).

(** [GC()]: release the array. *)
Definition ByteStream_GC (bs : ByteStream) : ByteStream := emptyByteStream.

(** Overwrite [len(src)] bytes of the data from offset [i] on: what a store
    through the slice [GetData()[i:]] does. *)
Definition store_at (i : nat) (src : list byte) (bs : ByteStream) : ByteStream :=
  mkByteStream
    (take i (bs_data bs) ++ src ++ drop (i + length src) (bs_data bs))
    (bs_buffer bs).

(** ** [TransportPolicy] *)

Definition defaultInitialReadBufferSizeOfTransport : Z := Z.shiftl 1 12.
Definition minInitialReadBufferSizeOfTransport : Z := Z.shiftl 1 8.
Definition maxInitialReadBufferSizeOfTransport : Z := Z.shiftl 1 16.
Definition minMaxPacketPayloadSize : Z := Z.shiftl 1 16.
Definition packetHeaderSize : Z := 4.

(** [validateOnce] is the [sync.Once]: [true] once its function has run. *)
Record TransportPolicy : Type := mkTransportPolicy {
  InitialReadBufferSize : Z;
  MaxPacketPayloadSize : Z;
  validateOnce : bool
}.

Definition is_int32 (z : Z) : Prop := - 2 ^ 31 <= z < 2 ^ 31.

Definition TransportPolicy_Validate (self : TransportPolicy) : TransportPolicy :=
  if validateOnce self then self
  else
    let irbs :=
      if InitialReadBufferSize self =? 0
      then defaultInitialReadBufferSizeOfTransport
      else if InitialReadBufferSize self <? minInitialReadBufferSizeOfTransport
           then minInitialReadBufferSizeOfTransport
           else if InitialReadBufferSize self >? maxInitialReadBufferSizeOfTransport
                then maxInitialReadBufferSizeOfTransport
                else InitialReadBufferSize self in
    let mpps :=
      if MaxPacketPayloadSize self <? minMaxPacketPayloadSize
      then minMaxPacketPayloadSize
      else MaxPacketPayloadSize self in
    mkTransportPolicy irbs mpps true.

(** ** [context.Context], time and [net.Conn] *)

Definition Time : Type := Z.
Definition Duration : Type := Z.

(** What the code observes of a context: the [*ContextVars] bound under the
    key [contextVars{}] (an address in the store of call variables), the
    result of [Err()] and the deadline. *)
Record Context : Type := mkContext {
  ctx_contextVars : option nat;
  ctx_err : option error;
  ctx_deadline : option Time
}.

Inductive ConnKind : Type := TCPConn | WebSocketConn | OtherConn.

(** A connection is its dynamic type and a script of what the peer and the
    network will do: the chunks successive [Read]s deliver (each with the
    error reported once the chunk is drained), for each [Write] how many
    bytes it accepts and the error it reports, and the results of the
    deadline setters and of [Close]. *)
Record Conn : Type := mkConn {
  conn_kind : ConnKind;
  conn_incoming : list (list byte * option error);
  conn_write_script : list (Z * option error);
  conn_outgoing : list byte;
  conn_deadline_result : option error;
  conn_readDeadline : option Time;
  conn_writeDeadline : option Time;
  conn_linger : option Z;
  conn_close_result : option error
}.

(** [Read(buffer)]: at most [len(buffer)] bytes of the next chunk; an
    exhausted script reads as end of file. *)
Definition conn_Read (buffer : list byte) (c : Conn)
  : list byte * option error * Conn :=
  match conn_incoming c with
  | [] => ([], Some io_EOF, c)
  | (chunk, e) :: rest =>
      if (length chunk <=? length buffer)%nat
      then (chunk, e,
            mkConn (conn_kind c) rest (conn_write_script c) (conn_outgoing c)
              (conn_deadline_result c) (conn_readDeadline c)
              (conn_writeDeadline c) (conn_linger c) (conn_close_result c))
      else (take (length buffer) chunk, None,
            mkConn (conn_kind c) ((drop (length buffer) chunk, e) :: rest)
              (conn_write_script c) (conn_outgoing c)
              (conn_deadline_result c) (conn_readDeadline c)
              (conn_writeDeadline c) (conn_linger c) (conn_close_result c))
  end.

(** [Write(data)]: the number of bytes written and the error. *)
Definition conn_Write (data : list byte) (c : Conn) : Z * option error * Conn :=
  match conn_write_script c with
  | [] =>
      (Z.of_nat (length data), None,
       mkConn (conn_kind c) (conn_incoming c) [] (conn_outgoing c ++ data)
         (conn_deadline_result c) (conn_readDeadline c)
         (conn_writeDeadline c) (conn_linger c) (conn_close_result c))
  | (limit, e) :: rest =>
      let n := Z.min (Z.max limit 0) (Z.of_nat (length data)) in
      (n, e,
       mkConn (conn_kind c) (conn_incoming c) rest
         (conn_outgoing c ++ take (Z.to_nat n) data)
         (conn_deadline_result c) (conn_readDeadline c)
         (conn_writeDeadline c) (conn_linger c) (conn_close_result c))
  end.

Definition conn_SetReadDeadline (d : Time) (c : Conn) : option error * Conn :=
  match conn_deadline_result c with
  | Some e => (Some e, c)
  | None =>
      (None,
       mkConn (conn_kind c) (conn_incoming c) (conn_write_script c)
         (conn_outgoing c) None (Some d) (conn_writeDeadline c)
         (conn_linger c) (conn_close_result c))
  end.

Definition conn_SetWriteDeadline (d : Time) (c : Conn) : option error * Conn :=
  match conn_deadline_result c with
  | Some e => (Some e, c)
  | None =>
      (None,
       mkConn (conn_kind c) (conn_incoming c) (conn_write_script c)
         (conn_outgoing c) None (conn_readDeadline c) (Some d)
         (conn_linger c) (conn_close_result c))
  end.

Definition conn_SetLinger (sec : Z) (c : Conn) : Conn :=
  mkConn (conn_kind c) (conn_incoming c) (conn_write_script c)
    (conn_outgoing c) (conn_deadline_result c) (conn_readDeadline c)
    (conn_writeDeadline c) (Some sec) (conn_close_result c).

Definition conn_Close (c : Conn) : option error := conn_close_result c.

(** ** [transport] *)

Record transport : Type := mkTransport {
  t_policy : option TransportPolicy;
  t_connection : option Conn;
  inputByteStream : ByteStream;
  outputByteStream : ByteStream;
  openness : Z
}.

(** How a call on a transport ends: it returns [a] and leaves the transport
    as [t], or it panics.  [Exhausted] is the model's own third case, a loop
    cut off by its iteration bound.  The bounds of the read loops and of the
    batch loop are never reached (see [doPeek_not_Exhausted] and
    [peekInBatch_not_Exhausted]); the one of [flush] is reached only with
    WebSocket frames of zero bytes, where the loop of the code goes on for as
    long as the connection accepts empty writes (see
    [flush_websocket_ends]). *)
Inductive outcome (A : Type) : Type :=
| Done (t : transport) (a : A)
| Panic
| Exhausted.
Arguments Done {A} t a.
Arguments Panic {A}.
Arguments Exhausted {A}.

Definition set_connection (c : Conn) (self : transport) : transport :=
  mkTransport (t_policy self) (Some c) (inputByteStream self)
    (outputByteStream self) (openness self).

Definition set_input (c : Conn) (bs : ByteStream) (self : transport) : transport :=
  mkTransport (t_policy self) (Some c) bs (outputByteStream self) (openness self).

Definition set_inputByteStream (bs : ByteStream) (self : transport) : transport :=
  mkTransport (t_policy self) (t_connection self) bs (outputByteStream self)
    (openness self).

Definition set_outputByteStream (bs : ByteStream) (self : transport) : transport :=
  mkTransport (t_policy self) (t_connection self) (inputByteStream self) bs
    (openness self).

Definition isClosed (self : transport) : bool := negb (openness self =? 1).

Definition initialize (policy : TransportPolicy) (connection : option Conn)
    (self : transport) : outcome unit :=
  if negb (openness self =? 0) then Panic
  else
    let policy' := TransportPolicy_Validate policy in
    Done (mkTransport (Some policy') connection
            (ReserveBuffer (InitialReadBufferSize policy') (inputByteStream self))
            (outputByteStream self) 1)
         tt.

Definition close (force : bool) (self : transport) : outcome (option error) :=
  if isClosed self then Done self (Some TransportClosedError)
  else
    match t_connection self with
    | None => Panic
    | Some c =>
        let c' :=
          if force
          then match conn_kind c with
               | TCPConn => conn_SetLinger 0 c
               | _ => c
               end
          else c in
        let e := conn_Close c' in
        Done (mkTransport None None
                (ByteStream_GC (inputByteStream self))
                (ByteStream_GC (outputByteStream self)) (-1))
             e
    end.

(** The two read loops of [doPeek] have the same body; [target] is
    [packetHeaderSize] in the first and [packetSize] in the second. *)
Inductive readLoopResult : Type :=
| ReadBreak (c : Conn) (bs : ByteStream)
| ReadReturn (c : Conn) (bs : ByteStream) (e : option error)
| ReadExhausted.

Fixpoint readLoop (fuel : nat) (target : Z) (c : Conn) (bs : ByteStream)
  : readLoopResult :=
  match fuel with
  | O => ReadExhausted
  | S fuel' =>
      let '(chunk, e, c') := conn_Read (GetBuffer bs) c in
      if (length chunk =? 0)%nat then ReadReturn c' bs e
      else
        let bs' := CommitBytes chunk bs in
        if GetDataSize bs' >=? target
        then ReadBreak c'
               (if GetBufferSize bs' =? 0 then ReserveBuffer 1 bs' else bs')
        else readLoop fuel' target c' bs'
  end.

(** [tryPeek(dataOffset)]: [None] is a panic (nil policy); otherwise the
    packet and the [ok] flag. *)
Definition tryPeek (dataOffset : Z) (self : transport)
  : option (list byte * bool) :=
  let bs := inputByteStream self in
  if GetDataSize bs - dataOffset <? packetHeaderSize then Some ([], false)
  else
    let packetHeader :=
      take (Z.to_nat packetHeaderSize) (drop (Z.to_nat dataOffset) (GetData bs)) in
    match Uint32 packetHeader, t_policy self with
    | Some packetPayloadSize, Some policy =>
        if packetPayloadSize >? MaxPacketPayloadSize policy then Some ([], false)
        else
          let packetSize := packetHeaderSize + packetPayloadSize in
          if GetDataSize bs - dataOffset <? packetSize then Some ([], false)
          else Some (take (Z.to_nat packetSize)
                       (drop (Z.to_nat dataOffset) (GetData bs)), true)
    | _, _ => None
    end.

(** The loop of [peekInBatch].  Every round that does not break moves
    [dataOffset] forward by a whole packet, so [fuel] rounds are enough when
    [fuel] exceeds the data size. *)
Fixpoint peekInBatch_loop (fuel : nat) (self : transport)
    (packetPayloads : list (list byte)) (dataOffset : Z)
  : outcome (list (list byte) * option error) :=
  match fuel with
  | O => Exhausted
  | S fuel' =>
      match tryPeek dataOffset self with
      | None => Panic
      | Some (_, false) => Done self (packetPayloads, None)
      | Some (packet, true) =>
          peekInBatch_loop fuel' self
            (packetPayloads ++ [drop (Z.to_nat packetHeaderSize) packet])
            (dataOffset + Z.of_nat (length packet))
      end
  end.

Definition skip (packetPayload : list byte) (self : transport)
  : outcome (option error) :=
  if isClosed self then Done self (Some TransportClosedError)
  else
    let packetSize := packetHeaderSize + Z.of_nat (length packetPayload) in
    Done (set_inputByteStream (ByteStream_Skip packetSize (inputByteStream self)) self)
         None.

Definition skipInBatch (packetPayloads : list (list byte)) (self : transport)
  : outcome (option error) :=
  if isClosed self then Done self (Some TransportClosedError)
  else
    let totalPacketSize :=
      fold_left (fun total packetPayload =>
                   total + (packetHeaderSize + Z.of_nat (length packetPayload)))
                packetPayloads 0 in
    Done (set_inputByteStream
            (ByteStream_Skip totalPacketSize (inputByteStream self)) self)
         None.

Definition write (callback : ByteStream -> ByteStream * option error)
    (self : transport) : outcome (option error) :=
  if isClosed self then Done self (Some TransportClosedError)
  else
    let i := GetDataSize (outputByteStream self) in
    let bs1 := WriteDirectly_untouched packetHeaderSize (outputByteStream self) in
    match callback bs1 with
    | (bs2, Some e) =>
        Done (set_outputByteStream (Unwrite (GetDataSize bs2 - i) bs2) self) (Some e)
    | (bs2, None) =>
        if GetDataSize bs2 <? i then Panic
        else
          let packet := drop (Z.to_nat i) (GetData bs2) in
          let packetPayloadSize := Z.of_nat (length packet) - packetHeaderSize in
          match t_policy self with
          | None => Panic
          | Some policy =>
              if packetPayloadSize >? MaxPacketPayloadSize policy
              then Done (set_outputByteStream
                           (Unwrite (Z.of_nat (length packet)) bs2) self)
                        (Some PacketPayloadTooLargeError)
              else if Z.of_nat (length packet) <? 4 then Panic
              else Done (set_outputByteStream
                           (store_at (Z.to_nat i)
                              (PutUint32 (uint32 packetPayloadSize)) bs2) self)
                        None
          end
    end.

Section Transport.

(** Declared elsewhere in the package and not part of the sources at hand:
    [makeDeadline] turns a context and a timeout into a deadline or an
    error; [maxWebSocketFramePayloadSize] bounds one WebSocket frame. *)
Variable makeDeadline : Context -> Duration -> Time * option error.
Variable maxWebSocketFramePayloadSize : Z.

(** [makeDeadline] followed by [SetReadDeadline]: the error that makes
    [doPeek] return, or the connection with its deadline set. *)
Definition setReadDeadline (context_ : Context) (timeout : Duration)
    (self : transport) : outcome (list byte * option error) + Conn :=
  match makeDeadline context_ timeout with
  | (_, Some e) => inl (Done self ([], Some e))
  | (deadline, None) =>
      match t_connection self with
      | None => inl Panic
      | Some c =>
          match conn_SetReadDeadline deadline c with
          | (Some e, c') => inl (Done (set_connection c' self) ([], Some e))
          | (None, c') => inr c'
          end
      end
  end.

(** The second half of [doPeek], from the decoding of the header on. *)
Definition doPeek_packet (context_ : Context) (timeout : Duration)
    (deadlineIsSet : bool) (self : transport)
  : outcome (list byte * option error) :=
  let bs := inputByteStream self in
  if GetDataSize bs <? packetHeaderSize then Panic
  else
    match Uint32 (take (Z.to_nat packetHeaderSize) (GetData bs)), t_policy self with
    | Some packetPayloadSize, Some policy =>
        if packetPayloadSize >? MaxPacketPayloadSize policy
        then Done self ([], Some PacketPayloadTooLargeError)
        else
          let packetSize := packetHeaderSize + packetPayloadSize in
          let bufferSize := packetSize - GetDataSize bs in
          if bufferSize >=? 1 then
            let armed :=
              if deadlineIsSet
              then match t_connection self with
                   | None => inl Panic
                   | Some c => inr c
                   end
              else setReadDeadline context_ timeout self in
            match armed with
            | inl early => early
            | inr c =>
                match readLoop (Z.to_nat bufferSize) packetSize c
                        (ReserveBuffer bufferSize bs) with
                | ReadExhausted => Exhausted
                | ReadReturn c' bs' e => Done (set_input c' bs' self) ([], e)
                | ReadBreak c' bs' =>
                    Done (set_input c' bs' self)
                         (take (Z.to_nat packetSize) (GetData bs'), None)
                end
            end
          else Done self (take (Z.to_nat packetSize) (GetData bs), None)
    | _, _ => Panic
    end.

Definition doPeek (context_ : Context) (timeout : Duration) (self : transport)
  : outcome (list byte * option error) :=
  if isClosed self then Done self ([], Some TransportClosedError)
  else
    let bs := inputByteStream self in
    if GetDataSize bs <? packetHeaderSize then
      match setReadDeadline context_ timeout self with
      | inl early => early
      | inr c =>
          match readLoop (Z.to_nat (packetHeaderSize - GetDataSize bs))
                  packetHeaderSize c bs with
          | ReadExhausted => Exhausted
          | ReadReturn c' bs' e => Done (set_input c' bs' self) ([], e)
          | ReadBreak c' bs' =>
              doPeek_packet context_ timeout true (set_input c' bs' self)
          end
      end
    else doPeek_packet context_ timeout false self.

Definition peek (context_ : Context) (timeout : Duration) (self : transport)
  : outcome (list byte * option error) :=
  match doPeek context_ timeout self with
  | Done self' (_, Some e) => Done self' ([], Some e)
  | Done self' (packet, None) =>
      if Z.of_nat (length packet) <? packetHeaderSize then Panic
      else Done self' (drop (Z.to_nat packetHeaderSize) packet, None)
  | Panic => Panic
  | Exhausted => Exhausted
  end.

Definition peekInBatch (context_ : Context) (timeout : Duration)
    (self : transport) : outcome (list (list byte) * option error) :=
  match doPeek context_ timeout self with
  | Done self' (_, Some e) => Done self' ([], Some e)
  | Done self' (packet, None) =>
      if Z.of_nat (length packet) <? packetHeaderSize then Panic
      else
        peekInBatch_loop (S (length (GetData (inputByteStream self')))) self'
          [drop (Z.to_nat packetHeaderSize) packet]
          (Z.of_nat (length packet))
  | Panic => Panic
  | Exhausted => Exhausted
  end.

(** The chunked writes of [flush] on a [*websocket.Conn]: the rest of the
    data from offset [i], [nn] bytes written so far. *)
Fixpoint flush_websocket (fuel : nat) (data : list byte) (i nn : Z) (c : Conn)
  : option (Z * option error * Conn) :=
  match fuel with
  | O => None
  | S fuel' =>
      let j := i + maxWebSocketFramePayloadSize in
      if j >=? Z.of_nat (length data) then
        let '(n, e, c') := conn_Write (drop (Z.to_nat i) data) c in
        Some (nn + n, e, c')
      else
        let '(n, e, c') :=
          conn_Write (take (Z.to_nat (j - i)) (drop (Z.to_nat i) data)) c in
        match e with
        | Some _ => Some (nn + n, e, c')
        | None => flush_websocket fuel' data j (nn + n) c'
        end
  end.

Definition flush (context_ : Context) (timeout : Duration) (self : transport)
  : outcome (option error) :=
  if isClosed self then Done self (Some TransportClosedError)
  else
    match makeDeadline context_ timeout with
    | (_, Some e) => Done self (Some e)
    | (deadline, None) =>
        match t_connection self with
        | None => Panic
        | Some c =>
            match conn_SetWriteDeadline deadline c with
            | (Some e, c') => Done (set_connection c' self) (Some e)
            | (None, c') =>
                let data := GetData (outputByteStream self) in
                let written :=
                  match conn_kind c' with
                  | WebSocketConn =>
                      if maxWebSocketFramePayloadSize <? 0 then None
                      else flush_websocket (S (length data)) data 0 0 c'
                  | _ => Some (conn_Write data c')
                  end in
                match written with
                | None =>
                    if maxWebSocketFramePayloadSize <? 0 then Panic else Exhausted
                | Some (nn, e, c'') =>
                    Done (mkTransport (t_policy self) (Some c'')
                            (inputByteStream self)
                            (ByteStream_Skip nn (outputByteStream self))
                            (openness self))
                         e
                end
            end
        end
    end.

End Transport.

(** ** The dialing loop of [ClientChannel.Run] *)

Definition is_EOF (e : error) : bool :=
  match e with
  | io_EOF => true
  | _ => false
  end.

(** The type assertion of [e] to a pointer to [net.OpError]. *)
Definition is_OpError (e : error) : bool :=
  match e with
  | net_OpError _ => true
  | _ => false
  end.

(** The calls [Run] makes on the address pool and on the channel
    implementation ([channelImpl] is declared elsewhere in the package). *)
Inductive RunEvent : Type :=
| ev_GetValue
| ev_connect (serverAddress : string)
| ev_Reset
| ev_dispatch
| ev_close
| ev_GC.

(** What one round of the loop meets: the results of [GetValue], of
    [impl.connect] and of [impl.dispatch]. *)
Record attempt : Type := mkAttempt {
  att_GetValue : string * option error;
  att_connect : option error;
  att_dispatch : option error
}.

Inductive control : Type :=
| Continue
| Break (e : error).

(** The [if e != nil { ... }] block that follows [connect] and [dispatch]. *)
Definition classify (e : error) : control :=
  if negb (is_EOF e)
  then if negb (is_OpError e) then Break e else Continue
  else Continue.

(** One round of the [for] loop: the calls made and how the round ends. *)
Definition Run_iteration (a : attempt) : list RunEvent * control :=
  match att_GetValue a with
  | (_, Some e) => ([ev_GetValue], Break e)
  | (serverAddress, None) =>
      match att_connect a with
      | Some e => ([ev_GetValue; ev_connect serverAddress], classify e)
      | None =>
          match att_dispatch a with
          | Some e =>
              ([ev_GetValue; ev_connect serverAddress; ev_Reset; ev_dispatch],
               classify e)
          | None =>
              ([ev_GetValue; ev_connect serverAddress; ev_Reset; ev_dispatch],
               Continue)
          end
      end
  end.

(** The loop over the rounds the environment provides; [None] when the loop
    is still running after the last of them. *)
Fixpoint Run_loop (script : list attempt) (trace : list RunEvent)
  : option (list RunEvent * error) :=
  match script with
  | [] => None
  | a :: rest =>
      match Run_iteration a with
      | (evs, Continue) => Run_loop rest (trace ++ evs)
      | (evs, Break e) => Some (trace ++ evs, e)
      end
  end.

(** [ClientChannel.Run]: the calls made and the error returned. *)
Definition ClientChannel_Run (implIsClosed : bool) (script : list attempt)
  : option (list RunEvent * option error) :=
  if implIsClosed then Some ([], None)
  else
    match Run_loop script [] with
    | None => None
    | Some (trace, e) => Some (trace ++ [ev_close; ev_GC], Some e)
    end.

(** ** Call variables and the world of a call *)

Definition UUID : Type := list byte.
Definition Message : Type := list byte.

Inductive ChannelRef : Type :=
| ClientChannelRef (id : nat)
| ServerChannelRef (id : nat).

(** [nextSpanID] is a [*int32]: the address, in the store, of the
    [ContextVars] whose [bufferOfNextSpanID] it points to. *)
Record ContextVars : Type := mkContextVars {
  Channel : ChannelRef;
  ServiceName : string;
  MethodName : string;
  MethodIndex : Z;
  FIFOKey : string;
  ExtraData : gmap string (list byte);
  TraceID : UUID;
  SpanParentID : Z;
  SpanID : Z;
  sequenceNumber : Z;
  bufferOfNextSpanID : Z;
  nextSpanID : option nat
}.

Definition set_bufferOfNextSpanID (v : Z) (cv : ContextVars) : ContextVars :=
  mkContextVars (Channel cv) (ServiceName cv) (MethodName cv) (MethodIndex cv)
    (FIFOKey cv) (ExtraData cv) (TraceID cv) (SpanParentID cv) (SpanID cv)
    (sequenceNumber cv) v (nextSpanID cv).

(** [int32] wrap-around. *)
Definition wrap32 (z : Z) : Z := (z + 2 ^ 31) mod 2 ^ 32 - 2 ^ 31.

(** Contexts as the call surface sees them: a cancellable base whose state
    ([Err()]) lives in the world under [cell], and [context.WithValue]
    layers binding the key [contextVars{}]. *)
Inductive CallContext : Type :=
| ctx_base (cell : nat)
| ctx_WithValue (parent : CallContext) (contextVars_ : nat).

(** What a [select] on the result channel and on [context_.Done()] meets
    first: the callback of the pending call delivering its arguments, or the
    context becoming done for [reason]. *)
Inductive SelectEvent : Type :=
| CallbackDelivers (response2 : Message) (errorCode : Z) (errorDesc : string)
    (errorData : list byte)
| ContextDone (reason : error).

Inductive CallEvent : Type :=
| ev_interceptor (name : string)
| ev_callMethod (contextVars_ : nat) (withCallback : bool).

Record World : Type := mkWorld {
  w_store : list ContextVars;
  w_rand : nat -> UUID * option error;
  w_rand_pos : nat;
  w_ctx_err : gmap nat error;
  w_select : list SelectEvent;
  w_cells : list nat;
  w_log : list CallEvent
}.

Definition set_store (st : list ContextVars) (w : World) : World :=
  mkWorld st (w_rand w) (w_rand_pos w) (w_ctx_err w) (w_select w) (w_cells w)
    (w_log w).

Definition set_cells (cells : list nat) (w : World) : World :=
  mkWorld (w_store w) (w_rand w) (w_rand_pos w) (w_ctx_err w) (w_select w) cells
    (w_log w).

Definition add_log (ev : CallEvent) (w : World) : World :=
  mkWorld (w_store w) (w_rand w) (w_rand_pos w) (w_ctx_err w) (w_select w)
    (w_cells w) (w_log w ++ [ev]).

(** How a call on a channel ends: it returns, panics, or waits forever in a
    [select] no event wakes.  [OutOfFuel] is the model's own case for the
    bound on the nesting of interceptor calls. *)
Inductive Result (A : Type) : Type :=
| Returned (a : A) (w : World)
| Panicked
| Blocked
| OutOfFuel.
Arguments Returned {A} a w.
Arguments Panicked {A}.
Arguments Blocked {A}.
Arguments OutOfFuel {A}.

(** [uuid.GenerateUUID4()]: the next draw of the random source. *)
Definition GenerateUUID4 (w : World) : (UUID * option error) * World :=
  (w_rand w (w_rand_pos w),
   mkWorld (w_store w) (w_rand w) (S (w_rand_pos w)) (w_ctx_err w) (w_select w)
     (w_cells w) (w_log w)).

(** [context_.Value(contextVars{})] asserted to a [ContextVars] pointer. *)
Definition GetContextVars (context_ : CallContext) : option nat :=
  match context_ with
  | ctx_base _ => None
  | ctx_WithValue _ contextVars_ => Some contextVars_
  end.

Fixpoint context_Err (context_ : CallContext) (w : World) : option error :=
  match context_ with
  | ctx_base cell => w_ctx_err w !! cell
  | ctx_WithValue parent _ => context_Err parent w
  end.

Fixpoint context_cell (context_ : CallContext) : nat :=
  match context_ with
  | ctx_base cell => cell
  | ctx_WithValue parent _ => context_cell parent
  end.

Definition bindContextVars (context_ : CallContext) (contextVars_ : nat)
  : CallContext :=
  ctx_WithValue context_ contextVars_.

Definition makeContextVars (sub : ChannelRef) (serviceName methodName : string)
    (methodIndex : Z) (fifoKey : string) (extraData : gmap string (list byte))
    (tryInheritSpan : bool) (context_ : option CallContext) (w : World)
  : Result (option nat * option error) :=
  let lookup_parent : option (option nat) :=
    if tryInheritSpan
    then match context_ with
         | None => None
         | Some c => Some (GetContextVars c)
         end
    else Some None in
  match lookup_parent with
  | None => Panicked
  | Some (Some parent) =>
      match w_store w !! parent with
      | None => Panicked
      | Some parentContextVars =>
          match nextSpanID parentContextVars with
          | None => Panicked
          | Some counter =>
              match w_store w !! counter with
              | None => Panicked
              | Some holder =>
                  let contextVars_ :=
                    mkContextVars sub serviceName methodName methodIndex fifoKey
                      extraData (TraceID parentContextVars)
                      (SpanID parentContextVars) (bufferOfNextSpanID holder)
                      0 0 (Some counter) in
                  let store' :=
                    <[counter :=
                        set_bufferOfNextSpanID
                          (wrap32 (bufferOfNextSpanID holder + 1)) holder]>
                      (w_store w) in
                  Returned (Some (length store'), None)
                    (set_store (store' ++ [contextVars_]) w)
              end
          end
      end
  | Some None =>
      match GenerateUUID4 w with
      | ((_, Some e), w') => Returned (None, Some e) w'
      | ((traceID, None), w') =>
          let self := length (w_store w') in
          let contextVars_ :=
            mkContextVars sub serviceName methodName methodIndex fifoKey
              extraData traceID 0 1 0 2 (Some self) in
          Returned (Some self, None) (set_store (w_store w' ++ [contextVars_]) w')
      end
  end.

(** ** Interceptors and the call surface *)

(** A response ([interface{}], nil on failure) and an error. *)
Definition CallResult : Type := (option Message * option error)%type.

Definition OutgoingMethodHandler : Type :=
  CallContext -> Message -> World -> Result CallResult.

Definition OutgoingMethodInterceptor : Type :=
  CallContext -> Message -> OutgoingMethodHandler -> World -> Result CallResult.

(** Of [ChannelPolicy], declared elsewhere in the package, the call surface
    reads the registry of outgoing interceptors only. *)
Record ChannelPolicy : Type := mkChannelPolicy {
  outgoingMethodInterceptors : gmap string (list OutgoingMethodInterceptor)
}.

(** Modelled from the spec: [makeMethodInterceptorLocator] is not part of
    the sources at hand; the per-method scope is keyed by the service name, a
    colon and the method index in decimal. *)
Definition makeMethodInterceptorLocator (serviceName : string)
    (methodIndex : Z) : string :=
  serviceName +:+ ":" +:+ pretty methodIndex.

(** Indexing a Go map of slices: a missing key reads as the nil slice. *)
Definition interceptorsAt (policy : ChannelPolicy) (key : string)
  : list OutgoingMethodInterceptor :=
  default [] (outgoingMethodInterceptors policy !! key).

(** The pooled slice is cut to length zero before use, so the list starts
    empty whatever the pool hands out. *)
Definition makeOutgoingMethodInterceptors (policy : ChannelPolicy)
    (contextVars_ : ContextVars) : list OutgoingMethodInterceptor :=
  let outgoingMethodInterceptors0 : list OutgoingMethodInterceptor := [] in
  let outgoingMethodInterceptors1 :=
    outgoingMethodInterceptors0 ++ interceptorsAt policy "" in
  let outgoingMethodInterceptors2 :=
    outgoingMethodInterceptors1
      ++ interceptorsAt policy (ServiceName contextVars_) in
  if MethodIndex contextVars_ >=? 0 then
    let methodInterceptorLocator :=
      makeMethodInterceptorLocator (ServiceName contextVars_)
        (MethodIndex contextVars_) in
    outgoingMethodInterceptors2 ++ interceptorsAt policy methodInterceptorLocator
  else outgoingMethodInterceptors2.

(** The context becomes done: the first reason stays. *)
Definition context_done (context_ : CallContext) (reason : error) (w : World)
  : World :=
  let cell := context_cell context_ in
  match w_ctx_err w !! cell with
  | Some _ => w
  | None =>
      mkWorld (w_store w) (w_rand w) (w_rand_pos w)
        (<[cell := reason]> (w_ctx_err w)) (w_select w) (w_cells w) (w_log w)
  end.

Definition set_select (events : list SelectEvent) (w : World) : World :=
  mkWorld (w_store w) (w_rand w) (w_rand_pos w) (w_ctx_err w) events (w_cells w)
    (w_log w).

Section CallSurface.

(** [channelImpl.callMethod] is declared elsewhere in the package: it hands
    the request to the stream and returns an error when it cannot.  Its last
    argument, the callback, is either the one of [doCallMethod] (flag
    [true]), whose invocation is the [CallbackDelivers] event of a later
    [select], or the empty one of [doCallMethodWithoutReturn] (flag
    [false]). *)
Variable impl_callMethod :
  CallContext -> nat -> Message -> string -> bool -> bool ->
  World -> Result (option error).

Definition doCallMethod (context_ : CallContext) (contextVars_ : nat)
    (request : Message) (responseType : string) (autoRetryMethodCall : bool)
    (w : World) : Result CallResult :=
  match impl_callMethod context_ contextVars_ request responseType
          autoRetryMethodCall true (add_log (ev_callMethod contextVars_ true) w) with
  | Returned (Some e) w1 => Returned (None, Some e) w1
  | Returned None w1 =>
      match w_select w1 with
      | [] => Blocked
      | CallbackDelivers response2 errorCode errorDesc errorData :: rest =>
          if negb (errorCode =? 0)
          then Returned (None, Some (rpc_Error errorCode errorDesc errorData))
                 (set_select rest w1)
          else Returned (Some response2, None) (set_select rest w1)
      | ContextDone reason :: rest =>
          let w2 := context_done context_ reason (set_select rest w1) in
          Returned (None, context_Err context_ w2) w2
      end
  | Panicked => Panicked
  | Blocked => Blocked
  | OutOfFuel => OutOfFuel
  end.

Definition doCallMethodWithoutReturn (context_ : CallContext)
    (contextVars_ : nat) (request : Message) (responseType : string)
    (autoRetryMethodCall : bool) (w : World) : Result (option error) :=
  impl_callMethod context_ contextVars_ request responseType
    autoRetryMethodCall false (add_log (ev_callMethod contextVars_ false) w).

(** The closure [outgoingMethodHandler].  Its captured counter [i] lives in
    the cell [i_addr] of the world; [final] is the branch taken at [i == n].
    A nested call is made by an interceptor only, after the counter has
    moved, so the nesting is at most [n] deep: that is [fuel]. *)
Fixpoint outgoingMethodHandler (fuel : nat) (final : OutgoingMethodHandler)
    (interceptors : list OutgoingMethodInterceptor) (n i_addr : nat)
    (context_ : CallContext) (request : Message) (w : World)
  : Result CallResult :=
  match w_cells w !! i_addr with
  | None => Panicked
  | Some i =>
      if (i =? n)%nat then final context_ request w
      else
        match fuel with
        | O => OutOfFuel
        | S fuel' =>
            match interceptors !! i with
            | None => Panicked
            | Some outgoingMethodInterceptor =>
                outgoingMethodInterceptor context_ request
                  (outgoingMethodHandler fuel' final interceptors n i_addr)
                  (set_cells (<[i_addr := S i]> (w_cells w)) w)
            end
        end
  end.

Definition callMethod (interceptors : list OutgoingMethodInterceptor)
    (context_ : CallContext) (contextVars_ : nat) (request : Message)
    (responseType : string) (autoRetryMethodCall : bool) (w : World)
  : Result CallResult :=
  let n := length interceptors in
  if (n =? 0)%nat then
    doCallMethod (bindContextVars context_ contextVars_) contextVars_ request
      responseType autoRetryMethodCall w
  else
    let i_addr := length (w_cells w) in
    outgoingMethodHandler n
      (fun context_ request =>
         doCallMethod context_ contextVars_ request responseType
           autoRetryMethodCall)
      interceptors n i_addr
      (bindContextVars context_ contextVars_) request
      (set_cells (w_cells w ++ [0%nat]) w).

Definition callMethodWithoutReturn
    (interceptors : list OutgoingMethodInterceptor)
    (context_ : CallContext) (contextVars_ : nat) (request : Message)
    (responseType : string) (autoRetryMethodCall : bool) (w : World)
  : Result (option error) :=
  let n := length interceptors in
  if (n =? 0)%nat then
    doCallMethodWithoutReturn (bindContextVars context_ contextVars_)
      contextVars_ request responseType autoRetryMethodCall w
  else
    let i_addr := length (w_cells w) in
    match outgoingMethodHandler n
            (fun context_ request w =>
               match doCallMethodWithoutReturn context_ contextVars_ request
                       responseType autoRetryMethodCall w with
               | Returned e w' => Returned (None, e) w'
               | Panicked => Panicked
               | Blocked => Blocked
               | OutOfFuel => OutOfFuel
               end)
            interceptors n i_addr
            (bindContextVars context_ contextVars_) request
            (set_cells (w_cells w ++ [0%nat]) w) with
    | Returned (_, e) w' => Returned e w'
    | Panicked => Panicked
    | Blocked => Blocked
    | OutOfFuel => OutOfFuel
    end.

(** Of a channel, the call surface uses its identity (the [sub] stored in
    the call variables) and the [ChannelPolicy] embedded in its policy. *)
Record ClientChannel : Type := mkClientChannel {
  cc_id : nat;
  cc_policy : ChannelPolicy
}.

Record ServerChannel : Type := mkServerChannel {
  sc_id : nat;
  sc_policy : ChannelPolicy
}.

(** The four entry points differ in the channel, in the last two arguments
    of [makeContextVars] and in the [callMethod] they end in. *)
Definition CallMethod_on (sub : ChannelRef) (policy : ChannelPolicy)
    (context_ : CallContext) (serviceName methodName : string)
    (methodIndex : Z) (fifoKey : string) (extraData : gmap string (list byte))
    (request : Message) (responseType : string) (autoRetryMethodCall : bool)
    (w : World) : Result CallResult :=
  match makeContextVars sub serviceName methodName methodIndex fifoKey
          extraData true (Some context_) w with
  | Returned (_, Some e) w1 => Returned (None, Some e) w1
  | Returned (Some contextVars_, None) w1 =>
      match w_store w1 !! contextVars_ with
      | None => Panicked
      | Some cv =>
          callMethod (makeOutgoingMethodInterceptors policy cv) context_
            contextVars_ request responseType autoRetryMethodCall w1
      end
  | Returned (None, None) _ => Panicked
  | Panicked => Panicked
  | Blocked => Blocked
  | OutOfFuel => OutOfFuel
  end.

Definition CallMethodWithoutReturn_on (sub : ChannelRef)
    (policy : ChannelPolicy)
    (context_ : CallContext) (serviceName methodName : string)
    (methodIndex : Z) (fifoKey : string) (extraData : gmap string (list byte))
    (request : Message) (responseType : string) (autoRetryMethodCall : bool)
    (w : World) : Result (option error) :=
  match makeContextVars sub serviceName methodName methodIndex fifoKey
          extraData false None w with
  | Returned (_, Some e) w1 => Returned (Some e) w1
  | Returned (Some contextVars_, None) w1 =>
      match w_store w1 !! contextVars_ with
      | None => Panicked
      | Some cv =>
          callMethodWithoutReturn (makeOutgoingMethodInterceptors policy cv)
            context_ contextVars_ request responseType autoRetryMethodCall w1
      end
  | Returned (None, None) _ => Panicked
  | Panicked => Panicked
  | Blocked => Blocked
  | OutOfFuel => OutOfFuel
  end.

Definition ClientChannel_CallMethod (self : ClientChannel) :=
  CallMethod_on (ClientChannelRef (cc_id self)) (cc_policy self).

Definition ClientChannel_CallMethodWithoutReturn (self : ClientChannel) :=
  CallMethodWithoutReturn_on (ClientChannelRef (cc_id self)) (cc_policy self).

Definition ServerChannel_CallMethod (self : ServerChannel) :=
  CallMethod_on (ServerChannelRef (sc_id self)) (sc_policy self).

Definition ServerChannel_CallMethodWithoutReturn (self : ServerChannel) :=
  CallMethodWithoutReturn_on (ServerChannelRef (sc_id self)) (sc_policy self).

End CallSurface.

(** An interceptor that records its name and calls the continuation once,
    with the context and the request it was given. *)
Definition named_interceptor (name : string) : OutgoingMethodInterceptor :=
  fun context_ request outgoingMethodHandler w =>
    outgoingMethodHandler context_ request (add_log (ev_interceptor name) w).

(** ** [RawMessage] *)

Definition RawMessage : Type := list byte.

(** Go's built-in [copy(dst, src)]: the destination after the copy and the
    number of bytes copied. *)
Definition copy (dst src : list byte) : list byte * Z :=
  let n := Nat.min (length dst) (length src) in
  (take n src ++ drop n dst, Z.of_nat n).

(** [Unmarshal] replaces the message by a fresh copy of [data]. *)
Definition RawMessage_Unmarshal (data : list byte) (self : RawMessage)
  : RawMessage * option error :=
  (fst (copy (replicate (length data) x00) data), None).

Definition RawMessage_Size (self : RawMessage) : Z := Z.of_nat (length self).

(** [MarshalTo]: the buffer afterwards, the count and the error. *)
Definition RawMessage_MarshalTo (buffer : list byte) (self : RawMessage)
  : list byte * Z * option error :=
  let '(buffer', n) := copy buffer self in
  (buffer', n, None).

(** ** [HangupError] *)

Record HangupError : Type := mkHangupError {
  Code : Z;
  IsPassive : bool;
  he_ExtraData : gmap string (list byte)
}.

Section HangupErrors.

(** The codes are constants of the protocol package, declared outside the
    sources at hand. *)
Variables HangupErrorAborted HangupErrorBadIncomingPacket
  HangupErrorTooManyIncomingRequests HangupErrorOutgoingPacketTooLarge
  HangupErrorSystem : Z.

(** [fmt.Sprintf("error %d", code)] prints the code in decimal. *)
Definition HangupError_Error (self : HangupError) : string :=
  let message := "pbrpc/stream: hangup: "%string in
  let message :=
    message +:+
    (if Code self =? HangupErrorAborted then "aborted"
     else if Code self =? HangupErrorBadIncomingPacket then "bad incoming packet"
     else if Code self =? HangupErrorTooManyIncomingRequests
          then "too many incoming requests"
     else if Code self =? HangupErrorOutgoingPacketTooLarge
          then "outgoing packet too large"
     else if Code self =? HangupErrorSystem then "system"
     else "error " +:+ pretty (Code self)) in
  if IsPassive self then message +:+ " (passive)" else message +:+ " (active)".

End HangupErrors.

(** ** [ServerChannelPolicy], [ServerPolicy] and [Server] *)

(** Interface values and policy pointers, by identity: the default the
    package fills in, or one the user gave. *)
Inductive AcceptorRef : Type :=
| TCPAcceptor
| Acceptor_custom (id : nat).

Inductive ServerChannelFactoryRef : Type :=
| defaultServerChannelFactory
| ServerChannelFactory_custom (id : nat).

Inductive ServerHandshakerRef : Type :=
| shakeHandsWithClient
| ServerHandshaker_custom (id : nat).

(** Pointers to a [ChannelPolicy]: the package's variable
    [defaultChannelPolicy], or a policy of the user. *)
Inductive ChannelPolicyRef : Type :=
| defaultChannelPolicy
| ChannelPolicy_at (id : nat).

(** Pointers to a [ServerChannelPolicy]: the package's variable
    [defaultServerChannelPolicy], or a policy of the user. *)
Inductive ServerChannelPolicyRef : Type :=
| defaultServerChannelPolicy
| ServerChannelPolicy_at (id : nat).

(** [ServerChannelPolicy] embeds a [*ChannelPolicy]: [None] is the nil
    pointer, through which no field of [ChannelPolicy] can be selected. *)
Record ServerChannelPolicy : Type := mkServerChannelPolicy {
  scp_ChannelPolicy : option ChannelPolicyRef;
  scp_Handshaker : option ServerHandshakerRef;
  scp_validateOnce : bool
}.

Definition ServerChannelPolicy_Validate (self : ServerChannelPolicy)
  : ServerChannelPolicy :=
  if scp_validateOnce self then self
  else
    mkServerChannelPolicy
      (match scp_ChannelPolicy self with
       | None => Some defaultChannelPolicy
       | Some policy => Some policy
       end)
      (match scp_Handshaker self with
       | None => Some shakeHandsWithClient
       | Some handshaker => Some handshaker
       end)
      true.

Record ServerPolicy : Type := mkServerPolicy {
  sp_Acceptor : option AcceptorRef;
  sp_GracefulShutdownTimeout : Duration;
  sp_Registry : option nat;
  sp_Weight : Z;
  sp_ChannelFactory : option ServerChannelFactoryRef;
  sp_Channel : option ServerChannelPolicyRef;
  sp_validateOnce : bool
}.

Definition defaultWeight : Z := 5.

(** [Validate] points [Channel] to the default server channel policy when
    it is nil; it does not validate the channel policy it points to. *)
Definition ServerPolicy_Validate (self : ServerPolicy) : ServerPolicy :=
  if sp_validateOnce self then self
  else
    mkServerPolicy
      (match sp_Acceptor self with
       | None => Some TCPAcceptor
       | Some acceptor => Some acceptor
       end)
      (sp_GracefulShutdownTimeout self)
      (sp_Registry self)
      (match sp_Registry self with
       | Some _ => if sp_Weight self <? 1 then defaultWeight else sp_Weight self
       | None => sp_Weight self
       end)
      (match sp_ChannelFactory self with
       | None => Some defaultServerChannelFactory
       | Some factory => Some factory
       end)
      (match sp_Channel self with
       | None => Some defaultServerChannelPolicy
       | Some channel => Some channel
       end)
      true.

Record Server : Type := mkServer {
  srv_policy : option ServerPolicy;
  bindAddress : string;
  discoveryAddress : string;
  srv_openness : Z
}.

(** The calls [Server.Run] makes on the registry and on the acceptor. *)
Inductive ServerEvent : Type :=
| sev_AddServiceProviders (serviceNames : list string) (address : string)
    (weight : Z)
| sev_Accept (bindAddress : string) (gracefulShutdownTimeout : Duration)
| sev_RemoveServiceProviders (serviceNames : list string) (address : string)
    (weight : Z).

(** What [Run] meets: the server channel policies behind their pointers as
    they are when [Run] reads them; of every [ChannelPolicy] the keys of its
    map [serviceHandlers] in the order the [range] yields them; and the
    results of [AddServiceProviders] and of [Accept], once they return. *)
Record ServerEnv : Type := mkServerEnv {
  env_serverChannelPolicy : ServerChannelPolicyRef -> ServerChannelPolicy;
  env_serviceHandlers : ChannelPolicyRef -> list string;
  env_AddServiceProviders : option error;
  env_Accept : option error
}.

(** The calls made, and the server and the error [Run] returns with
    ([None]: it panics on a nil pointer, the server left as it was). *)
Record ServerRun : Type := mkServerRun {
  run_events : list ServerEvent;
  run_result : option (Server * option error)
}.

Section Servers.

(** [defaultServerAddress] is declared elsewhere in the package. *)
Variable defaultServerAddress : string.

(** [Initialize]; [None] is the panic on a server already initialized. *)
Definition Server_Initialize (policy : ServerPolicy)
    (bindAddress0 discoveryAddress0 : string) (self : Server) : option Server :=
  if negb (srv_openness self =? 0) then None
  else
    let bindAddress1 :=
      if decide (bindAddress0 = ""%string) then defaultServerAddress
      else bindAddress0 in
    Some (mkServer (Some (ServerPolicy_Validate policy)) bindAddress1
            discoveryAddress0 1).

Definition Server_cleanup (self : Server) : Server :=
  mkServer None "" "" (-1).

(** [Run].  With a registry it ranges over
    [self.policy.Channel.serviceHandlers], a field selected through the
    [*ChannelPolicy] embedded in the server channel policy: a nil [Channel]
    or a nil embedded pointer is a panic, before anything is announced. *)
Definition Server_Run (env : ServerEnv) (self : Server) : ServerRun :=
  if negb (srv_openness self =? 1) then mkServerRun [] (Some (self, None))
  else
    match srv_policy self with
    | None => mkServerRun [] None
    | Some policy =>
        let accept (before : list ServerEvent)
            (after : list ServerEvent) : ServerRun :=
          match sp_Acceptor policy with
          | None => mkServerRun before None
          | Some _ =>
              mkServerRun
                (before
                 ++ [sev_Accept (bindAddress self)
                       (sp_GracefulShutdownTimeout policy)]
                 ++ after)
                (Some (Server_cleanup self, env_Accept env))
          end in
        match sp_Registry policy with
        | Some _ =>
            match sp_Channel policy with
            | None => mkServerRun [] None
            | Some channel =>
                match scp_ChannelPolicy (env_serverChannelPolicy env channel) with
                | None => mkServerRun [] None
                | Some channelPolicy =>
                    let serviceNames :=
                      [] ++ env_serviceHandlers env channelPolicy in
                    let address :=
                      if decide (discoveryAddress self = ""%string)
                      then bindAddress self else discoveryAddress self in
                    let added :=
                      sev_AddServiceProviders serviceNames address
                        (sp_Weight policy) in
                    match env_AddServiceProviders env with
                    | Some e =>
                        mkServerRun [added]
                          (Some (Server_cleanup self, Some e))
                    | None =>
                        accept [added]
                          [sev_RemoveServiceProviders serviceNames address
                             (sp_Weight policy)]
                    end
                end
            end
        | None => accept [] []
        end
    end.

End Servers.

(** ** Notions the properties are stated with *)

(** The errors the specification calls retryable. *)
Definition retryable (e : error) : Prop :=
  e = io_EOF \/ exists op, e = net_OpError op.

(** A round fails with [e]: the address was drawn, and either [connect]
    returned [e], or [connect] succeeded and [dispatch] returned [e]. *)
Definition fails_with (a : attempt) (e : error) : Prop :=
  snd (att_GetValue a) = None /\
  (att_connect a = Some e \/ (att_connect a = None /\ att_dispatch a = Some e)).

(** The value of the counter a [ContextVars] points to. *)
Definition nextSpanID_value (w : World) (cv : ContextVars) : option Z :=
  match nextSpanID cv with
  | None => None
  | Some counter => bufferOfNextSpanID <$> (w_store w !! counter)
  end.

Definition add_logs (evs : list CallEvent) (w : World) : World :=
  mkWorld (w_store w) (w_rand w) (w_rand_pos w) (w_ctx_err w) (w_select w)
    (w_cells w) (w_log w ++ evs).

Definition named_interceptors (names : list string)
  : list OutgoingMethodInterceptor :=
  named_interceptor <$> names.

(** A policy whose outgoing interceptors are the named ones of [registry],
    kept in the order they are listed in. *)
Definition named_policy (registry : gmap string (list string)) : ChannelPolicy :=
  mkChannelPolicy (named_interceptors <$> registry).

Definition namesAt (registry : gmap string (list string)) (key : string)
  : list string :=
  default [] (registry !! key).

(** A packet on the wire: the payload length in four big-endian bytes, then
    the payload. *)
Definition frame (payload : list byte) : list byte :=
  PutUint32 (Z.of_nat (length payload)) ++ payload.

(** No complete packet starts [tail]: it is shorter than a header, or its
    header announces more than the policy allows, or more than [tail]
    holds. *)
Definition no_complete_packet (maxPayload : Z) (tail : list byte) : Prop :=
  Z.of_nat (length tail) < packetHeaderSize \/
  exists n,
    Uint32 tail = Some n /\
    (n > maxPayload \/ Z.of_nat (length tail) < packetHeaderSize + n).

(** What [doPeek] has established when it returns a packet: the header at
    the front of the input announces a payload the policy allows, the input
    holds the whole packet, and the packet returned is that prefix. *)
Definition packet_peeked (t' : transport) (packet : list byte) : Prop :=
  exists p n,
    t_policy t' = Some p /\
    Uint32 (GetData (inputByteStream t')) = Some n /\
    n <= MaxPacketPayloadSize p /\
    packetHeaderSize + n <= GetDataSize (inputByteStream t') /\
    packet = take (Z.to_nat (packetHeaderSize + n)) (GetData (inputByteStream t')).

(** Successive [skip]s of the payloads of a list, stopping at the first
    that does not return nil. *)
Definition skip_each (packetPayloads : list (list byte)) (self : transport)
  : outcome (option error) :=
  fold_left
    (fun acc packetPayload =>
       match acc with
       | Done t None => skip packetPayload t
       | _ => acc
       end)
    packetPayloads (Done self None).

(** Successive [write]s, each with a callback that writes one payload of
    the list, stopping at the first that does not return nil. *)
Definition write_each (payloads : list (list byte)) (self : transport)
  : outcome (option error) :=
  fold_left
    (fun acc payload =>
       match acc with
       | Done t None => write (fun bs => (ByteStream_Write payload bs, None)) t
       | _ => acc
       end)
    payloads (Done self None).

(** Whether a string holds a space. *)
Fixpoint has_space (s : string) : bool :=
  match s with
  | EmptyString => false
  | String c s' => if decide (c = " "%char) then true else has_space s'
  end.

(** What every return of [doPeek] keeps: the input only grows at its end,
    and policy, output and openness stay. *)
Definition peek_keeps (t t' : transport) : Prop :=
  (exists more,
      GetData (inputByteStream t') = GetData (inputByteStream t) ++ more) /\
  t_policy t' = t_policy t /\
  outputByteStream t' = outputByteStream t /\
  openness t' = openness t.

(** The connection keeps to the contract of [Write]: it reports an error
    whenever it takes less than a whole frame. *)
Definition writes_whole_frames (maxFrame : Z) (script : list (Z * option error))
  : Prop :=
  Forall (fun step => snd step = None -> maxFrame <= fst step) script.

(** The bytes a connection has still to deliver. *)
Definition pending (c : Conn) : list byte := concat (fst <$> conn_incoming c).

(** Every read the connection has in store delivers bytes and no error. *)
Definition delivers (c : Conn) : Prop :=
  Forall (fun step => fst step <> [] /\ snd step = None) (conn_incoming c).

(** An interceptor that records its name and answers by itself, without
    calling the continuation. *)
Definition answering_interceptor (name : string) (answer : CallResult)
  : OutgoingMethodInterceptor :=
  fun context_ request outgoingMethodHandler w =>
    Returned answer (add_log (ev_interceptor name) w).

(** The span ids handed out so far from the counter of [root], in the order
    of allocation. *)
Definition span_ids (w : World) (root : nat) : list Z :=
  omap (fun cv =>
          if decide (nextSpanID cv = Some root) then Some (SpanID cv) else None)
    (w_store w).

(** No counter pointer leads out of the store. *)
Definition store_closed (w : World) : Prop :=
  Forall (fun cv => forall k, nextSpanID cv = Some k -> (k < length (w_store w))%nat)
    (w_store w).

(** The trace of [root] is in order: the counter is held by a root, and it
    lies above every span id handed out from it, which are all
    different. *)
Definition trace_in_order (w : World) (root : nat) : Prop :=
  exists r,
    w_store w !! root = Some r /\ nextSpanID r = Some root /\
    Forall (fun id => 1 <= id < bufferOfNextSpanID r) (span_ids w root) /\
    NoDup (span_ids w root).

(** A round that goes on: an address is drawn, and whatever fails, fails
    with [io.EOF] or a [*net.OpError]. *)
Definition round_goes_on (a : attempt) : Prop :=
  snd (att_GetValue a) = None /\
  (forall e, att_connect a = Some e -> retryable e) /\
  (att_connect a = None -> forall e, att_dispatch a = Some e -> retryable e).

(** The addresses of the [connect] calls of a trace. *)
Definition connected_addresses (trace : list RunEvent) : list string :=
  omap (fun ev => match ev with
                  | ev_connect serverAddress => Some serverAddress
                  | _ => None
                  end) trace.

(** The channel policy [Run] reaches through [policy], once [policy] is
    validated: the one [Channel] points to, or the package's default. *)
Definition channel_policy_of (env : ServerEnv) (policy : ServerPolicy)
  : ServerChannelPolicy :=
  env_serverChannelPolicy env
    (default defaultServerChannelPolicy (sp_Channel policy)).

(** [env] after [Validate] has run on the server channel policy at
    [channel]. *)
Definition validate_channel_policy (channel : ServerChannelPolicyRef)
    (env : ServerEnv) : ServerEnv :=
  mkServerEnv
    (fun c =>
       match c, channel with
       | defaultServerChannelPolicy, defaultServerChannelPolicy =>
           ServerChannelPolicy_Validate (env_serverChannelPolicy env c)
       | ServerChannelPolicy_at i, ServerChannelPolicy_at j =>
           if (i =? j)%nat
           then ServerChannelPolicy_Validate (env_serverChannelPolicy env c)
           else env_serverChannelPolicy env c
       | _, _ => env_serverChannelPolicy env c
       end)
    (env_serviceHandlers env) (env_AddServiceProviders env) (env_Accept env).

(** ** Sample inputs *)

Definition sample_policy : TransportPolicy :=
  TransportPolicy_Validate (mkTransportPolicy 0 0 false).

Definition sample_conn : Conn :=
  mkConn TCPConn [] [] [] None None None None None.

Definition sample_transport : transport :=
  mkTransport (Some sample_policy) (Some sample_conn)
    (ReserveBuffer (InitialReadBufferSize sample_policy) emptyByteStream)
    emptyByteStream 1.

Definition sample_makeDeadline (context_ : Context) (timeout : Duration)
  : Time * option error :=
  (timeout, ctx_err context_).

Definition sample_world : World :=
  mkWorld
    [ mkContextVars (ClientChannelRef 0) "svc" "m" 0 "" ∅ [x2a] 0 1 0 2 (Some 0%nat) ]
    (fun n => ([byte_of_Z (Z.of_nat n)], None)) 0 ∅ [] [] [].

Definition sample_impl_callMethod (context_ : CallContext) (contextVars_ : nat)
    (request : Message) (responseType : string) (autoRetryMethodCall : bool)
    (withCallback : bool) (w : World) : Result (option error) :=
  Returned None w.

Definition sample_cancel_world : World :=
  mkWorld [] (fun n => ([], None)) 0 ∅ [ContextDone context_DeadlineExceeded] []
    [].

Definition failing_callback (bs : ByteStream) : ByteStream * option error :=
  (ByteStream_Write [x01; x02; x03] bs, Some (other_error "marshal")).

Definition sample_payload : list byte := [x01; x02; x03].

Definition sample_receiver : transport :=
  mkTransport (Some sample_policy) (Some sample_conn)
    (mkByteStream ([x00; x00; x00; x03] ++ sample_payload ++ [x00; x00]) [x00])
    emptyByteStream 1.

Definition sample_batch_conn : Conn :=
  mkConn TCPConn
    [([x00; x03; x01; x02; x03; x00; x00; x00; x01; x09; x00], None)]
    [] [] None None None None None.

Definition sample_batch_transport : transport :=
  mkTransport (Some sample_policy) (Some sample_batch_conn)
    (mkByteStream [x00; x00] (replicate 64 x00))
    emptyByteStream 1.

Definition sample_server_policy : ServerPolicy :=
  mkServerPolicy None 5 (Some 0%nat) 3 None None false.

(** The policies of the package before anything has validated them. *)
Definition sample_server_env : ServerEnv :=
  mkServerEnv (fun _ => mkServerChannelPolicy None None false)
    (fun _ => ["echo"%string; "auth"%string]) None (Some io_EOF).

Definition sample_oversized_transport : transport :=
  mkTransport (Some sample_policy) (Some sample_conn)
    (mkByteStream ([x00; x00; x00; x01; x09] ++ [xff; xff; xff; xff; x00]) [x00])
    emptyByteStream 1.

Definition sample_websocket_conn : Conn :=
  mkConn WebSocketConn [] [] [] None None None None None.

Definition sample_websocket_transport : transport :=
  mkTransport (Some sample_policy) (Some sample_websocket_conn)
    emptyByteStream
    (mkByteStream [x00; x00; x00; x01; x09] []) 1.

Definition sample_chunked_conn : Conn :=
  mkConn TCPConn
    [([x00], None); ([x00; x00; x03; x01], None); ([x02; x03; x00], None)]
    [] [] None None None None None.

Definition sample_chunked_transport : transport :=
  mkTransport (Some sample_policy) (Some sample_chunked_conn)
    (mkByteStream [] (replicate 4 x00)) emptyByteStream 1.

Definition sample_failing_world : World :=
  mkWorld [] (fun n => ([], Some (other_error "entropy"))) 0 ∅ [] [] [].

(** * Properties *)

(** ** [TransportPolicy.Validate] *)

(** C9. [Validate] on a policy whose [validateOnce] has not run yet: an
    [InitialReadBufferSize] of 0 becomes 4096 and any other value is clamped
    into [256, 65536]; [MaxPacketPayloadSize] is raised to 65536 when it is
    smaller; so the validated policy has [MaxPacketPayloadSize >= 65536].
    The normalisation runs once: a second [Validate] changes nothing. *)
Theorem Validate_normalizes_once (p : TransportPolicy)
    (Hfresh : validateOnce p = false) :
  let q := TransportPolicy_Validate p in
  InitialReadBufferSize q =
    (if InitialReadBufferSize p =? 0 then 4096
     else Z.max 256 (Z.min (InitialReadBufferSize p) 65536)) /\
  256 <= InitialReadBufferSize q <= 65536 /\
  MaxPacketPayloadSize q = Z.max (MaxPacketPayloadSize p) 65536 /\
  65536 <= MaxPacketPayloadSize q /\
  validateOnce q = true /\
  TransportPolicy_Validate q = q.
Proof.
  unfold TransportPolicy_Validate. rewrite Hfresh. cbn -[Z.shiftl].
  unfold defaultInitialReadBufferSizeOfTransport,
    minInitialReadBufferSizeOfTransport, maxInitialReadBufferSizeOfTransport,
    minMaxPacketPayloadSize.
  change (Z.shiftl 1 12) with 4096. change (Z.shiftl 1 8) with 256.
  change (Z.shiftl 1 16) with 65536.
  repeat split;
    repeat match goal with
           | |- context [?a =? ?b] => destruct (Z.eqb_spec a b)
           | |- context [?a <? ?b] => destruct (Z.ltb_spec a b)
           | |- context [?a >? ?b] =>
               rewrite (Z.gtb_ltb a b); destruct (Z.ltb_spec b a)
           end; lia.
Qed.

Lemma Validate_normalizes_once_witness :
  let q := TransportPolicy_Validate (mkTransportPolicy 100 70000 false) in
  InitialReadBufferSize q = 256 /\ MaxPacketPayloadSize q = 70000.
Proof.
  pose proof (Validate_normalizes_once (mkTransportPolicy 100 70000 false)
                eq_refl) as H.
  cbv zeta in H. destruct H as (H1 & _ & H3 & _).
  split; [exact H1 | exact H3].
Defined.

(** A validated policy is left alone whatever its fields hold. *)
Lemma Validate_done (p : TransportPolicy) :
  validateOnce p = true -> TransportPolicy_Validate p = p.
Proof. intros H. unfold TransportPolicy_Validate. now rewrite H. Qed.

Lemma Validate_idempotent (p : TransportPolicy) :
  TransportPolicy_Validate (TransportPolicy_Validate p) = TransportPolicy_Validate p.
Proof.
  unfold TransportPolicy_Validate at 2 3.
  destruct (validateOnce p) eqn:E.
  - now apply Validate_done.
  - now apply Validate_done.
Qed.

(** ** The dialing loop *)

Lemma classify_Continue (e : error) : classify e = Continue <-> retryable e.
Proof.
  unfold classify, retryable. destruct e; cbn; split; intros H;
    try reflexivity; try discriminate; eauto;
    destruct H as [H | [op H]]; discriminate.
Qed.

Lemma classify_Break (e : error) : ~ retryable e -> classify e = Break e.
Proof.
  unfold classify, retryable. destruct e; cbn; intros H;
    try reflexivity; exfalso; apply H; eauto.
Qed.

Lemma Run_iteration_fails (a : attempt) (e : error) :
  fails_with a e -> snd (Run_iteration a) = classify e.
Proof.
  unfold fails_with, Run_iteration. destruct (att_GetValue a) as [addr g].
  cbn. intros [-> [-> | [-> ->]]]; reflexivity.
Qed.

Lemma Run_loop_app (pre rest : list attempt) (trace : list RunEvent) :
  Forall (fun a => snd (Run_iteration a) = Continue) pre ->
  Run_loop (pre ++ rest) trace =
  Run_loop rest (trace ++ concat (map (fun a => fst (Run_iteration a)) pre)).
Proof.
  intros H. revert trace. induction H as [| a pre Ha _ IH]; intros trace.
  - cbn. now rewrite app_nil_r.
  - cbn. destruct (Run_iteration a) as [evs c]. cbn in Ha. subst c.
    rewrite IH. cbn. now rewrite <- app_assoc.
Qed.

(** C3. When a round of the dialing loop fails (in [connect] or in
    [dispatch]) with [e], the loop goes on to the next round exactly when
    [e] is [io.EOF] or a [*net.OpError]; with any other error, after
    whatever rounds went on before it, [Run] leaves the loop, closes the
    channel and returns [e]. *)
Theorem Run_retry_classification (a : attempt) (e : error)
    (Hfail : fails_with a e) :
  (snd (Run_iteration a) = Continue <-> retryable e) /\
  (retryable e ->
   forall rest trace,
     Run_loop (a :: rest) trace = Run_loop rest (trace ++ fst (Run_iteration a))) /\
  (~ retryable e ->
   forall pre rest,
     Forall (fun a' => snd (Run_iteration a') = Continue) pre ->
     exists trace,
       ClientChannel_Run false (pre ++ a :: rest)
       = Some (trace ++ [ev_close; ev_GC], Some e)).
Proof.
  pose proof (Run_iteration_fails a e Hfail) as Hc.
  split; [| split].
  - rewrite Hc. apply classify_Continue.
  - intros Hr rest trace. cbn.
    destruct (Run_iteration a) as [evs c]. cbn in Hc. subst c.
    apply classify_Continue in Hr. now rewrite Hr.
  - intros Hn pre rest Hpre. unfold ClientChannel_Run.
    rewrite (Run_loop_app pre (a :: rest) [] Hpre). cbn.
    destruct (Run_iteration a) as [evs c]. cbn in Hc. subst c.
    rewrite (classify_Break e Hn). eauto.
Qed.

Lemma Run_retry_classification_witness :
  exists trace,
    ClientChannel_Run false
      [ mkAttempt ("a:1"%string, None) (Some io_EOF) None;
        mkAttempt ("a:2"%string, None) None (Some (other_error "handshake")) ]
    = Some (trace ++ [ev_close; ev_GC], Some (other_error "handshake")).
Proof.
  refine (proj2 (proj2 (Run_retry_classification
                          (mkAttempt ("a:2"%string, None) None
                             (Some (other_error "handshake")))
                          (other_error "handshake") _)) _
            [mkAttempt ("a:1"%string, None) (Some io_EOF) None] [] _).
  - split; [reflexivity | right; split; reflexivity].
  - intros [H | [op H]]; discriminate.
  - constructor; [reflexivity | constructor].
Defined.

(** ** Closed transports *)

Section ClosedTransport.

Variable makeDeadline : Context -> Duration -> Time * option error.
Variable maxWebSocketFramePayloadSize : Z.

(** Every operation on a closed transport returns [TransportClosedError]
    and leaves the transport as it is. *)
Lemma closed_operations (t : transport) :
  isClosed t = true ->
  (forall force, close force t = Done t (Some TransportClosedError)) /\
  (forall context_ timeout,
     peek makeDeadline context_ timeout t
     = Done t ([], Some TransportClosedError)) /\
  (forall context_ timeout,
     peekInBatch makeDeadline context_ timeout t
     = Done t ([], Some TransportClosedError)) /\
  (forall packetPayload, skip packetPayload t = Done t (Some TransportClosedError)) /\
  (forall packetPayloads,
     skipInBatch packetPayloads t = Done t (Some TransportClosedError)) /\
  (forall callback, write callback t = Done t (Some TransportClosedError)) /\
  (forall context_ timeout,
     flush makeDeadline maxWebSocketFramePayloadSize context_ timeout t
     = Done t (Some TransportClosedError)).
Proof.
  intros H.
  unfold close, peek, peekInBatch, doPeek, skip, skipInBatch, write, flush.
  rewrite H. repeat split; reflexivity.
Qed.

(** C6. Closing an open transport marks it closed (and returns what the
    connection's [Close] returns); from then on [close], with either force
    flag, returns [TransportClosedError] and changes nothing, and so do
    [peek], [peekInBatch], [skip], [skipInBatch], [write] and [flush]. *)
Theorem close_idempotent (t : transport) (c : Conn) (force : bool)
    (Hopen : isClosed t = false) (Hconn : t_connection t = Some c) :
  exists t',
    close force t = Done t' (conn_close_result c) /\
    isClosed t' = true /\
    (forall force', close force' t' = Done t' (Some TransportClosedError)) /\
    (forall context_ timeout,
       peek makeDeadline context_ timeout t'
       = Done t' ([], Some TransportClosedError)) /\
    (forall context_ timeout,
       peekInBatch makeDeadline context_ timeout t'
       = Done t' ([], Some TransportClosedError)) /\
    (forall packetPayload,
       skip packetPayload t' = Done t' (Some TransportClosedError)) /\
    (forall packetPayloads,
       skipInBatch packetPayloads t' = Done t' (Some TransportClosedError)) /\
    (forall callback, write callback t' = Done t' (Some TransportClosedError)) /\
    (forall context_ timeout,
       flush makeDeadline maxWebSocketFramePayloadSize context_ timeout t'
       = Done t' (Some TransportClosedError)).
Proof.
  eexists. split; [| split].
  - unfold close. rewrite Hopen, Hconn.
    f_equal. destruct force; [destruct (conn_kind c) |]; reflexivity.
  - reflexivity.
  - apply closed_operations. reflexivity.
Qed.

End ClosedTransport.

Lemma close_idempotent_witness :
  exists t',
    close true sample_transport = Done t' None /\
    close false t' = Done t' (Some TransportClosedError).
Proof.
  destruct (close_idempotent sample_makeDeadline 1024 sample_transport
              sample_conn true eq_refl eq_refl)
    as (t' & Hclose & _ & Hagain & _).
  exists t'. split; [exact Hclose | apply Hagain].
Defined.

(** ** Span allocation *)

(** C4. A root call (the caller does not try to inherit, or the context
    binds no call variables) whose trace id generation succeeds gets the
    generated id, [SpanID = 1], [SpanParentID = 0] and a counter of its own
    holding 2.  A child call (the context binds the parent's call variables
    and the caller tries to inherit) gets the parent's trace id, the parent's
    [SpanID] as [SpanParentID], the value of the shared counter as [SpanID],
    and shares the counter, which is one higher afterwards (in [int32]
    arithmetic); no trace id is generated. *)
Theorem makeContextVars_span_allocation :
  (forall sub serviceName methodName methodIndex fifoKey extraData
          tryInheritSpan context_ w traceID,
      (tryInheritSpan = false \/
       exists c, context_ = Some c /\ GetContextVars c = None) ->
      w_rand w (w_rand_pos w) = (traceID, None) ->
      exists w' cv,
        makeContextVars sub serviceName methodName methodIndex fifoKey
          extraData tryInheritSpan context_ w
        = Returned (Some (length (w_store w)), None) w' /\
        w_store w' = w_store w ++ [cv] /\
        TraceID cv = traceID /\ SpanID cv = 1 /\ SpanParentID cv = 0 /\
        nextSpanID cv = Some (length (w_store w)) /\
        nextSpanID_value w' cv = Some 2) /\
  (forall sub serviceName methodName methodIndex fifoKey extraData
          c w parent parentContextVars next,
      GetContextVars c = Some parent ->
      w_store w !! parent = Some parentContextVars ->
      nextSpanID_value w parentContextVars = Some next ->
      exists w' cv,
        makeContextVars sub serviceName methodName methodIndex fifoKey
          extraData true (Some c) w
        = Returned (Some (length (w_store w)), None) w' /\
        w_store w' !! length (w_store w) = Some cv /\
        TraceID cv = TraceID parentContextVars /\
        SpanParentID cv = SpanID parentContextVars /\
        SpanID cv = next /\
        nextSpanID cv = nextSpanID parentContextVars /\
        nextSpanID_value w' cv = Some (wrap32 (next + 1)) /\
        w_rand_pos w' = w_rand_pos w).
Proof.
  split.
  - intros sub serviceName methodName methodIndex fifoKey extraData
      tryInheritSpan context_ w traceID Hroot Hrand.
    assert (Hgen : makeContextVars sub serviceName methodName methodIndex
                     fifoKey extraData tryInheritSpan context_ w
                   = Returned (Some (length (w_store w)), None)
                       (set_store
                          (w_store w ++
                           [mkContextVars sub serviceName methodName methodIndex
                              fifoKey extraData traceID 0 1 0 2
                              (Some (length (w_store w)))])
                          (snd (GenerateUUID4 w)))).
    { unfold makeContextVars.
      destruct Hroot as [-> | (c & -> & Hc)].
      - unfold GenerateUUID4. rewrite Hrand. reflexivity.
      - destruct tryInheritSpan; rewrite ?Hc;
          unfold GenerateUUID4; rewrite Hrand; reflexivity. }
    eexists _, _. split; [exact Hgen |].
    cbn. repeat split; try reflexivity.
    unfold nextSpanID_value. cbn.
    rewrite lookup_app_r by lia. now rewrite Nat.sub_diag.
  - intros sub serviceName methodName methodIndex fifoKey extraData
      c w parent parentContextVars next Hc Hparent Hnext.
    unfold nextSpanID_value in Hnext.
    destruct (nextSpanID parentContextVars) as [counter |] eqn:Hcounter;
      [| discriminate].
    destruct (w_store w !! counter) as [holder |] eqn:Hholder;
      [| discriminate].
    cbn in Hnext. injection Hnext as Hnext.
    unfold makeContextVars. rewrite Hc, Hparent, Hcounter, Hholder.
    rewrite length_insert.
    eexists _, _. split; [reflexivity |].
    cbn. pose proof (lookup_lt_Some _ _ _ Hholder) as Hlt.
    split.
    { rewrite lookup_app_r by (rewrite length_insert; lia).
      rewrite length_insert, Nat.sub_diag. reflexivity. }
    cbn. repeat split; try assumption; try reflexivity.
    unfold nextSpanID_value. cbn.
    rewrite lookup_app_l by (rewrite length_insert; lia).
    rewrite list_lookup_insert_eq by lia. cbn. now rewrite Hnext.
Qed.

Lemma makeContextVars_span_allocation_witness :
  (exists w' cv,
     makeContextVars (ClientChannelRef 0) "svc" "m" 0 "" ∅ false None sample_world
     = Returned (Some 1%nat, None) w' /\
     w_store w' !! 1%nat = Some cv /\ SpanID cv = 1 /\ SpanParentID cv = 0) /\
  (exists w' cv,
     makeContextVars (ClientChannelRef 0) "svc" "m" 0 "" ∅ true
       (Some (ctx_WithValue (ctx_base 0) 0)) sample_world
     = Returned (Some 1%nat, None) w' /\
     w_store w' !! 1%nat = Some cv /\ SpanID cv = 2 /\ SpanParentID cv = 1 /\
     nextSpanID_value w' cv = Some 3).
Proof.
  destruct makeContextVars_span_allocation as [Hroot Hchild]. split.
  - destruct (Hroot (ClientChannelRef 0) "svc"%string "m"%string 0 ""%string ∅
                false None sample_world [x00] (or_introl eq_refl) eq_refl)
      as (w' & cv & Hrun & Hstore & _ & Hspan & Hpar & _).
    exists w', cv. split; [exact Hrun |]. rewrite Hstore.
    split; [reflexivity |]. split; [exact Hspan | exact Hpar].
  - destruct (Hchild (ClientChannelRef 0) "svc"%string "m"%string 0 ""%string ∅
                (ctx_WithValue (ctx_base 0) 0) sample_world 0%nat
                (mkContextVars (ClientChannelRef 0) "svc" "m" 0 "" ∅ [x2a] 0 1 0 2
                   (Some 0%nat))
                2 eq_refl eq_refl eq_refl)
      as (w' & cv & Hrun & Hstore & _ & Hpar & Hspan & _ & Hnext & _).
    exists w', cv. repeat split; assumption.
Defined.

(** ** Fire-and-forget calls *)

(** C10. [CallMethodWithoutReturn], on a client and on a server channel,
    builds its call variables as a root call whatever the context carries:
    with [traceID] the id generated, it goes on to [callMethodWithoutReturn]
    with call variables that hold [traceID], [SpanID = 1] and
    [SpanParentID = 0], stored behind everything the store held before, the
    call variables of the context among it. *)
Theorem CallMethodWithoutReturn_fresh_trace
    (impl_callMethod : CallContext -> nat -> Message -> string -> bool -> bool ->
                       World -> Result (option error))
    (client : ClientChannel) (server : ServerChannel)
    (context_ : CallContext) (serviceName methodName : string)
    (methodIndex : Z) (fifoKey : string) (extraData : gmap string (list byte))
    (request : Message) (responseType : string) (autoRetryMethodCall : bool)
    (w : World) (traceID : UUID)
    (Hrand : w_rand w (w_rand_pos w) = (traceID, None)) :
  let p := length (w_store w) in
  let root sub :=
    mkContextVars sub serviceName methodName methodIndex fifoKey extraData
      traceID 0 1 0 2 (Some p) in
  let w1 sub := set_store (w_store w ++ [root sub]) (snd (GenerateUUID4 w)) in
  ClientChannel_CallMethodWithoutReturn impl_callMethod client context_
    serviceName methodName methodIndex fifoKey extraData request responseType
    autoRetryMethodCall w
  = callMethodWithoutReturn impl_callMethod
      (makeOutgoingMethodInterceptors (cc_policy client)
         (root (ClientChannelRef (cc_id client))))
      context_ p request responseType autoRetryMethodCall
      (w1 (ClientChannelRef (cc_id client))) /\
  ServerChannel_CallMethodWithoutReturn impl_callMethod server context_
    serviceName methodName methodIndex fifoKey extraData request responseType
    autoRetryMethodCall w
  = callMethodWithoutReturn impl_callMethod
      (makeOutgoingMethodInterceptors (sc_policy server)
         (root (ServerChannelRef (sc_id server))))
      context_ p request responseType autoRetryMethodCall
      (w1 (ServerChannelRef (sc_id server))).
Proof.
  cbv zeta.
  unfold ClientChannel_CallMethodWithoutReturn,
    ServerChannel_CallMethodWithoutReturn, CallMethodWithoutReturn_on,
    makeContextVars, GenerateUUID4.
  rewrite Hrand. cbn [w_store set_store snd].
  rewrite !lookup_app_r by lia. rewrite Nat.sub_diag. cbn [lookup list_lookup].
  split; reflexivity.
Qed.

Lemma CallMethodWithoutReturn_fresh_trace_witness :
  exists w',
    ClientChannel_CallMethodWithoutReturn sample_impl_callMethod
      (mkClientChannel 7 (mkChannelPolicy ∅))
      (ctx_WithValue (ctx_base 0) 0) "svc" "m" 0 "" ∅ [] "Reply" false
      sample_world
    = Returned None w' /\
    (SpanID <$> w_store w' !! 1%nat) = Some 1 /\
    (SpanParentID <$> w_store w' !! 1%nat) = Some 0 /\
    (bufferOfNextSpanID <$> w_store w' !! 0%nat) = Some 2.
Proof.
  eexists. split.
  - rewrite (proj1 (CallMethodWithoutReturn_fresh_trace sample_impl_callMethod
                      (mkClientChannel 7 (mkChannelPolicy ∅))
                      (mkServerChannel 8 (mkChannelPolicy ∅))
                      (ctx_WithValue (ctx_base 0) 0) "svc" "m" 0 "" ∅ [] "Reply"
                      false sample_world [x00] eq_refl)).
    reflexivity.
  - repeat split; reflexivity.
Defined.

(** ** Interceptor chains *)

Lemma outgoingMethodHandler_named (final : OutgoingMethodHandler)
    (names : list string) (i_addr : nat) (context_ : CallContext)
    (request : Message) :
  forall k i fuel w,
    (i + k = length names)%nat -> (k <= fuel)%nat ->
    w_cells w !! i_addr = Some i ->
    outgoingMethodHandler fuel final (named_interceptor <$> names)
      (length names) i_addr context_ request w
    = final context_ request
        (add_logs (ev_interceptor <$> drop i names)
           (set_cells (<[i_addr := length names]> (w_cells w)) w)).
Proof.
  induction k as [| k IH]; intros i fuel w Hik Hfuel Hcell.
  - assert (i = length names) by lia. subst i.
    destruct fuel; cbn [outgoingMethodHandler]; rewrite Hcell, Nat.eqb_refl;
      rewrite drop_all, list_insert_id by assumption;
      destruct w; unfold add_logs, set_cells; cbn; now rewrite app_nil_r.
  - destruct fuel as [| fuel]; [lia |].
    cbn [outgoingMethodHandler]. rewrite Hcell.
    destruct (Nat.eqb_spec i (length names)) as [? | _]; [lia |].
    destruct (lookup_lt_is_Some_2 names i ltac:(lia)) as [name Hname].
    rewrite list_lookup_fmap, Hname. cbn [fmap option_fmap option_map].
    unfold named_interceptor at 1.
    rewrite (IH (S i)); [| lia | lia |].
    + f_equal. rewrite (drop_S names name i Hname).
      unfold add_logs, add_log, set_cells. cbn.
      rewrite list_insert_insert_eq, <- app_assoc. reflexivity.
    + cbn. apply list_lookup_insert_eq. now apply lookup_lt_Some in Hcell.
Qed.

Lemma callMethod_named
    (impl_callMethod : CallContext -> nat -> Message -> string -> bool -> bool ->
                       World -> Result (option error))
    (names : list string) (context_ : CallContext) (contextVars_ : nat)
    (request : Message) (responseType : string) (autoRetryMethodCall : bool)
    (w : World) :
  exists w',
    callMethod impl_callMethod (named_interceptor <$> names) context_
      contextVars_ request responseType autoRetryMethodCall w
    = doCallMethod impl_callMethod (bindContextVars context_ contextVars_)
        contextVars_ request responseType autoRetryMethodCall w' /\
    w_log w' = w_log w ++ (ev_interceptor <$> names) /\
    w_store w' = w_store w /\ w_select w' = w_select w /\
    w_ctx_err w' = w_ctx_err w /\ w_rand_pos w' = w_rand_pos w.
Proof.
  unfold callMethod. rewrite length_fmap.
  destruct names as [| name names].
  - exists w. cbn. rewrite app_nil_r. repeat split; reflexivity.
  - change ((length (name :: names) =? 0)%nat) with false. cbv iota.
    eexists. split.
    + rewrite (outgoingMethodHandler_named _ (name :: names) _ _ _
                 (length (name :: names)) 0%nat); [reflexivity | lia | lia |].
      cbn. rewrite lookup_app_r by lia. now rewrite Nat.sub_diag.
    + cbn. repeat split; reflexivity.
Qed.

Lemma interceptorsAt_named (registry : gmap string (list string)) (key : string) :
  interceptorsAt (named_policy registry) key
  = named_interceptors (namesAt registry key).
Proof.
  unfold interceptorsAt, named_policy, namesAt. cbn. rewrite lookup_fmap.
  destruct (registry !! key); reflexivity.
Qed.

Lemma makeOutgoingMethodInterceptors_eq (policy : ChannelPolicy)
    (cv : ContextVars) :
  makeOutgoingMethodInterceptors policy cv
  = interceptorsAt policy "" ++ interceptorsAt policy (ServiceName cv)
    ++ (if MethodIndex cv >=? 0
        then interceptorsAt policy
               (makeMethodInterceptorLocator (ServiceName cv) (MethodIndex cv))
        else []).
Proof.
  unfold makeOutgoingMethodInterceptors.
  destruct (MethodIndex cv >=? 0); cbn [app].
  - now rewrite <- app_assoc.
  - now rewrite app_nil_r.
Qed.



(** ** Cancellation *)

Lemma context_Err_cell (context_ : CallContext) (w : World) :
  context_Err context_ w = w_ctx_err w !! context_cell context_.
Proof. induction context_ as [cell | parent IH v]; cbn; auto. Qed.

Lemma context_done_Err (context_ : CallContext) (reason : error) (w : World) :
  context_Err context_ (context_done context_ reason w)
  = Some (default reason (context_Err context_ w)).
Proof.
  rewrite !context_Err_cell. unfold context_done.
  destruct (w_ctx_err w !! context_cell context_) as [e |] eqn:E; cbn.
  - exact E.
  - apply lookup_insert_eq.
Qed.

(** C8. In [doCallMethod], once the call has been handed to the channel,
    if the context is done before the callback delivers anything, the
    result is a nil response and the error of the context as [Err()]
    reports it on return, unwrapped: the reason the context became done
    for, or the earlier one if it was done already. *)
Theorem doCallMethod_cancellation
    (impl_callMethod : CallContext -> nat -> Message -> string -> bool -> bool ->
                       World -> Result (option error))
    (context_ : CallContext) (contextVars_ : nat) (request : Message)
    (responseType : string) (autoRetryMethodCall : bool)
    (w w1 : World) (reason : error) (rest : list SelectEvent)
    (Hsent : impl_callMethod context_ contextVars_ request responseType
               autoRetryMethodCall true
               (add_log (ev_callMethod contextVars_ true) w)
             = Returned None w1)
    (Hdone : w_select w1 = ContextDone reason :: rest) :
  exists w2 e,
    doCallMethod impl_callMethod context_ contextVars_ request responseType
      autoRetryMethodCall w
    = Returned (None, Some e) w2 /\
    context_Err context_ w2 = Some e /\
    e = default reason (context_Err context_ w1).
Proof.
  unfold doCallMethod. rewrite Hsent, Hdone.
  pose proof (context_done_Err context_ reason (set_select rest w1)) as HErr.
  rewrite HErr. eexists _, _. split; [reflexivity |].
  split; [exact HErr |]. rewrite !context_Err_cell. reflexivity.
Qed.

Lemma doCallMethod_cancellation_witness :
  exists w2,
    doCallMethod sample_impl_callMethod (ctx_WithValue (ctx_base 3) 0) 0 []
      "Reply" false sample_cancel_world
    = Returned (None, Some context_DeadlineExceeded) w2.
Proof.
  destruct (doCallMethod_cancellation sample_impl_callMethod
              (ctx_WithValue (ctx_base 3) 0) 0%nat [] "Reply" false
              sample_cancel_world
              (add_log (ev_callMethod 0 true) sample_cancel_world)
              context_DeadlineExceeded [] eq_refl eq_refl)
    as (w2 & e & Hrun & _ & He).
  exists w2. rewrite Hrun, He. reflexivity.
Defined.

(** ** Big-endian lengths *)

Lemma Z_of_byte_range (b : byte) : 0 <= Z_of_byte b < 256.
Proof.
  unfold Z_of_byte. pose proof (Byte.to_N_bounded b). lia.
Qed.

Lemma Z_of_byte_of_Z (z : Z) : Z_of_byte (byte_of_Z z) = z mod 256.
Proof.
  unfold byte_of_Z, Z_of_byte.
  pose proof (Z.mod_pos_bound z 256 ltac:(lia)) as Hz.
  destruct (Byte.of_N (Z.to_N (z mod 256))) as [b |] eqn:E.
  - apply Byte.to_of_N in E. rewrite E. lia.
  - apply Byte.of_N_None_iff in E. lia.
Qed.

Lemma byte_of_Z_of_byte (b : byte) : byte_of_Z (Z_of_byte b) = b.
Proof.
  unfold byte_of_Z. rewrite Z.mod_small by apply Z_of_byte_range.
  unfold Z_of_byte. rewrite N2Z.id, Byte.of_to_N. reflexivity.
Qed.

Lemma byte_of_Z_mod (z : Z) : byte_of_Z (z mod 256) = byte_of_Z z.
Proof. unfold byte_of_Z. now rewrite Z.mod_mod by lia. Qed.

Lemma testbit_byte_high (b : byte) (n : Z) : 8 <= n -> Z.testbit (Z_of_byte b) n = false.
Proof.
  intros Hn. pose proof (Z_of_byte_range b) as Hb.
  rewrite <- (Z.mod_small (Z_of_byte b) (2 ^ 8)) by (change (2 ^ 8) with 256; lia).
  apply Z.mod_pow2_bits_high. lia.
Qed.

Lemma testbit_uint32_high (v n : Z) : 0 <= v < 2 ^ 32 -> 32 <= n -> Z.testbit v n = false.
Proof.
  intros Hv Hn. rewrite <- (Z.mod_small v (2 ^ 32)) by lia.
  apply Z.mod_pow2_bits_high. lia.
Qed.

Ltac shifted_bit :=
  repeat match goal with
         | |- context [Z.testbit (Z.shiftl ?a ?k) ?n] =>
             rewrite (Z.shiftl_spec a k n) by lia
         | |- context [Z.testbit (Z.shiftr ?a ?k) ?n] =>
             rewrite (Z.shiftr_spec a k n) by lia
         | |- context [Z.testbit (?a mod 2 ^ ?k) ?n] =>
             rewrite (Z.testbit_mod_pow2 a k n) by lia
         | |- context [Z.testbit (Z.lor ?a ?b) ?n] => rewrite (Z.lor_spec a b n)
         end.

Ltac bit_cases n :=
  destruct (Z.ltb_spec n 8); destruct (Z.ltb_spec (n - 8) 8);
  destruct (Z.ltb_spec (n - 16) 8); destruct (Z.ltb_spec (n - 24) 8);
  try lia; cbn [andb orb];
  rewrite ?(Z.testbit_neg_r _ (n - 8)), ?(Z.testbit_neg_r _ (n - 16)),
    ?(Z.testbit_neg_r _ (n - 24)) by lia;
  shifted_bit; cbn [andb orb]; rewrite ?Bool.orb_false_r.

Lemma Uint32_PutUint32 (v : Z) (rest : list byte) :
  0 <= v < 2 ^ 32 -> Uint32 (PutUint32 v ++ rest) = Some v.
Proof.
  intros Hv. cbn [PutUint32 Uint32 app]. f_equal.
  rewrite !Z_of_byte_of_Z. change 256 with (2 ^ 8).
  apply Z.bits_inj'. intros n Hn. shifted_bit. bit_cases n;
    try (f_equal; lia).
  symmetry. apply testbit_uint32_high; lia.
Qed.

Ltac byte_bits :=
  repeat match goal with
         | |- context [Z.testbit (Z_of_byte ?b) ?i] =>
             first [ rewrite (Z.testbit_neg_r (Z_of_byte b) i) by lia
                   | rewrite (testbit_byte_high b i) by lia ]
         end;
  cbn [andb orb]; rewrite ?Bool.orb_false_r, ?Bool.orb_false_l.

Lemma Uint32_bytes (b0 b1 b2 b3 : byte) :
  let v := Z.lor (Z.lor (Z.lor (Z_of_byte b3) (Z.shiftl (Z_of_byte b2) 8))
                        (Z.shiftl (Z_of_byte b1) 16))
                 (Z.shiftl (Z_of_byte b0) 24) in
  (Z.shiftr v 24) mod 2 ^ 8 = Z_of_byte b0 /\
  (Z.shiftr v 16) mod 2 ^ 8 = Z_of_byte b1 /\
  (Z.shiftr v 8) mod 2 ^ 8 = Z_of_byte b2 /\
  v mod 2 ^ 8 = Z_of_byte b3 /\
  0 <= v < 2 ^ 32.
Proof.
  cbv zeta. repeat split.
  1-4: apply Z.bits_inj'; intros n Hn; shifted_bit;
       destruct (Z.ltb_spec n 8); cbn [andb]; byte_bits;
       try reflexivity; try (f_equal; lia).
  - repeat (apply Z.lor_nonneg; split); try apply Z.shiftl_nonneg;
      apply Z_of_byte_range.
  - pose proof (Z_of_byte_range b0). pose proof (Z_of_byte_range b1).
    pose proof (Z_of_byte_range b2). pose proof (Z_of_byte_range b3).
    rewrite !Z.shiftl_mul_pow2 by lia.
    assert (Hlor : forall a b k, 0 <= a < 2 ^ k -> 0 <= b -> 0 <= k ->
                     Z.lor a (b * 2 ^ k) = a + b * 2 ^ k).
    { intros a b k Ha Hb Hk. rewrite <- Z.lxor_lor, <- Z.add_nocarry_lxor.
      - reflexivity.
      - apply Z.bits_inj'. intros n Hn. rewrite Z.land_spec, Z.bits_0.
        destruct (Z.ltb_spec n k).
        + rewrite Z.mul_pow2_bits_low by lia. apply Bool.andb_false_r.
        + rewrite <- (Z.mod_small a (2 ^ k)) by lia.
          rewrite Z.mod_pow2_bits_high by lia. reflexivity.
      - apply Z.bits_inj'. intros n Hn. rewrite Z.land_spec, Z.bits_0.
        destruct (Z.ltb_spec n k).
        + rewrite Z.mul_pow2_bits_low by lia. apply Bool.andb_false_r.
        + rewrite <- (Z.mod_small a (2 ^ k)) by lia.
          rewrite Z.mod_pow2_bits_high by lia. reflexivity. }
    rewrite (Hlor (Z_of_byte b3)) by lia.
    rewrite (Hlor _ (Z_of_byte b1) 16) by lia.
    rewrite (Hlor _ (Z_of_byte b0) 24) by lia. lia.
Qed.

Lemma Uint32_range (b : list byte) (v : Z) : Uint32 b = Some v -> 0 <= v < 2 ^ 32.
Proof.
  destruct b as [| b0 [| b1 [| b2 [| b3 rest]]]]; try discriminate.
  cbn [Uint32]. intros [= <-]. apply Uint32_bytes.
Qed.

Lemma PutUint32_Uint32 (b0 b1 b2 b3 : byte) (rest : list byte) (v : Z) :
  Uint32 (b0 :: b1 :: b2 :: b3 :: rest) = Some v ->
  PutUint32 v = [b0; b1; b2; b3].
Proof.
  cbn [Uint32]. intros [= <-]. unfold PutUint32.
  destruct (Uint32_bytes b0 b1 b2 b3) as (H0 & H1 & H2 & H3 & _).
  cbv zeta in H0, H1, H2, H3. change (2 ^ 8) with 256 in H0, H1, H2, H3.
  rewrite <- (byte_of_Z_mod (Z.shiftr _ 24)), <- (byte_of_Z_mod (Z.shiftr _ 16)),
    <- (byte_of_Z_mod (Z.shiftr _ 8)), <- (byte_of_Z_mod (Z.lor _ _)).
  rewrite H0, H1, H2, H3, !byte_of_Z_of_byte. reflexivity.
Qed.

(** ** Packets written and packets read *)

Lemma length_PutUint32 (v : Z) : length (PutUint32 v) = 4%nat.
Proof. reflexivity. Qed.

Lemma ReserveBuffer_data (n : Z) (bs : ByteStream) :
  bs_data (ReserveBuffer n bs) = bs_data bs.
Proof. unfold ReserveBuffer. now destruct (GetBufferSize bs <? n). Qed.

Lemma ReserveBuffer_size (n : Z) (bs : ByteStream) :
  n <= GetBufferSize (ReserveBuffer n bs).
Proof.
  unfold ReserveBuffer, GetBufferSize.
  destruct (Z.ltb_spec (Z.of_nat (length (bs_buffer bs))) n); cbn.
  - rewrite length_app, length_replicate. lia.
  - lia.
Qed.

(** The four bytes [transport.write] reserves for the header. *)
Lemma WriteDirectly_untouched_header (bs : ByteStream) :
  exists header,
    length header = 4%nat /\
    bs_data (WriteDirectly_untouched packetHeaderSize bs) = bs_data bs ++ header.
Proof.
  unfold WriteDirectly_untouched, CommitBytes. cbn [bs_data].
  rewrite ReserveBuffer_data. eexists. split; [| reflexivity].
  pose proof (ReserveBuffer_size packetHeaderSize bs) as H.
  unfold GetBufferSize, packetHeaderSize in *. rewrite length_take. lia.
Qed.

Lemma Unwrite_appended (data appended : list byte) (bs : ByteStream) :
  bs_data bs = data ++ appended ->
  bs_data (Unwrite (Z.of_nat (length appended)) bs) = data.
Proof.
  intros H. unfold Unwrite. cbn [bs_data]. rewrite H, length_app, Nat2Z.id.
  replace (length data + length appended - length appended)%nat
    with (length data) by lia.
  now rewrite take_app_length.
Qed.

(** C2. A failing [write] leaves the output as it was.  The callback has
    appended [appended] behind the four reserved bytes; if it returns an
    error, [write] returns that error, and if it returns nil but [appended]
    is longer than [MaxPacketPayloadSize], [write] returns
    [PacketPayloadTooLargeError]; either way the data of the output stream
    is what it was before the call, and nothing else of the transport has
    changed. *)
Theorem write_atomic_on_failure (t : transport) (p : TransportPolicy)
    (callback : ByteStream -> ByteStream * option error)
    (bs2 : ByteStream) (r : option error) (appended : list byte)
    (Hopen : isClosed t = false) (Hpolicy : t_policy t = Some p)
    (Hcall : callback (WriteDirectly_untouched packetHeaderSize (outputByteStream t))
             = (bs2, r))
    (Happend : GetData bs2
               = GetData (WriteDirectly_untouched packetHeaderSize
                            (outputByteStream t)) ++ appended)
    (Hfail : r <> None \/ Z.of_nat (length appended) > MaxPacketPayloadSize p) :
  exists t',
    write callback t
    = Done t' (Some (default PacketPayloadTooLargeError r)) /\
    GetData (outputByteStream t') = GetData (outputByteStream t) /\
    inputByteStream t' = inputByteStream t /\
    t_policy t' = t_policy t /\ t_connection t' = t_connection t /\
    openness t' = openness t.
Proof.
  destruct (WriteDirectly_untouched_header (outputByteStream t))
    as (header & Hlen & Hheader).
  unfold GetData in *. rewrite Hheader, <- app_assoc in Happend.
  assert (Hsize : GetDataSize bs2 - GetDataSize (outputByteStream t)
                  = Z.of_nat (length (header ++ appended))).
  { unfold GetDataSize. rewrite Happend, !length_app. lia. }
  unfold write. rewrite Hopen, Hcall.
  destruct r as [e |].
  - eexists. split; [reflexivity |]. cbn -[Unwrite].
    repeat split. rewrite Hsize. now apply Unwrite_appended.
  - destruct Hfail as [Hr | Hbig]; [congruence |].
    destruct (Z.ltb_spec (GetDataSize bs2) (GetDataSize (outputByteStream t)));
      [lia |].
    rewrite Hpolicy. unfold GetData, GetDataSize. rewrite Nat2Z.id.
    rewrite Happend, drop_app_length.
    destruct (Z.gtb_spec (Z.of_nat (length (header ++ appended)) - packetHeaderSize)
                (MaxPacketPayloadSize p)) as [_ | Hsmall].
    + eexists. split; [reflexivity |]. cbn -[Unwrite].
      repeat split; [now apply Unwrite_appended | exact Hpolicy].
    + rewrite length_app in Hsmall. unfold packetHeaderSize in Hsmall. lia.
Qed.

Lemma write_atomic_on_failure_witness :
  exists t',
    write failing_callback sample_transport
    = Done t' (Some (other_error "marshal")) /\
    GetData (outputByteStream t') = [].
Proof.
  assert (Hfail : Some (other_error "marshal") <> None \/
                  Z.of_nat (length [x01; x02; x03])
                  > MaxPacketPayloadSize sample_policy)
    by (left; discriminate).
  destruct (write_atomic_on_failure sample_transport sample_policy
              failing_callback
              (fst (failing_callback
                      (WriteDirectly_untouched packetHeaderSize
                         (outputByteStream sample_transport))))
              (Some (other_error "marshal")) [x01; x02; x03]
              eq_refl eq_refl eq_refl eq_refl Hfail)
    as (t' & Hrun & Hdata & _).
  exists t'. split; [exact Hrun | exact Hdata].
Defined.

Lemma length_frame (payload : list byte) :
  length (frame payload) = (4 + length payload)%nat.
Proof. unfold frame. now rewrite length_app, length_PutUint32. Qed.

Lemma Uint32_frame (payload rest : list byte) :
  Z.of_nat (length payload) < 2 ^ 32 ->
  Uint32 (take (Z.to_nat packetHeaderSize) (frame payload ++ rest))
  = Some (Z.of_nat (length payload)).
Proof.
  intros H. unfold frame. rewrite <- app_assoc.
  change (Z.to_nat packetHeaderSize) with (length (PutUint32 (Z.of_nat (length payload)))).
  rewrite take_app_length.
  rewrite <- (app_nil_r (PutUint32 _)). apply Uint32_PutUint32. lia.
Qed.

(** [doPeek] on a transport whose input already holds a whole packet at the
    front returns the packet at once: no deadline is set, nothing is read,
    the transport stays as it is. *)
Lemma doPeek_buffered (makeDeadline : Context -> Duration -> Time * option error)
    (context_ : Context) (timeout : Duration) (t : transport)
    (p : TransportPolicy) (payload rest : list byte) :
  isClosed t = false -> t_policy t = Some p ->
  Z.of_nat (length payload) < 2 ^ 32 ->
  Z.of_nat (length payload) <= MaxPacketPayloadSize p ->
  GetData (inputByteStream t) = frame payload ++ rest ->
  doPeek makeDeadline context_ timeout t = Done t (frame payload, None).
Proof.
  intros Hopen Hpolicy H32 Hmax Hdata.
  assert (Hsize : GetDataSize (inputByteStream t)
                  = 4 + Z.of_nat (length payload) + Z.of_nat (length rest)).
  { unfold GetDataSize. unfold GetData in Hdata.
    rewrite Hdata, length_app, length_frame. lia. }
  assert (Hlt : (GetDataSize (inputByteStream t) <? packetHeaderSize) = false)
    by (apply Z.ltb_ge; unfold packetHeaderSize; lia).
  assert (Hgt : (Z.of_nat (length payload) >? MaxPacketPayloadSize p) = false)
    by (rewrite Z.gtb_ltb; apply Z.ltb_ge; lia).
  assert (Hge : (packetHeaderSize + Z.of_nat (length payload)
                 - GetDataSize (inputByteStream t) >=? 1) = false)
    by (rewrite Z.geb_leb; apply Z.leb_gt; unfold packetHeaderSize; lia).
  unfold doPeek, doPeek_packet.
  rewrite Hopen, !Hlt, Hdata, Uint32_frame, Hpolicy, Hgt, Hge by assumption.
  do 2 f_equal.
  replace (Z.to_nat (packetHeaderSize + Z.of_nat (length payload)))
    with (length (frame payload))
    by (rewrite length_frame; unfold packetHeaderSize; lia).
  apply take_app_length.
Qed.

(** C1. For a payload no longer than [MaxPacketPayloadSize], [write] with a
    callback that writes the payload succeeds and appends to the output
    exactly the payload length in four big-endian bytes and then the
    payload; and [peek] on a transport whose input holds those bytes at the
    front returns that payload. *)
Theorem packet_framing_round_trip (t : transport) (p : TransportPolicy)
    (payload : list byte)
    (Hopen : isClosed t = false) (Hpolicy : t_policy t = Some p)
    (Hint32 : is_int32 (MaxPacketPayloadSize p))
    (Hsize : Z.of_nat (length payload) <= MaxPacketPayloadSize p) :
  (exists t',
      write (fun bs => (ByteStream_Write payload bs, None)) t = Done t' None /\
      GetData (outputByteStream t')
      = GetData (outputByteStream t)
        ++ PutUint32 (Z.of_nat (length payload)) ++ payload /\
      inputByteStream t' = inputByteStream t /\
      t_policy t' = t_policy t /\ t_connection t' = t_connection t /\
      openness t' = openness t) /\
  (forall makeDeadline context_ timeout t2 p2 rest,
      isClosed t2 = false -> t_policy t2 = Some p2 ->
      Z.of_nat (length payload) <= MaxPacketPayloadSize p2 ->
      GetData (inputByteStream t2)
      = (PutUint32 (Z.of_nat (length payload)) ++ payload) ++ rest ->
      peek makeDeadline context_ timeout t2 = Done t2 (payload, None)).
Proof.
  assert (H32 : Z.of_nat (length payload) < 2 ^ 32)
    by (unfold is_int32 in Hint32; lia).
  split.
  - destruct (WriteDirectly_untouched_header (outputByteStream t))
      as (header & Hlen & Hheader).
    unfold write. rewrite Hopen, Hpolicy.
    set (bs1 := WriteDirectly_untouched packetHeaderSize (outputByteStream t)) in *.
    assert (Hdata2 : GetData (ByteStream_Write payload bs1)
                     = bs_data (outputByteStream t) ++ header ++ payload).
    { unfold ByteStream_Write, CommitBytes, GetData. cbn [bs_data].
      now rewrite ReserveBuffer_data, Hheader, <- app_assoc. }
    assert (Hlen2 : GetDataSize (ByteStream_Write payload bs1)
                    = GetDataSize (outputByteStream t)
                      + 4 + Z.of_nat (length payload)).
    { unfold GetDataSize. fold (GetData (ByteStream_Write payload bs1)).
      rewrite Hdata2, !length_app, Hlen. lia. }
    assert (Hpacket : drop (Z.to_nat (GetDataSize (outputByteStream t)))
                        (GetData (ByteStream_Write payload bs1))
                      = header ++ payload).
    { unfold GetDataSize. now rewrite Nat2Z.id, Hdata2, drop_app_length. }
    rewrite Hpacket, length_app, Hlen.
    assert (Hlt : (GetDataSize (ByteStream_Write payload bs1)
                   <? GetDataSize (outputByteStream t)) = false)
      by (apply Z.ltb_ge; lia).
    assert (Hgt : (Z.of_nat (4 + length payload) - packetHeaderSize
                   >? MaxPacketPayloadSize p) = false)
      by (rewrite Z.gtb_ltb; apply Z.ltb_ge; unfold packetHeaderSize; lia).
    assert (Hlt4 : (Z.of_nat (4 + length payload) <? 4) = false)
      by (apply Z.ltb_ge; lia).
    rewrite Hlt, Hgt, Hlt4.
    eexists. split; [reflexivity |].
    cbn [outputByteStream inputByteStream t_policy t_connection openness
           set_outputByteStream].
    repeat split; [| exact Hpolicy].
    unfold store_at, GetData, GetDataSize. cbn [bs_data].
    fold (GetData (ByteStream_Write payload bs1)). rewrite Hdata2, Nat2Z.id.
    rewrite take_app_length.
    replace (length (PutUint32 (uint32 (Z.of_nat (4 + length payload)
                                        - packetHeaderSize))))
      with (length header) by (now rewrite Hlen).
    rewrite drop_app_add, drop_app_length.
    unfold uint32, packetHeaderSize. rewrite Z.mod_small by lia.
    do 3 f_equal. lia.
  - intros makeDeadline context_ timeout t2 p2 rest Hopen2 Hpolicy2 Hsize2 Hdata.
    unfold peek.
    rewrite (doPeek_buffered makeDeadline context_ timeout t2 p2 payload rest)
      by assumption.
    rewrite length_frame. unfold packetHeaderSize.
    destruct (Z.ltb_spec (Z.of_nat (4 + length payload)) 4); [lia |].
    unfold frame.
    change (Z.to_nat 4) with (length (PutUint32 (Z.of_nat (length payload)))).
    now rewrite drop_app_length.
Qed.

Lemma packet_framing_round_trip_witness :
  (exists t',
     write (fun bs => (ByteStream_Write sample_payload bs, None)) sample_transport
     = Done t' None /\
     GetData (outputByteStream t') = [x00; x00; x00; x03] ++ sample_payload) /\
  peek sample_makeDeadline (mkContext None None None) 0 sample_receiver
  = Done sample_receiver (sample_payload, None).
Proof.
  assert (Hint32 : is_int32 (MaxPacketPayloadSize sample_policy))
    by (vm_compute; split; [discriminate | reflexivity]).
  assert (Hsize : Z.of_nat (length sample_payload)
                  <= MaxPacketPayloadSize sample_policy)
    by (vm_compute; discriminate).
  destruct (packet_framing_round_trip sample_transport sample_policy
              sample_payload eq_refl eq_refl Hint32 Hsize)
    as [(t' & Hwrite & Hdata & _) Hpeek].
  split.
  - exists t'. split; [exact Hwrite | exact Hdata].
  - apply (Hpeek sample_makeDeadline (mkContext None None None) 0
             sample_receiver sample_policy [x00; x00]);
      [reflexivity | reflexivity | exact Hsize | reflexivity].
Defined.

(** ** Batches *)

(** The read loops never hit their bound. *)
Lemma readLoop_not_exhausted (fuel : nat) :
  forall target c bs,
    (0 < fuel)%nat -> target - GetDataSize bs <= Z.of_nat fuel ->
    readLoop fuel target c bs <> ReadExhausted.
Proof.
  induction fuel as [| fuel IH]; intros target c bs Hpos Hfuel; [lia |].
  cbn [readLoop]. destruct (conn_Read (GetBuffer bs) c) as [[chunk e] c'].
  destruct (Nat.eqb_spec (length chunk) 0) as [_ | Hchunk]; [discriminate |].
  destruct (Z.geb_spec (GetDataSize (CommitBytes chunk bs)) target) as [_ | Hlt];
    [discriminate |].
  assert (Hgrow : GetDataSize (CommitBytes chunk bs)
                  = GetDataSize bs + Z.of_nat (length chunk)).
  { unfold GetDataSize, CommitBytes. cbn. rewrite length_app. lia. }
  apply IH; lia.
Qed.

(** A read loop that breaks has appended to the data and reached its
    target. *)
Lemma readLoop_break (fuel : nat) :
  forall target c bs c' bs',
    readLoop fuel target c bs = ReadBreak c' bs' ->
    (exists more, bs_data bs' = bs_data bs ++ more) /\
    target <= GetDataSize bs'.
Proof.
  induction fuel as [| fuel IH]; intros target c bs c' bs'; [discriminate |].
  cbn [readLoop]. destruct (conn_Read (GetBuffer bs) c) as [[chunk e] c1].
  destruct (length chunk =? 0)%nat; [discriminate |].
  destruct (Z.geb_spec (GetDataSize (CommitBytes chunk bs)) target) as [Hge | Hlt].
  - intros [= <- <-].
    assert (Hdata : bs_data (if GetBufferSize (CommitBytes chunk bs) =? 0
                             then ReserveBuffer 1 (CommitBytes chunk bs)
                             else CommitBytes chunk bs)
                    = bs_data bs ++ chunk).
    { destruct (GetBufferSize (CommitBytes chunk bs) =? 0);
        rewrite ?ReserveBuffer_data; reflexivity. }
    split; [eauto |]. unfold GetDataSize in *. rewrite Hdata. exact Hge.
  - intros H. apply IH in H. destruct H as [[more Hmore] Htarget].
    split; [| exact Htarget].
    exists (chunk ++ more). rewrite Hmore. cbn. now rewrite <- app_assoc.
Qed.

Lemma Uint32_take (data : list byte) (n : nat) :
  (4 <= n)%nat -> Uint32 (take n data) = Uint32 data.
Proof.
  intros Hn. do 4 (destruct n as [| n]; [lia |]).
  destruct data as [| b0 [| b1 [| b2 [| b3 rest]]]]; reflexivity.
Qed.

(** A well-formed packet at the front of [data] is the frame of its
    payload. *)
Lemma packet_is_frame (data : list byte) (n : Z) :
  Uint32 data = Some n -> 4 + n <= Z.of_nat (length data) ->
  let packet := take (Z.to_nat (packetHeaderSize + n)) data in
  packet = frame (drop (Z.to_nat packetHeaderSize) packet) /\
  Z.of_nat (length (drop (Z.to_nat packetHeaderSize) packet)) = n /\
  Z.of_nat (length packet) = 4 + n.
Proof.
  intros Hu Hlen. pose proof (Uint32_range _ _ Hu) as Hn.
  destruct data as [| b0 [| b1 [| b2 [| b3 rest]]]]; try discriminate.
  pose proof (PutUint32_Uint32 _ _ _ _ _ _ Hu) as Hput.
  cbv zeta. unfold packetHeaderSize.
  replace (Z.to_nat (4 + n)) with (4 + Z.to_nat n)%nat by lia.
  change (Z.to_nat 4) with 4%nat.
  cbn [take drop Nat.add]. cbn [length] in Hlen.
  assert (Hrest : length (take (Z.to_nat n) rest) = Z.to_nat n)
    by (rewrite length_take; lia).
  unfold frame. rewrite !drop_0, Hrest, Z2Nat.id, Hput by lia.
  split; [reflexivity |]. cbn [length]. split; lia.
Qed.

Section Batches.

Variable makeDeadline : Context -> Duration -> Time * option error.

Lemma setReadDeadline_early (context_ : Context) (timeout : Duration)
    (t t' : transport) (early : outcome (list byte * option error))
    (packet : list byte) :
  setReadDeadline makeDeadline context_ timeout t = inl early ->
  early <> Done t' (packet, None).
Proof.
  unfold setReadDeadline.
  destruct (makeDeadline context_ timeout) as [deadline [e |]].
  - intros [= <-]. discriminate.
  - destruct (t_connection t) as [c |].
    + destruct (conn_SetReadDeadline deadline c) as [[e |] c'].
      * intros [= <-]. discriminate.
      * discriminate.
    + intros [= <-]. discriminate.
Qed.

Lemma doPeek_packet_ok (context_ : Context) (timeout : Duration)
    (deadlineIsSet : bool) (t t' : transport) (packet : list byte) :
  doPeek_packet makeDeadline context_ timeout deadlineIsSet t
  = Done t' (packet, None) ->
  packet <> [] ->
  packet_peeked t' packet.
Proof.
  unfold doPeek_packet, packet_peeked.
  destruct (Z.ltb_spec (GetDataSize (inputByteStream t)) packetHeaderSize)
    as [| Hheader]; [discriminate |].
  rewrite Uint32_take by (unfold packetHeaderSize; lia).
  destruct (Uint32 (GetData (inputByteStream t))) as [n |] eqn:Hu;
    [| discriminate].
  destruct (t_policy t) as [p |] eqn:Hp; [| discriminate].
  destruct (Z.gtb_spec n (MaxPacketPayloadSize p)) as [| Hmax]; [discriminate |].
  destruct (Z.geb_spec (packetHeaderSize + n - GetDataSize (inputByteStream t)) 1)
    as [Hmore | Hwhole].
  - intros Hrun Hpacket.
    destruct (if deadlineIsSet
              then match t_connection t with
                   | Some c => inr c
                   | None => inl Panic
                   end
              else setReadDeadline makeDeadline context_ timeout t)
      as [early | c] eqn:Harmed.
    + exfalso. destruct deadlineIsSet.
      * destruct (t_connection t); [discriminate |].
        injection Harmed as <-. discriminate.
      * now apply (setReadDeadline_early _ _ _ t' _ packet) in Harmed.
    + destruct (readLoop _ _ c _) as [c' bs' | c' bs' e |] eqn:Hloop;
        [| | discriminate].
      * injection Hrun as <- <-.
        apply readLoop_break in Hloop. destruct Hloop as [[more Hdata] Htarget].
        rewrite ReserveBuffer_data in Hdata.
        exists p, n. cbn [t_policy inputByteStream set_input].
        repeat split; try assumption.
        unfold GetData in *. rewrite Hdata.
        rewrite <- Uint32_take with (n := 4%nat) by lia.
        rewrite take_app_le
          by (unfold GetDataSize, packetHeaderSize in Hheader; lia).
        now rewrite Uint32_take by lia.
      * injection Hrun as _ Hnil _. congruence.
  - intros [= <- <-] _. exists p, n. repeat split; try assumption. lia.
Qed.

Lemma doPeek_ok (context_ : Context) (timeout : Duration)
    (t t' : transport) (packet : list byte) :
  doPeek makeDeadline context_ timeout t = Done t' (packet, None) ->
  packet <> [] ->
  packet_peeked t' packet.
Proof.
  unfold doPeek. destruct (isClosed t); [discriminate |].
  destruct (GetDataSize (inputByteStream t) <? packetHeaderSize).
  - destruct (setReadDeadline makeDeadline context_ timeout t)
      as [early | c] eqn:Harmed.
    + intros ->. now apply (setReadDeadline_early _ _ _ t' _ packet) in Harmed.
    + destruct (readLoop _ _ c _) as [c' bs' | c' bs' e |]; [| | discriminate].
      * apply doPeek_packet_ok.
      * intros [= _ Hnil _]. congruence.
  - apply doPeek_packet_ok.
Qed.

(** [doPeek] never stops at the bound of its read loops. *)
Lemma doPeek_not_Exhausted (context_ : Context) (timeout : Duration)
    (t : transport) :
  doPeek makeDeadline context_ timeout t <> Exhausted.
Proof.
  assert (Hpacket : forall flag t0,
             doPeek_packet makeDeadline context_ timeout flag t0 <> Exhausted).
  { intros flag t0. unfold doPeek_packet.
    destruct (GetDataSize (inputByteStream t0) <? packetHeaderSize);
      [discriminate |].
    destruct (Uint32 _) as [n |]; [| discriminate].
    destruct (t_policy t0) as [p |]; [| discriminate].
    destruct (n >? MaxPacketPayloadSize p); [discriminate |].
    destruct (Z.geb_spec (packetHeaderSize + n - GetDataSize (inputByteStream t0)) 1)
      as [Hmore | _]; [| discriminate].
    destruct (if flag then _ else _) as [early | c] eqn:Harmed.
    - destruct flag.
      + destruct (t_connection t0); [discriminate |].
        injection Harmed as <-. discriminate.
      + unfold setReadDeadline in Harmed.
        destruct (makeDeadline context_ timeout) as [deadline [e |]].
        * injection Harmed as <-. discriminate.
        * destruct (t_connection t0) as [c |];
            [| injection Harmed as <-; discriminate].
          destruct (conn_SetReadDeadline deadline c) as [[e |] c'];
            [injection Harmed as <- |]; discriminate.
    - destruct (readLoop _ _ c _) eqn:Hloop; try discriminate.
      exfalso. revert Hloop. apply readLoop_not_exhausted.
      + lia.
      + unfold GetDataSize. rewrite ReserveBuffer_data. lia. }
  unfold doPeek. destruct (isClosed t); [discriminate |].
  destruct (Z.ltb_spec (GetDataSize (inputByteStream t)) packetHeaderSize)
    as [Hshort | _]; [| apply Hpacket].
  unfold setReadDeadline.
  destruct (makeDeadline context_ timeout) as [deadline [e |]]; [discriminate |].
  destruct (t_connection t) as [c |]; [| discriminate].
  destruct (conn_SetReadDeadline deadline c) as [[e |] c']; [discriminate |].
  destruct (readLoop _ _ c' _) eqn:Hloop; try discriminate; [apply Hpacket |].
  exfalso. revert Hloop. apply readLoop_not_exhausted; lia.
Qed.

End Batches.

Lemma tryPeek_at (t : transport) (p : TransportPolicy) (dataOffset : Z) :
  t_policy t = Some p ->
  0 <= dataOffset <= GetDataSize (inputByteStream t) ->
  let d := drop (Z.to_nat dataOffset) (GetData (inputByteStream t)) in
  (exists packet, tryPeek dataOffset t = Some (packet, false) /\
                  no_complete_packet (MaxPacketPayloadSize p) d) \/
  (exists n, tryPeek dataOffset t
             = Some (take (Z.to_nat (packetHeaderSize + n)) d, true) /\
             Uint32 d = Some n /\ n <= MaxPacketPayloadSize p /\
             packetHeaderSize + n <= Z.of_nat (length d)).
Proof.
  intros Hp Hoff. cbv zeta. unfold tryPeek. rewrite Hp.
  set (d := drop (Z.to_nat dataOffset) (GetData (inputByteStream t))).
  assert (Hd : GetDataSize (inputByteStream t) - dataOffset = Z.of_nat (length d)).
  { unfold d, GetDataSize, GetData in *. rewrite length_drop. lia. }
  rewrite Hd.
  destruct (Z.ltb_spec (Z.of_nat (length d)) packetHeaderSize) as [Hshort | Hlong].
  - left. eexists. split; [reflexivity |]. now left.
  - rewrite Uint32_take by (unfold packetHeaderSize; lia).
    destruct (Uint32 d) as [n |] eqn:Hu.
    + destruct (Z.gtb_spec n (MaxPacketPayloadSize p)) as [Hbig | Hsmall].
      * left. eexists. split; [reflexivity |]. right. exists n. split; [easy |].
        left. lia.
      * destruct (Z.ltb_spec (Z.of_nat (length d)) (packetHeaderSize + n))
          as [Hpart | Hwhole].
        -- left. eexists. split; [reflexivity |]. right. exists n. now split; [| right].
        -- right. exists n. repeat split; try assumption; reflexivity.
    + exfalso. unfold packetHeaderSize in Hlong.
      destruct d as [| b0 [| b1 [| b2 [| b3 rest]]]]; cbn in *; try lia.
      discriminate.
Qed.

Lemma peekInBatch_loop_spec (fuel : nat) (t : transport) (p : TransportPolicy) :
  t_policy t = Some p ->
  forall acc dataOffset t' payloads e,
    0 <= dataOffset <= GetDataSize (inputByteStream t) ->
    peekInBatch_loop fuel t acc dataOffset = Done t' (payloads, e) ->
    t' = t /\ e = None /\
    exists rest tail,
      payloads = acc ++ rest /\
      drop (Z.to_nat dataOffset) (GetData (inputByteStream t))
      = concat (frame <$> rest) ++ tail /\
      Forall (fun payload =>
                Z.of_nat (length payload) <= MaxPacketPayloadSize p) rest /\
      no_complete_packet (MaxPacketPayloadSize p) tail.
Proof.
  intros Hp. induction fuel as [| fuel IH];
    intros acc dataOffset t' payloads e Hoff; [discriminate |].
  cbn [peekInBatch_loop].
  destruct (tryPeek_at t p dataOffset Hp Hoff)
    as [(packet & -> & Hnone) | (n & -> & Hu & Hmax & Hwhole)].
  - intros [= <- <- <-]. repeat split.
    exists [], (drop (Z.to_nat dataOffset) (GetData (inputByteStream t))).
    rewrite app_nil_r. repeat split; [constructor | exact Hnone].
  - set (d := drop (Z.to_nat dataOffset) (GetData (inputByteStream t))) in *.
    destruct (packet_is_frame d n Hu ltac:(unfold packetHeaderSize in *; lia))
      as (Hframe & Hlen & Hsize).
    set (packet := take (Z.to_nat (packetHeaderSize + n)) d) in *.
    set (payload := drop (Z.to_nat packetHeaderSize) packet) in *.
    assert (Hd : Z.of_nat (length d)
                 = GetDataSize (inputByteStream t) - dataOffset).
    { unfold d, GetDataSize, GetData in *. rewrite length_drop. lia. }
    intros Hrun. apply IH in Hrun; [| unfold packetHeaderSize in *; lia].
    destruct Hrun as (-> & -> & rest & tail & -> & Hdrop & Hall & Hnone).
    repeat split. exists (payload :: rest), tail.
    rewrite <- app_assoc. repeat split.
    + cbn [fmap list_fmap concat]. rewrite <- app_assoc, <- Hdrop, <- Hframe.
      replace (Z.to_nat (dataOffset + Z.of_nat (length packet)))
        with (Z.to_nat dataOffset + length packet)%nat by lia.
      rewrite <- drop_drop. fold d.
      replace (length packet) with (Z.to_nat (packetHeaderSize + n))
        by (unfold packetHeaderSize; lia).
      unfold packet. now rewrite take_drop.
    + constructor; [lia | exact Hall].
    + exact Hnone.
Qed.

Lemma peekInBatch_loop_not_Exhausted (fuel : nat) (t : transport) :
  forall acc dataOffset,
    0 <= dataOffset <= GetDataSize (inputByteStream t) ->
    GetDataSize (inputByteStream t) - dataOffset < Z.of_nat fuel ->
    peekInBatch_loop fuel t acc dataOffset <> Exhausted.
Proof.
  induction fuel as [| fuel IH]; intros acc dataOffset Hoff Hfuel; [lia |].
  cbn [peekInBatch_loop].
  destruct (t_policy t) as [p |] eqn:Hp.
  - destruct (tryPeek_at t p dataOffset Hp Hoff)
      as [(packet & -> & _) | (n & -> & Hu & _ & Hwhole)]; [discriminate |].
    set (d := drop (Z.to_nat dataOffset) (GetData (inputByteStream t))) in *.
    destruct (packet_is_frame d n Hu ltac:(unfold packetHeaderSize in *; lia))
      as (_ & _ & Hsize).
    assert (Hd : Z.of_nat (length d)
                 = GetDataSize (inputByteStream t) - dataOffset).
    { unfold d, GetDataSize, GetData in *. rewrite length_drop. lia. }
    pose proof (Uint32_range _ _ Hu).
    apply IH; unfold packetHeaderSize in *; lia.
  - unfold tryPeek. rewrite Hp.
    destruct (_ <? _); [discriminate |].
    destruct (Uint32 _); discriminate.
Qed.

(** [peekInBatch] never stops at a bound of the model. *)
Lemma peekInBatch_not_Exhausted
    (makeDeadline : Context -> Duration -> Time * option error)
    (context_ : Context) (timeout : Duration) (t : transport) :
  peekInBatch makeDeadline context_ timeout t <> Exhausted.
Proof.
  unfold peekInBatch.
  destruct (doPeek makeDeadline context_ timeout t)
    as [t1 [packet [e |]] | |] eqn:Hpeek; try discriminate.
  - destruct (Z.ltb_spec (Z.of_nat (length packet)) packetHeaderSize)
      as [| Hlong]; [discriminate |].
    assert (Hne : packet <> [])
      by (intros ->; unfold packetHeaderSize in Hlong; cbn in Hlong; lia).
    destruct (doPeek_ok _ _ _ _ _ _ Hpeek Hne) as (p & n & Hp & Hu & Hmax & Hwhole & ->).
    pose proof (Uint32_range _ _ Hu).
    assert (Hlen : Z.of_nat (length (take (Z.to_nat (packetHeaderSize + n))
                                       (GetData (inputByteStream t1))))
                   = packetHeaderSize + n).
    { unfold GetDataSize, GetData, packetHeaderSize in *.
      rewrite length_take. lia. }
    apply peekInBatch_loop_not_Exhausted; rewrite Hlen;
      unfold GetDataSize, GetData, packetHeaderSize in *; lia.
  - now apply doPeek_not_Exhausted in Hpeek.
Qed.

(** C5. When [peekInBatch] succeeds, its first payload is the payload of
    the packet [doPeek] returned, and the further payloads are, in buffer
    order, those of every complete packet that follows it in the input: the
    input is the frames of all the payloads returned, one after the other,
    and then a rest that starts no complete packet.  The transport is the
    one [doPeek] left, its connection included: nothing is read for the
    further payloads. *)
Theorem peekInBatch_semantics
    (makeDeadline : Context -> Duration -> Time * option error)
    (context_ : Context) (timeout : Duration) (t t' : transport)
    (payloads : list (list byte))
    (Hok : peekInBatch makeDeadline context_ timeout t = Done t' (payloads, None)) :
  exists first rest tail p,
    doPeek makeDeadline context_ timeout t = Done t' (frame first, None) /\
    t_policy t' = Some p /\
    payloads = first :: rest /\
    GetData (inputByteStream t')
    = frame first ++ concat (frame <$> rest) ++ tail /\
    Forall (fun payload => Z.of_nat (length payload) <= MaxPacketPayloadSize p)
      (first :: rest) /\
    no_complete_packet (MaxPacketPayloadSize p) tail.
Proof.
  unfold peekInBatch in Hok.
  destruct (doPeek makeDeadline context_ timeout t)
    as [t1 [packet [e |]] | |] eqn:Hpeek; try discriminate.
  destruct (Z.ltb_spec (Z.of_nat (length packet)) packetHeaderSize)
    as [| Hlong]; [discriminate |].
  assert (Hne : packet <> [])
    by (intros ->; unfold packetHeaderSize in Hlong; cbn in Hlong; lia).
  destruct (doPeek_ok _ _ _ _ _ _ Hpeek Hne)
    as (p & n & Hp & Hu & Hmax & Hwhole & Hpacket).
  destruct (packet_is_frame _ n Hu
              ltac:(unfold GetDataSize, GetData, packetHeaderSize in *; lia))
    as (Hframe & Hlen & Hsize).
  rewrite <- Hpacket in Hframe, Hlen, Hsize.
  apply (peekInBatch_loop_spec _ t1 p Hp) in Hok;
    [| unfold packetHeaderSize in *; lia].
  destruct Hok as (-> & _ & rest & tail & -> & Hdrop & Hall & Hnone).
  exists (drop (Z.to_nat packetHeaderSize) packet), rest, tail, p.
  rewrite <- Hframe. repeat split; try assumption.
  - rewrite <- Hdrop, Nat2Z.id. rewrite Hpacket at 1.
    replace (length packet) with (Z.to_nat (packetHeaderSize + n))
      by (unfold packetHeaderSize; lia).
    now rewrite take_drop.
  - constructor; [lia | exact Hall].
Qed.

Lemma peekInBatch_semantics_witness :
  exists t' tail,
    peekInBatch sample_makeDeadline (mkContext None None None) 5
      sample_batch_transport
    = Done t' ([[x01; x02; x03]; [x09]], None) /\
    doPeek sample_makeDeadline (mkContext None None None) 5
      sample_batch_transport
    = Done t' (frame [x01; x02; x03], None) /\
    GetData (inputByteStream t')
    = frame [x01; x02; x03] ++ concat (frame <$> [[x09]]) ++ tail.
Proof.
  eexists. 
  assert (Hok : peekInBatch sample_makeDeadline (mkContext None None None) 5
                  sample_batch_transport
                = Done _ ([[x01; x02; x03]; [x09]], None)) by reflexivity.
  destruct (peekInBatch_semantics _ _ _ _ _ _ Hok)
    as (first & rest & tail & p & Hpeek & _ & Hpayloads & Hdata & _).
  injection Hpayloads as <- <-.
  exists tail. split; [exact Hok |]. split; [exact Hpeek | exact Hdata].
Defined.

(** ** The bound of the WebSocket loop *)

(** With frames of at least one byte the chunked writes of [flush] end
    before the bound [flush] gives them. *)
Lemma flush_websocket_ends (maxWebSocketFramePayloadSize : Z) (fuel : nat) :
  1 <= maxWebSocketFramePayloadSize ->
  forall data i nn c,
    (0 < fuel)%nat -> Z.of_nat (length data) - i < Z.of_nat fuel ->
    flush_websocket maxWebSocketFramePayloadSize fuel data i nn c <> None.
Proof.
  intros Hmax. induction fuel as [| fuel IH]; intros data i nn c Hpos Hfuel;
    [lia |].
  cbn [flush_websocket].
  destruct (Z.geb_spec (i + maxWebSocketFramePayloadSize) (Z.of_nat (length data)))
    as [_ | Hmore].
  - destruct (conn_Write _ c) as [[n e] c']. discriminate.
  - destruct (conn_Write _ c) as [[n e] c'].
    destruct e; [discriminate |]. apply IH; lia.
Qed.

(** * Further properties of the transport *)

(** ** What a peek leaves in place *)

Lemma readLoop_grows (fuel : nat) :
  forall target c bs,
    match readLoop fuel target c bs with
    | ReadBreak _ bs' | ReadReturn _ bs' _ =>
        exists more, bs_data bs' = bs_data bs ++ more
    | ReadExhausted => True
    end.
Proof.
  induction fuel as [| fuel IH]; intros target c bs; [exact I |].
  cbn [readLoop]. destruct (conn_Read (GetBuffer bs) c) as [[chunk e] c1].
  destruct (length chunk =? 0)%nat.
  - exists []. now rewrite app_nil_r.
  - destruct (GetDataSize (CommitBytes chunk bs) >=? target).
    + exists chunk.
      destruct (GetBufferSize (CommitBytes chunk bs) =? 0);
        rewrite ?ReserveBuffer_data; reflexivity.
    + specialize (IH target c1 (CommitBytes chunk bs)).
      destruct (readLoop fuel target c1 (CommitBytes chunk bs));
        try exact I; destruct IH as [more Hmore]; exists (chunk ++ more);
        rewrite Hmore; cbn; now rewrite <- app_assoc.
Qed.

Lemma peek_keeps_refl (t : transport) : peek_keeps t t.
Proof. repeat split. exists []. now rewrite app_nil_r. Qed.

Lemma peek_keeps_connection (c : Conn) (t : transport) :
  peek_keeps t (set_connection c t).
Proof. repeat split. exists []. cbn. now rewrite app_nil_r. Qed.

Lemma peek_keeps_trans (t1 t2 t3 : transport) :
  peek_keeps t1 t2 -> peek_keeps t2 t3 -> peek_keeps t1 t3.
Proof.
  intros ([m1 H1] & Hp1 & Ho1 & Hn1) ([m2 H2] & Hp2 & Ho2 & Hn2).
  repeat split; try congruence.
  exists (m1 ++ m2). now rewrite H2, H1, <- app_assoc.
Qed.

Section PeekKeeps.

Variable makeDeadline : Context -> Duration -> Time * option error.

Lemma setReadDeadline_keeps (context_ : Context) (timeout : Duration)
    (t t' : transport) (r : list byte * option error) :
  setReadDeadline makeDeadline context_ timeout t = inl (Done t' r) ->
  peek_keeps t t'.
Proof.
  unfold setReadDeadline.
  destruct (makeDeadline context_ timeout) as [deadline [e |]].
  - intros [= <- _]. apply peek_keeps_refl.
  - destruct (t_connection t) as [c |]; [| discriminate].
    destruct (conn_SetReadDeadline deadline c) as [[e |] c']; [| discriminate].
    intros [= <- _]. apply peek_keeps_connection.
Qed.

Lemma readLoop_keeps (fuel : nat) (target : Z) (c : Conn) (bs : ByteStream)
    (t : transport) :
  (exists more, bs_data bs = GetData (inputByteStream t) ++ more) ->
  match readLoop fuel target c bs with
  | ReadBreak c' bs' | ReadReturn c' bs' _ => peek_keeps t (set_input c' bs' t)
  | ReadExhausted => True
  end.
Proof.
  intros [m0 H0]. pose proof (readLoop_grows fuel target c bs) as H.
  destruct (readLoop fuel target c bs); try exact I;
    destruct H as [more Hmore]; repeat split;
    exists (m0 ++ more); cbn; unfold GetData in *;
    now rewrite Hmore, H0, <- app_assoc.
Qed.

Lemma doPeek_packet_keeps (context_ : Context) (timeout : Duration)
    (deadlineIsSet : bool) (t t' : transport) (r : list byte * option error) :
  doPeek_packet makeDeadline context_ timeout deadlineIsSet t = Done t' r ->
  peek_keeps t t'.
Proof.
  unfold doPeek_packet.
  destruct (GetDataSize (inputByteStream t) <? packetHeaderSize); [discriminate |].
  destruct (Uint32 _) as [n |]; [| discriminate].
  destruct (t_policy t) as [p |]; [| discriminate].
  destruct (n >? MaxPacketPayloadSize p).
  { intros [= <- _]. apply peek_keeps_refl. }
  destruct (packetHeaderSize + n - GetDataSize (inputByteStream t) >=? 1).
  2: { intros [= <- _]. apply peek_keeps_refl. }
  destruct (if deadlineIsSet then _ else _) as [early | c] eqn:Harmed.
  - intros ->. destruct deadlineIsSet.
    + destruct (t_connection t); discriminate.
    + now apply setReadDeadline_keeps in Harmed.
  - pose proof (readLoop_keeps
                  (Z.to_nat (packetHeaderSize + n - GetDataSize (inputByteStream t)))
                  (packetHeaderSize + n) c
                  (ReserveBuffer (packetHeaderSize + n
                                  - GetDataSize (inputByteStream t))
                     (inputByteStream t)) t) as Hloop.
    destruct (readLoop _ _ c _); [| | discriminate];
      intros [= <- _]; apply Hloop; exists [];
      rewrite ReserveBuffer_data, app_nil_r; reflexivity.
Qed.

Lemma doPeek_keeps (context_ : Context) (timeout : Duration)
    (t t' : transport) (r : list byte * option error) :
  doPeek makeDeadline context_ timeout t = Done t' r -> peek_keeps t t'.
Proof.
  unfold doPeek. destruct (isClosed t).
  { intros [= <- _]. apply peek_keeps_refl. }
  destruct (GetDataSize (inputByteStream t) <? packetHeaderSize).
  2: { apply doPeek_packet_keeps. }
  destruct (setReadDeadline makeDeadline context_ timeout t)
    as [early | c] eqn:Harmed.
  - intros ->. now apply setReadDeadline_keeps in Harmed.
  - pose proof (readLoop_keeps
                  (Z.to_nat (packetHeaderSize - GetDataSize (inputByteStream t)))
                  packetHeaderSize c (inputByteStream t) t) as Hloop.
    destruct (readLoop _ _ c _) as [c' bs' | c' bs' e |]; [| | discriminate].
    + intros Hrun. apply doPeek_packet_keeps in Hrun.
      eapply peek_keeps_trans; [| exact Hrun].
      apply Hloop. exists []. now rewrite app_nil_r.
    + intros [= <- _]. apply Hloop. exists []. now rewrite app_nil_r.
Qed.

Lemma peekInBatch_loop_same (fuel : nat) (t : transport) :
  forall acc dataOffset t' r,
    peekInBatch_loop fuel t acc dataOffset = Done t' r -> t' = t.
Proof.
  induction fuel as [| fuel IH]; intros acc dataOffset t' r; [discriminate |].
  cbn [peekInBatch_loop].
  destruct (tryPeek dataOffset t) as [[packet [|]] |]; [| | discriminate].
  - apply IH.
  - now intros [= <- _].
Qed.

(** X1. A peek, alone or in batch, never consumes input: however it returns
    (with payloads, with a deadline or connection error after a partial
    read, with [PacketPayloadTooLargeError]), the bytes the input held are
    still at its front, and policy, output and openness are as before. *)
Theorem peek_never_consumes (context_ : Context) (timeout : Duration)
    (t : transport) :
  (forall t' r, peek makeDeadline context_ timeout t = Done t' r ->
                peek_keeps t t') /\
  (forall t' r, peekInBatch makeDeadline context_ timeout t = Done t' r ->
                peek_keeps t t').
Proof.
  split; intros t' r; unfold peek, peekInBatch;
    destruct (doPeek makeDeadline context_ timeout t)
      as [t1 [packet [e |]] | |] eqn:Hpeek; try discriminate;
    apply doPeek_keeps in Hpeek.
  - now intros [= <- _].
  - destruct (_ <? _); [discriminate |]. now intros [= <- _].
  - now intros [= <- _].
  - destruct (_ <? _); [discriminate |].
    intros Hloop. apply peekInBatch_loop_same in Hloop. now subst.
Qed.

End PeekKeeps.

(** ** Peeking again, and skipping what was peeked *)

Lemma packet_peeked_frame (t : transport) (packet : list byte) :
  packet_peeked t packet ->
  let payload := drop (Z.to_nat packetHeaderSize) packet in
  packet = frame payload /\
  GetData (inputByteStream t)
  = frame payload ++ drop (length (frame payload)) (GetData (inputByteStream t)) /\
  exists p, t_policy t = Some p /\
            Z.of_nat (length payload) <= MaxPacketPayloadSize p.
Proof.
  intros (p & n & Hp & Hu & Hmax & Hwhole & Hpacket). cbv zeta.
  destruct (packet_is_frame _ n Hu
              ltac:(unfold GetDataSize, GetData, packetHeaderSize in *; lia))
    as (Hframe & Hlen & Hsize).
  rewrite <- Hpacket in Hframe, Hlen, Hsize.
  split; [exact Hframe |]. split; [| exists p; split; [exact Hp | lia]].
  rewrite <- Hframe. rewrite Hpacket at 1.
  replace (length packet) with (Z.to_nat (packetHeaderSize + n))
    by (unfold packetHeaderSize; lia).
  now rewrite take_drop.
Qed.

Section PeekAgain.

Variable makeDeadline : Context -> Duration -> Time * option error.

Lemma doPeek_of_peeked (context_ : Context) (timeout : Duration)
    (t : transport) (packet : list byte) :
  isClosed t = false -> packet_peeked t packet ->
  doPeek makeDeadline context_ timeout t = Done t (packet, None).
Proof.
  intros Hopen (p & n & Hp & Hu & Hmax & Hwhole & ->).
  pose proof (Uint32_range _ _ Hu) as Hn.
  assert (Hlt : (GetDataSize (inputByteStream t) <? packetHeaderSize) = false)
    by (apply Z.ltb_ge; unfold packetHeaderSize in *; lia).
  assert (Hgt : (n >? MaxPacketPayloadSize p) = false)
    by (rewrite Z.gtb_ltb; apply Z.ltb_ge; lia).
  assert (Hge : (packetHeaderSize + n - GetDataSize (inputByteStream t) >=? 1)
                = false)
    by (rewrite Z.geb_leb; apply Z.leb_gt; lia).
  unfold doPeek, doPeek_packet.
  rewrite Hopen, !Hlt, Uint32_take, Hu, Hp, Hgt, Hge
    by (unfold packetHeaderSize; lia).
  reflexivity.
Qed.

Lemma doPeek_ok_open (context_ : Context) (timeout : Duration)
    (t t' : transport) (packet : list byte) :
  doPeek makeDeadline context_ timeout t = Done t' (packet, None) ->
  isClosed t' = false.
Proof.
  intros Hpeek. pose proof (doPeek_keeps _ _ _ _ _ _ Hpeek) as (_ & _ & _ & Hn).
  unfold isClosed. rewrite Hn. revert Hpeek. unfold doPeek, isClosed.
  destruct (negb (openness t =? 1)); [discriminate | reflexivity].
Qed.

(** What a successful [peek] or [peekInBatch] went through: the packet
    [doPeek] returned, at least a header long. *)
Lemma peek_inv (context_ : Context) (timeout : Duration)
    (t t' : transport) (payload : list byte) :
  peek makeDeadline context_ timeout t = Done t' (payload, None) ->
  exists packet,
    doPeek makeDeadline context_ timeout t = Done t' (packet, None) /\
    packet <> [] /\ payload = drop (Z.to_nat packetHeaderSize) packet.
Proof.
  unfold peek.
  destruct (doPeek makeDeadline context_ timeout t)
    as [t1 [packet [e |]] | |]; try discriminate.
  destruct (Z.ltb_spec (Z.of_nat (length packet)) packetHeaderSize)
    as [| Hlong]; [discriminate |].
  intros [= <- <-]. exists packet. repeat split.
  intros ->. unfold packetHeaderSize in Hlong. cbn in Hlong. lia.
Qed.

(** X2. A second [peek] returns what the first returned and changes nothing:
    the packet stays in the input until it is skipped.  The same holds for
    [peekInBatch]. *)
Theorem peek_again (context_ : Context) (timeout : Duration) (t : transport) :
  (forall t' payload,
      peek makeDeadline context_ timeout t = Done t' (payload, None) ->
      forall context2 timeout2,
        peek makeDeadline context2 timeout2 t' = Done t' (payload, None)) /\
  (forall t' payloads,
      peekInBatch makeDeadline context_ timeout t = Done t' (payloads, None) ->
      forall context2 timeout2,
        peekInBatch makeDeadline context2 timeout2 t' = Done t' (payloads, None)).
Proof.
  split.
  - intros t' payload Hpeek context2 timeout2.
    destruct (peek_inv _ _ _ _ _ Hpeek) as (packet & Hdo & Hne & ->).
    pose proof (doPeek_ok_open _ _ _ _ _ Hdo) as Hopen.
    pose proof (doPeek_ok _ _ _ _ _ _ Hdo Hne) as Hpeeked.
    unfold peek in *. rewrite Hdo in Hpeek.
    rewrite (doPeek_of_peeked context2 timeout2 t' packet Hopen Hpeeked).
    destruct (_ <? _); [discriminate | reflexivity].
  - intros t' payloads Hpeek context2 timeout2. unfold peekInBatch in *.
    destruct (doPeek makeDeadline context_ timeout t)
      as [t1 [packet [e |]] | |] eqn:Hdo; try discriminate.
    destruct (Z.ltb_spec (Z.of_nat (length packet)) packetHeaderSize)
      as [| Hlong]; [discriminate |].
    assert (Hne : packet <> [])
      by (intros ->; unfold packetHeaderSize in Hlong; cbn in Hlong; lia).
    pose proof (peekInBatch_loop_same _ _ _ _ _ _ Hpeek) as ->.
    pose proof (doPeek_ok_open _ _ _ _ _ Hdo) as Hopen.
    pose proof (doPeek_ok _ _ _ _ _ _ Hdo Hne) as Hpeeked.
    rewrite (doPeek_of_peeked context2 timeout2 t1 packet Hopen Hpeeked).
    destruct (Z.ltb_spec (Z.of_nat (length packet)) packetHeaderSize);
      [lia | exact Hpeek].
Qed.

(** X3. [peek] and then [skip] of the payload it returned consume exactly one
    packet: the input was the frame of that payload followed by [rest], and
    after the [skip] it is [rest]; nothing else of the transport changes. *)
Theorem peek_then_skip (context_ : Context) (timeout : Duration)
    (t t' : transport) (payload : list byte)
    (Hpeek : peek makeDeadline context_ timeout t = Done t' (payload, None)) :
  exists rest,
    GetData (inputByteStream t') = frame payload ++ rest /\
    skip payload t'
    = Done (set_inputByteStream
              (mkByteStream rest (bs_buffer (inputByteStream t'))) t')
           None.
Proof.
  destruct (peek_inv _ _ _ _ _ Hpeek) as (packet & Hdo & Hne & ->).
  pose proof (doPeek_ok_open _ _ _ _ _ Hdo) as Hopen.
  destruct (packet_peeked_frame _ _ (doPeek_ok _ _ _ _ _ _ Hdo Hne))
    as (_ & Hdata & _).
  set (payload := drop (Z.to_nat packetHeaderSize) packet) in *.
  exists (drop (length (frame payload)) (GetData (inputByteStream t'))).
  split; [exact Hdata |].
  unfold skip. rewrite Hopen. do 2 f_equal.
  unfold ByteStream_Skip, GetData. f_equal. f_equal.
  rewrite length_frame. unfold packetHeaderSize. lia.
Qed.

End PeekAgain.

Lemma peek_never_consumes_witness :
  exists t',
    peekInBatch sample_makeDeadline (mkContext None None None) 5
      sample_batch_transport
    = Done t' ([[x01; x02; x03]; [x09]], None) /\
    peek_keeps sample_batch_transport t'.
Proof.
  eexists. split; [reflexivity |].
  apply (proj2 (peek_never_consumes sample_makeDeadline
                  (mkContext None None None) 5 sample_batch_transport)
           _ ([[x01; x02; x03]; [x09]], None)).
  reflexivity.
Defined.

Lemma peek_again_witness :
  exists t',
    peek sample_makeDeadline (mkContext None None None) 5 sample_batch_transport
    = Done t' ([x01; x02; x03], None) /\
    peek sample_makeDeadline (mkContext None None None) 0 t'
    = Done t' ([x01; x02; x03], None).
Proof.
  eexists. split; [reflexivity |].
  apply (proj1 (peek_again sample_makeDeadline (mkContext None None None) 5
                  sample_batch_transport)).
  reflexivity.
Defined.

Lemma peek_then_skip_witness :
  exists t' t'',
    peek sample_makeDeadline (mkContext None None None) 5 sample_batch_transport
    = Done t' ([x01; x02; x03], None) /\
    skip [x01; x02; x03] t' = Done t'' None /\
    GetData (inputByteStream t'') = [x00; x00; x00; x01; x09; x00].
Proof.
  assert (Hpeek : peek sample_makeDeadline (mkContext None None None) 5
                    sample_batch_transport
                  = Done _ ([x01; x02; x03], None)) by reflexivity.
  destruct (peek_then_skip _ _ _ _ _ _ Hpeek) as (rest & Hdata & Hskip).
  eexists _, _. split; [exact Hpeek |]. split; [exact Hskip |].
  cbn [inputByteStream set_inputByteStream GetData bs_data].
  apply (app_inv_head (frame [x01; x02; x03])). rewrite <- Hdata. reflexivity.
Defined.

(** ** Batches and their skipping *)

Lemma totalPacketSize_frames (packetPayloads : list (list byte)) :
  forall total,
    fold_left (fun total packetPayload =>
                 total + (packetHeaderSize + Z.of_nat (length packetPayload)))
      packetPayloads total
    = total + Z.of_nat (length (concat (frame <$> packetPayloads))).
Proof.
  induction packetPayloads as [| payload rest IH]; intros total;
    cbn [fold_left fmap list_fmap concat].
  - cbn. lia.
  - rewrite IH, length_app, length_frame. unfold packetHeaderSize. lia.
Qed.

Lemma ByteStream_Skip_Skip (a b : Z) (bs : ByteStream) :
  0 <= a -> 0 <= b ->
  ByteStream_Skip b (ByteStream_Skip a bs) = ByteStream_Skip (a + b) bs.
Proof.
  intros Ha Hb. unfold ByteStream_Skip. cbn. rewrite drop_drop.
  now rewrite Z2Nat.inj_add.
Qed.

(** X4. [skipInBatch] is the [skip]s of the payloads one after the other. *)
Theorem skipInBatch_skip_each (packetPayloads : list (list byte))
    (t : transport) (Hopen : isClosed t = false) :
  skipInBatch packetPayloads t = skip_each packetPayloads t.
Proof.
  unfold skipInBatch, skip_each. rewrite Hopen.
  assert (Hgen : forall ps consumed,
             0 <= consumed ->
             fold_left
               (fun acc packetPayload =>
                  match acc with
                  | Done t0 None => skip packetPayload t0
                  | _ => acc
                  end)
               ps
               (Done (set_inputByteStream
                        (ByteStream_Skip consumed (inputByteStream t)) t) None)
             = Done (set_inputByteStream
                       (ByteStream_Skip
                          (fold_left
                             (fun total packetPayload =>
                                total + (packetHeaderSize
                                         + Z.of_nat (length packetPayload)))
                             ps consumed)
                          (inputByteStream t)) t) None).
  { induction ps as [| payload ps IH]; intros consumed Hc; [reflexivity |].
    cbn [fold_left]. unfold skip at 2.
    change (isClosed (set_inputByteStream _ t)) with (isClosed t).
    rewrite Hopen. cbn [inputByteStream set_inputByteStream].
    rewrite ByteStream_Skip_Skip by (unfold packetHeaderSize; lia).
    unfold set_inputByteStream at 2. cbn [t_policy t_connection outputByteStream openness].
    apply (IH (consumed + (packetHeaderSize + Z.of_nat (length payload)))).
    unfold packetHeaderSize. lia. }
  specialize (Hgen packetPayloads 0 ltac:(lia)).
  replace (set_inputByteStream (ByteStream_Skip 0 (inputByteStream t)) t)
    with t in Hgen by (destruct t as [? ? [? ?] ? ?]; reflexivity).
  now rewrite Hgen.
Qed.

Lemma skipInBatch_skip_each_witness :
  skipInBatch [[x01; x02; x03]; [x09]] sample_receiver
  = skip_each [[x01; x02; x03]; [x09]] sample_receiver.
Proof. apply skipInBatch_skip_each. reflexivity. Defined.

Section BatchSkip.

Variable makeDeadline : Context -> Duration -> Time * option error.

(** What a successful [peekInBatch] has found in the input. *)
Lemma peekInBatch_inv (context_ : Context) (timeout : Duration)
    (t t' : transport) (payloads : list (list byte)) :
  peekInBatch makeDeadline context_ timeout t = Done t' (payloads, None) ->
  isClosed t' = false /\
  exists tail p,
    t_policy t' = Some p /\
    GetData (inputByteStream t') = concat (frame <$> payloads) ++ tail /\
    no_complete_packet (MaxPacketPayloadSize p) tail.
Proof.
  unfold peekInBatch.
  destruct (doPeek makeDeadline context_ timeout t)
    as [t1 [packet [e |]] | |] eqn:Hdo; try discriminate.
  destruct (Z.ltb_spec (Z.of_nat (length packet)) packetHeaderSize)
    as [| Hlong]; [discriminate |].
  assert (Hne : packet <> [])
    by (intros ->; unfold packetHeaderSize in Hlong; cbn in Hlong; lia).
  pose proof (doPeek_ok_open _ _ _ _ _ _ Hdo) as Hopen.
  pose proof (doPeek_ok _ _ _ _ _ _ Hdo Hne) as Hpeeked.
  destruct (packet_peeked_frame _ _ Hpeeked) as (Hframe & Hdata & p & Hp & _).
  intros Hloop.
  apply (peekInBatch_loop_spec _ t1 p Hp) in Hloop.
  2: { destruct Hpeeked as (p' & n & _ & Hu & _ & Hwhole & ->).
       pose proof (Uint32_range _ _ Hu).
       unfold GetDataSize, GetData, packetHeaderSize in *.
       rewrite length_take. lia. }
  destruct Hloop as (-> & _ & rest & tail & -> & Hdrop & _ & Hnone).
  split; [exact Hopen |]. exists tail, p. split; [exact Hp |].
  split; [| exact Hnone].
  cbn [app fmap list_fmap concat]. rewrite <- app_assoc, <- Hdrop, Nat2Z.id.
  rewrite <- Hframe in Hdata |- *. exact Hdata.
Qed.

(** X5. [peekInBatch] and then [skipInBatch] of what it returned consume
    exactly the packets returned: the input was their frames followed by
    [tail], and after the [skipInBatch] it is [tail], which starts no
    complete packet, so the next peek has to read. *)
Theorem peekInBatch_then_skipInBatch (context_ : Context) (timeout : Duration)
    (t t' : transport) (payloads : list (list byte))
    (Hpeek : peekInBatch makeDeadline context_ timeout t
             = Done t' (payloads, None)) :
  exists tail p,
    t_policy t' = Some p /\
    no_complete_packet (MaxPacketPayloadSize p) tail /\
    GetData (inputByteStream t') = concat (frame <$> payloads) ++ tail /\
    skipInBatch payloads t'
    = Done (set_inputByteStream
              (mkByteStream tail (bs_buffer (inputByteStream t'))) t')
           None.
Proof.
  destruct (peekInBatch_inv _ _ _ _ _ Hpeek)
    as (Hopen & tail & p & Hp & Hdata & Hnone).
  exists tail, p. repeat split; try assumption.
  unfold skipInBatch. rewrite Hopen, totalPacketSize_frames.
  do 2 f_equal. unfold ByteStream_Skip. f_equal.
  unfold GetData in Hdata. rewrite Hdata.
  replace (Z.to_nat (0 + Z.of_nat (length (concat (frame <$> payloads)))))
    with (length (concat (frame <$> payloads))) by lia.
  apply drop_app_length.
Qed.

End BatchSkip.

Lemma peekInBatch_then_skipInBatch_witness :
  exists t' t'',
    peekInBatch sample_makeDeadline (mkContext None None None) 5
      sample_batch_transport
    = Done t' ([[x01; x02; x03]; [x09]], None) /\
    skipInBatch [[x01; x02; x03]; [x09]] t' = Done t'' None /\
    GetData (inputByteStream t'') = [x00].
Proof.
  assert (Hpeek : peekInBatch sample_makeDeadline (mkContext None None None) 5
                    sample_batch_transport
                  = Done _ ([[x01; x02; x03]; [x09]], None)) by reflexivity.
  destruct (peekInBatch_then_skipInBatch _ _ _ _ _ _ Hpeek)
    as (tail & p & _ & _ & Hdata & Hskip).
  eexists _, _. split; [exact Hpeek |]. split; [exact Hskip |].
  cbn [inputByteStream set_inputByteStream GetData bs_data].
  apply (app_inv_head (concat (frame <$> [[x01; x02; x03]; [x09]]))).
  rewrite <- Hdata. reflexivity.
Defined.

(** ** Sequences of packets *)

Lemma ByteStream_Write_data (payload : list byte) (bs : ByteStream) :
  GetData (ByteStream_Write payload bs) = GetData bs ++ payload.
Proof.
  unfold ByteStream_Write, CommitBytes, GetData. cbn [bs_data].
  now rewrite ReserveBuffer_data.
Qed.

(** A [write] whose callback appends [appended], no longer than the policy
    allows, and returns nil: the output gains the frame of [appended]. *)
Lemma write_appending (t : transport) (p : TransportPolicy)
    (callback : ByteStream -> ByteStream * option error)
    (bs2 : ByteStream) (appended : list byte) :
  isClosed t = false -> t_policy t = Some p ->
  is_int32 (MaxPacketPayloadSize p) ->
  callback (WriteDirectly_untouched packetHeaderSize (outputByteStream t))
  = (bs2, None) ->
  GetData bs2
  = GetData (WriteDirectly_untouched packetHeaderSize (outputByteStream t))
    ++ appended ->
  Z.of_nat (length appended) <= MaxPacketPayloadSize p ->
  exists t',
    write callback t = Done t' None /\
    GetData (outputByteStream t')
    = GetData (outputByteStream t) ++ frame appended /\
    inputByteStream t' = inputByteStream t /\
    t_policy t' = Some p /\ t_connection t' = t_connection t /\
    isClosed t' = false.
Proof.
  intros Hopen Hpolicy Hint32 Hcall Happend Hsize.
  destruct (WriteDirectly_untouched_header (outputByteStream t))
    as (header & Hlen & Hheader).
  unfold GetData in Happend. rewrite Hheader, <- app_assoc in Happend.
  assert (Hlen2 : GetDataSize bs2
                  = GetDataSize (outputByteStream t)
                    + 4 + Z.of_nat (length appended)).
  { unfold GetDataSize. rewrite Happend, !length_app, Hlen. lia. }
  assert (Hpacket : drop (Z.to_nat (GetDataSize (outputByteStream t)))
                      (GetData bs2)
                    = header ++ appended).
  { unfold GetDataSize, GetData. now rewrite Nat2Z.id, Happend, drop_app_length. }
  assert (Hlt : (GetDataSize bs2 <? GetDataSize (outputByteStream t)) = false)
    by (apply Z.ltb_ge; lia).
  assert (Hgt : (Z.of_nat (4 + length appended) - packetHeaderSize
                 >? MaxPacketPayloadSize p) = false)
    by (rewrite Z.gtb_ltb; apply Z.ltb_ge; unfold packetHeaderSize; lia).
  assert (Hlt4 : (Z.of_nat (4 + length appended) <? 4) = false)
    by (apply Z.ltb_ge; lia).
  unfold write. rewrite Hopen, Hcall, Hpolicy, Hlt, Hpacket, length_app, Hlen,
    Hgt, Hlt4.
  eexists. split; [reflexivity |].
  cbn [outputByteStream inputByteStream t_policy t_connection openness
         set_outputByteStream].
  repeat split; try assumption.
  unfold store_at, GetData, GetDataSize, frame. cbn [bs_data].
  rewrite Happend, Nat2Z.id, take_app_length.
  replace (length (PutUint32 (uint32 (Z.of_nat (4 + length appended)
                                      - packetHeaderSize))))
    with (length header) by (now rewrite Hlen).
  rewrite drop_app_add, drop_app_length.
  unfold uint32, packetHeaderSize, is_int32 in *. rewrite Z.mod_small by lia.
  do 3 f_equal. lia.
Qed.

Lemma write_each_frames (payloads : list (list byte)) (p : TransportPolicy) :
  is_int32 (MaxPacketPayloadSize p) ->
  Forall (fun payload => Z.of_nat (length payload) <= MaxPacketPayloadSize p)
    payloads ->
  forall t,
    isClosed t = false -> t_policy t = Some p ->
    exists t',
      write_each payloads t = Done t' None /\
      GetData (outputByteStream t')
      = GetData (outputByteStream t) ++ concat (frame <$> payloads) /\
      inputByteStream t' = inputByteStream t /\
      t_connection t' = t_connection t.
Proof.
  intros Hint32 Hall. unfold write_each.
  induction Hall as [| payload payloads Hsize _ IH]; intros t Hopen Hpolicy.
  - exists t. cbn. rewrite app_nil_r. repeat split.
  - cbn [fold_left].
    destruct (write_appending t p (fun bs => (ByteStream_Write payload bs, None))
                _ payload Hopen Hpolicy Hint32 eq_refl
                (ByteStream_Write_data _ _) Hsize)
      as (t1 & -> & Hdata1 & Hin1 & Hp1 & Hc1 & Hopen1).
    destruct (IH t1 Hopen1 Hp1) as (t' & Hrun & Hdata & Hin & Hc).
    exists t'. split; [exact Hrun |].
    cbn [fmap list_fmap concat].
    rewrite Hdata, Hdata1, <- app_assoc. repeat split; congruence.
Qed.

Lemma Uint32_frame_front (payload rest : list byte) :
  Z.of_nat (length payload) < 2 ^ 32 ->
  Uint32 (frame payload ++ rest) = Some (Z.of_nat (length payload)).
Proof.
  intros H. unfold frame. rewrite <- app_assoc. apply Uint32_PutUint32. lia.
Qed.

Lemma no_complete_packet_frame (maxPayload : Z) (payload rest : list byte) :
  Z.of_nat (length payload) < 2 ^ 32 ->
  Z.of_nat (length payload) <= maxPayload ->
  ~ no_complete_packet maxPayload (frame payload ++ rest).
Proof.
  intros H32 Hmax [Hshort | (n & Hu & Hbad)].
  - rewrite length_app, length_frame in Hshort.
    unfold packetHeaderSize in Hshort. lia.
  - rewrite Uint32_frame_front in Hu by assumption. injection Hu as <-.
    rewrite length_app, length_frame in Hbad.
    unfold packetHeaderSize in Hbad. lia.
Qed.

(** The batch loop over an input that holds the frames of [payloads] from
    [dataOffset] on, and then no further complete packet, returns them
    all. *)
Lemma peekInBatch_loop_frames (t : transport) (p : TransportPolicy)
    (tail : list byte) :
  t_policy t = Some p ->
  no_complete_packet (MaxPacketPayloadSize p) tail ->
  forall payloads fuel acc dataOffset,
    Forall (fun payload =>
              Z.of_nat (length payload) < 2 ^ 32 /\
              Z.of_nat (length payload) <= MaxPacketPayloadSize p) payloads ->
    (length payloads < fuel)%nat ->
    0 <= dataOffset <= GetDataSize (inputByteStream t) ->
    drop (Z.to_nat dataOffset) (GetData (inputByteStream t))
    = concat (frame <$> payloads) ++ tail ->
    peekInBatch_loop fuel t acc dataOffset = Done t (acc ++ payloads, None).
Proof.
  intros Hp Hnone payloads.
  induction payloads as [| payload payloads IH];
    intros fuel acc dataOffset Hall Hfuel Hoff Hdrop;
    (destruct fuel as [| fuel]; [cbn in Hfuel; lia |]);
    cbn [peekInBatch_loop];
    destruct (tryPeek_at t p dataOffset Hp Hoff)
      as [(packet & -> & Hnot) | (n & -> & Hu & Hmax & Hwhole)].
  - now rewrite app_nil_r.
  - exfalso. rewrite Hdrop in Hu, Hwhole. cbn in Hu, Hwhole.
    destruct Hnone as [Hshort | (n' & Hu' & Hbad)].
    + pose proof (Uint32_range _ _ Hu). lia.
    + rewrite Hu in Hu'. injection Hu' as <-. lia.
  - exfalso. rewrite Hdrop in Hnot. cbn [fmap list_fmap concat] in Hnot.
    rewrite <- app_assoc in Hnot. inversion Hall as [| ? ? [H32 Hsize] _]; subst.
    now apply no_complete_packet_frame in Hnot.
  - inversion Hall as [| ? ? [H32 Hsize] Hall']; subst.
    rewrite Hdrop in Hu |- *. cbn [fmap list_fmap concat] in Hu |- *.
    rewrite <- app_assoc in Hu |- *.
    rewrite Uint32_frame_front in Hu by assumption. injection Hu as <-.
    replace (Z.to_nat (packetHeaderSize + Z.of_nat (length payload)))
      with (length (frame payload))
      by (rewrite length_frame; unfold packetHeaderSize; lia).
    rewrite take_app_length.
    replace (drop (Z.to_nat packetHeaderSize) (frame payload)) with payload
      by (unfold frame;
          change (Z.to_nat packetHeaderSize)
            with (length (PutUint32 (Z.of_nat (length payload))));
          now rewrite drop_app_length).
    rewrite (IH fuel (acc ++ [payload])
               (dataOffset + Z.of_nat (length (frame payload))) Hall').
    + now rewrite <- app_assoc.
    + cbn in Hfuel. lia.
    + assert (Hlen : length (drop (Z.to_nat dataOffset)
                               (GetData (inputByteStream t)))
                     = length (frame payload ++ concat (frame <$> payloads) ++ tail)).
      { rewrite Hdrop. cbn [fmap list_fmap concat]. now rewrite <- app_assoc. }
      rewrite length_drop, length_app in Hlen.
      unfold GetDataSize, GetData in *. lia.
    + replace (Z.to_nat (dataOffset + Z.of_nat (length (frame payload))))
        with (Z.to_nat dataOffset + length (frame payload))%nat by lia.
      rewrite <- drop_drop, Hdrop. cbn [fmap list_fmap concat].
      rewrite <- app_assoc. apply drop_app_length.
Qed.

Lemma length_frames_ge (payloads : list (list byte)) :
  (length payloads <= length (concat (frame <$> payloads)))%nat.
Proof.
  induction payloads as [| payload payloads IH]; cbn [fmap list_fmap concat length].
  - lia.
  - rewrite length_app, length_frame. lia.
Qed.

Lemma drop_header_frame (payload : list byte) :
  drop (Z.to_nat packetHeaderSize) (frame payload) = payload.
Proof.
  unfold frame.
  change (Z.to_nat packetHeaderSize)
    with (length (PutUint32 (Z.of_nat (length payload)))).
  apply drop_app_length.
Qed.

Section Sequences.

Variable makeDeadline : Context -> Duration -> Time * option error.

(** [peekInBatch] on an input that holds the frames of [payloads] and then
    no further complete packet returns them all and reads nothing. *)
Lemma peekInBatch_frames (context_ : Context) (timeout : Duration)
    (t : transport) (p : TransportPolicy) (payloads : list (list byte))
    (tail : list byte) :
  isClosed t = false -> t_policy t = Some p ->
  Forall (fun payload =>
            Z.of_nat (length payload) < 2 ^ 32 /\
            Z.of_nat (length payload) <= MaxPacketPayloadSize p) payloads ->
  payloads <> [] ->
  no_complete_packet (MaxPacketPayloadSize p) tail ->
  GetData (inputByteStream t) = concat (frame <$> payloads) ++ tail ->
  peekInBatch makeDeadline context_ timeout t = Done t (payloads, None).
Proof.
  intros Hopen Hp Hall Hne Hnone Hdata.
  destruct payloads as [| payload payloads]; [congruence |].
  inversion Hall as [| ? ? [H32 Hsize] Hall']; subst.
  cbn [fmap list_fmap concat] in Hdata. rewrite <- app_assoc in Hdata.
  unfold peekInBatch.
  rewrite (doPeek_buffered makeDeadline context_ timeout t p payload _
             Hopen Hp H32 Hsize Hdata).
  rewrite length_frame.
  assert (Hlt : (Z.of_nat (4 + length payload) <? packetHeaderSize) = false)
    by (apply Z.ltb_ge; unfold packetHeaderSize; lia).
  rewrite Hlt, drop_header_frame.
  apply (peekInBatch_loop_frames t p tail Hp Hnone payloads _ [payload]);
    [exact Hall' | | |].
  - pose proof (length_frames_ge payloads).
    rewrite Hdata, !length_app, length_frame. lia.
  - unfold GetDataSize, GetData in *. rewrite Hdata, !length_app, length_frame.
    lia.
  - rewrite Nat2Z.id, Hdata. rewrite <- length_frame. apply drop_app_length.
Qed.

(** X6. Packets written one after the other are the packets a batch returns:
    [write]s of the payloads of a list, each no longer than the policy
    allows, append their frames to the output in order, and [peekInBatch] on
    a transport whose input holds exactly those bytes returns the same list,
    in the same order, without reading. *)
Theorem written_sequence_peeked_in_batch (t : transport) (p : TransportPolicy)
    (payloads : list (list byte))
    (Hopen : isClosed t = false) (Hpolicy : t_policy t = Some p)
    (Hint32 : is_int32 (MaxPacketPayloadSize p))
    (Hall : Forall (fun payload =>
                      Z.of_nat (length payload) <= MaxPacketPayloadSize p)
              payloads)
    (Hne : payloads <> []) :
  exists t' written,
    write_each payloads t = Done t' None /\
    GetData (outputByteStream t') = GetData (outputByteStream t) ++ written /\
    forall context_ timeout t2 p2,
      isClosed t2 = false -> t_policy t2 = Some p2 ->
      Forall (fun payload =>
                Z.of_nat (length payload) <= MaxPacketPayloadSize p2) payloads ->
      GetData (inputByteStream t2) = written ->
      peekInBatch makeDeadline context_ timeout t2 = Done t2 (payloads, None).
Proof.
  destruct (write_each_frames payloads p Hint32 Hall t Hopen Hpolicy)
    as (t' & Hrun & Hdata & _).
  exists t', (concat (frame <$> payloads)). split; [exact Hrun |].
  split; [exact Hdata |].
  intros context_ timeout t2 p2 Hopen2 Hp2 Hall2 Hin.
  apply (peekInBatch_frames context_ timeout t2 p2 payloads []);
    try assumption.
  - rewrite Forall_forall in *. intros payload Hpayload.
    specialize (Hall payload Hpayload). specialize (Hall2 payload Hpayload).
    unfold is_int32 in Hint32. split; lia.
  - left. cbn. unfold packetHeaderSize. lia.
  - now rewrite app_nil_r.
Qed.

(** X7. A header that announces more than the policy allows is never got past:
    [peek] and [peekInBatch] return [PacketPayloadTooLargeError] and leave
    the transport as it is, so they do so again on every later call.  Behind
    complete packets such a header ends the batch without an error; the
    error comes with the first peek after those packets are skipped. *)
Theorem oversized_packet_sticks (context_ : Context) (timeout : Duration)
    (t : transport) (p : TransportPolicy) (payloads : list (list byte))
    (tail : list byte) (n : Z)
    (Hopen : isClosed t = false) (Hpolicy : t_policy t = Some p)
    (Hall : Forall (fun payload =>
                      Z.of_nat (length payload) < 2 ^ 32 /\
                      Z.of_nat (length payload) <= MaxPacketPayloadSize p)
              payloads)
    (Hdata : GetData (inputByteStream t) = concat (frame <$> payloads) ++ tail)
    (Hheader : Uint32 tail = Some n) (Hbig : n > MaxPacketPayloadSize p) :
  match payloads with
  | [] =>
      peek makeDeadline context_ timeout t
      = Done t ([], Some PacketPayloadTooLargeError) /\
      peekInBatch makeDeadline context_ timeout t
      = Done t ([], Some PacketPayloadTooLargeError)
  | _ :: _ =>
      peekInBatch makeDeadline context_ timeout t = Done t (payloads, None) /\
      exists t',
        skipInBatch payloads t = Done t' None /\
        peek makeDeadline context_ timeout t'
        = Done t' ([], Some PacketPayloadTooLargeError)
  end.
Proof.
  assert (Hstuck : forall t0,
             isClosed t0 = false -> t_policy t0 = Some p ->
             GetData (inputByteStream t0) = tail ->
             doPeek makeDeadline context_ timeout t0
             = Done t0 ([], Some PacketPayloadTooLargeError)).
  { intros t0 Hopen0 Hp0 Hin0.
    assert (Hlen : 4 <= Z.of_nat (length tail)).
    { destruct tail as [| b0 [| b1 [| b2 [| b3 rest]]]]; try discriminate.
      cbn [length]. lia. }
    assert (Hlt : (GetDataSize (inputByteStream t0) <? packetHeaderSize) = false).
    { apply Z.ltb_ge. unfold GetDataSize, GetData, packetHeaderSize in *.
      rewrite Hin0. lia. }
    assert (Hgt : (n >? MaxPacketPayloadSize p) = true)
      by (rewrite Z.gtb_ltb; apply Z.ltb_lt; lia).
    unfold doPeek, doPeek_packet.
    rewrite Hopen0, !Hlt, Uint32_take, Hin0, Hheader, Hp0, Hgt
      by (unfold packetHeaderSize; lia).
    reflexivity. }
  destruct payloads as [| payload payloads].
  - cbn in Hdata. unfold peek, peekInBatch.
    rewrite (Hstuck t Hopen Hpolicy Hdata). split; reflexivity.
  - split.
    + apply (peekInBatch_frames context_ timeout t p (payload :: payloads) tail);
        try assumption; [discriminate |].
      right. exists n. split; [exact Hheader | left; exact Hbig].
    + eexists. split.
      * unfold skipInBatch. rewrite Hopen. reflexivity.
      * unfold peek. rewrite Hstuck; [reflexivity | exact Hopen | exact Hpolicy |].
        cbn [inputByteStream set_inputByteStream].
        unfold ByteStream_Skip, GetData in *. cbn [bs_data].
        rewrite totalPacketSize_frames, Hdata.
        replace (Z.to_nat (0 + Z.of_nat (length (concat (frame <$> payload :: payloads)))))
          with (length (concat (frame <$> payload :: payloads))) by lia.
        apply drop_app_length.
Qed.

End Sequences.

Lemma written_sequence_peeked_in_batch_witness :
  exists t' t2,
    write_each [[x01; x02; x03]; [x09]] sample_transport = Done t' None /\
    GetData (inputByteStream t2) = GetData (outputByteStream t') /\
    peekInBatch sample_makeDeadline (mkContext None None None) 0 t2
    = Done t2 ([[x01; x02; x03]; [x09]], None).
Proof.
  assert (Hint32 : is_int32 (MaxPacketPayloadSize sample_policy))
    by (vm_compute; split; [discriminate | reflexivity]).
  assert (Hall : Forall (fun payload =>
                           Z.of_nat (length payload)
                           <= MaxPacketPayloadSize sample_policy)
                   [[x01; x02; x03]; [x09]])
    by (repeat constructor; vm_compute; discriminate).
  assert (Hne : [[x01; x02; x03]; [x09]] <> @nil (list byte)) by discriminate.
  destruct (written_sequence_peeked_in_batch sample_makeDeadline
              sample_transport sample_policy [[x01; x02; x03]; [x09]]
              eq_refl eq_refl Hint32 Hall Hne)
    as (t' & written & Hrun & Hdata & Hpeek).
  exists t', (mkTransport (Some sample_policy) (Some sample_conn)
                (mkByteStream written []) emptyByteStream 1).
  split; [exact Hrun |]. split; [rewrite Hdata; reflexivity |].
  apply (Hpeek _ _ _ sample_policy); [reflexivity | reflexivity | exact Hall |].
  reflexivity.
Defined.

Lemma oversized_packet_sticks_witness :
  peekInBatch sample_makeDeadline (mkContext None None None) 0
    sample_oversized_transport
  = Done sample_oversized_transport ([[x09]], None) /\
  exists t',
    skipInBatch [[x09]] sample_oversized_transport = Done t' None /\
    peek sample_makeDeadline (mkContext None None None) 0 t'
    = Done t' ([], Some PacketPayloadTooLargeError).
Proof.
  assert (Hall : Forall (fun payload =>
                           Z.of_nat (length payload) < 2 ^ 32 /\
                           Z.of_nat (length payload)
                           <= MaxPacketPayloadSize sample_policy)
                   [[x09]])
    by (repeat constructor; vm_compute; congruence).
  assert (Hbig : 4294967295 > MaxPacketPayloadSize sample_policy)
    by reflexivity.
  exact (oversized_packet_sticks sample_makeDeadline (mkContext None None None)
           0 sample_oversized_transport sample_policy [[x09]]
           [xff; xff; xff; xff; x00] 4294967295
           eq_refl eq_refl Hall eq_refl eq_refl Hbig).
Defined.

(** ** Flushing *)

Lemma conn_Write_sent (data : list byte) (c : Conn) :
  let '(n, e, c') := conn_Write data c in
  0 <= n <= Z.of_nat (length data) /\
  conn_outgoing c' = conn_outgoing c ++ take (Z.to_nat n) data /\
  conn_kind c' = conn_kind c /\
  conn_write_script c' = tail (conn_write_script c) /\
  (e = None ->
   forall maxFrame,
     writes_whole_frames maxFrame (conn_write_script c) ->
     Z.of_nat (length data) <= maxFrame -> n = Z.of_nat (length data)).
Proof.
  unfold conn_Write. destruct (conn_write_script c) as [| [limit e0] rest] eqn:Hs.
  - cbn. rewrite Nat2Z.id, firstn_all. repeat split; try lia.
  - cbn. repeat split; try lia.
    intros -> maxFrame Hcontract Hlen.
    inversion Hcontract as [| ? ? Hstep _]; subst. cbn in Hstep.
    specialize (Hstep eq_refl). lia.
Qed.

Lemma flush_websocket_sent (maxFrame : Z) (fuel : nat) :
  0 <= maxFrame ->
  forall data i c nn e c',
    0 <= i <= Z.of_nat (length data) ->
    writes_whole_frames maxFrame (conn_write_script c) ->
    flush_websocket maxFrame fuel data i i c = Some (nn, e, c') ->
    i <= nn <= Z.of_nat (length data) /\
    conn_outgoing c'
    = conn_outgoing c ++ take (Z.to_nat (nn - i)) (drop (Z.to_nat i) data).
Proof.
  intros Hmax. induction fuel as [| fuel IH];
    intros data i c nn e c' Hi Hcontract; [discriminate |].
  cbn [flush_websocket].
  destruct (Z.geb_spec (i + maxFrame) (Z.of_nat (length data))) as [Hlast | Hmore].
  - pose proof (conn_Write_sent (drop (Z.to_nat i) data) c) as Hw.
    destruct (conn_Write (drop (Z.to_nat i) data) c) as [[n e1] c1].
    destruct Hw as (Hn & Hout & _). rewrite length_drop in Hn.
    intros [= <- <- <-]. split; [lia |].
    rewrite Hout. do 2 f_equal. lia.
  - pose proof (conn_Write_sent
                  (take (Z.to_nat (i + maxFrame - i)) (drop (Z.to_nat i) data)) c)
      as Hw.
    destruct (conn_Write _ c) as [[n e1] c1].
    destruct Hw as (Hn & Hout & _ & Hscript & Hwhole).
    rewrite length_take, length_drop in Hn, Hwhole.
    destruct e1 as [e1 |].
    + intros [= <- <- <-]. split; [lia |].
      rewrite Hout, take_take. do 2 f_equal. lia.
    + specialize (Hwhole eq_refl maxFrame Hcontract ltac:(lia)).
      assert (Hn' : n = maxFrame) by lia. clear Hwhole. subst n.
      intros Hrun. apply IH in Hrun.
      * destruct Hrun as (Hnn & Hout').
        split; [lia |]. rewrite Hout', Hout, <- app_assoc. f_equal.
        rewrite take_take.
        replace (Z.to_nat maxFrame `min` Z.to_nat (i + maxFrame - i))%nat
          with (Z.to_nat maxFrame) by lia.
        replace (Z.to_nat (i + maxFrame)) with (Z.to_nat i + Z.to_nat maxFrame)%nat
          by lia.
        rewrite <- drop_drop, take_take_drop. f_equal. lia.
      * lia.
      * rewrite Hscript. unfold writes_whole_frames in *.
        destruct (conn_write_script c); [constructor |].
        now inversion Hcontract.
Qed.

Lemma flush_websocket_all (maxFrame : Z) (fuel : nat) :
  0 <= maxFrame ->
  forall data i c nn c',
    0 <= i <= Z.of_nat (length data) ->
    writes_whole_frames maxFrame (conn_write_script c) ->
    flush_websocket maxFrame fuel data i i c = Some (nn, None, c') ->
    nn = Z.of_nat (length data).
Proof.
  intros Hmax. induction fuel as [| fuel IH];
    intros data i c nn c' Hi Hcontract; [discriminate |].
  cbn [flush_websocket].
  destruct (Z.geb_spec (i + maxFrame) (Z.of_nat (length data))) as [Hlast | Hmore].
  - pose proof (conn_Write_sent (drop (Z.to_nat i) data) c) as Hw.
    destruct (conn_Write (drop (Z.to_nat i) data) c) as [[n e1] c1].
    destruct Hw as (_ & _ & _ & _ & Hwhole). rewrite length_drop in Hwhole.
    intros [= <- -> <-].
    specialize (Hwhole eq_refl maxFrame Hcontract ltac:(lia)). lia.
  - pose proof (conn_Write_sent
                  (take (Z.to_nat (i + maxFrame - i)) (drop (Z.to_nat i) data)) c)
      as Hw.
    destruct (conn_Write _ c) as [[n e1] c1].
    destruct Hw as (_ & _ & _ & Hscript & Hwhole).
    rewrite length_take, length_drop in Hwhole.
    destruct e1 as [e1 |]; [discriminate |].
    specialize (Hwhole eq_refl maxFrame Hcontract ltac:(lia)).
    assert (Hn' : n = maxFrame) by lia. clear Hwhole. subst n.
    apply IH; [lia |].
    rewrite Hscript. unfold writes_whole_frames in *.
    destruct (conn_write_script c); [constructor |]. now inversion Hcontract.
Qed.

(** X8. [flush] loses and repeats nothing: whatever it returns, the bytes the
    connection has taken followed by the bytes still in the output are the
    bytes taken before followed by the output before.  On a WebSocket
    connection this needs frames of a size that is not negative and a
    connection that reports an error whenever it takes less than a frame;
    with those, a [flush] that returns nil has emptied the output. *)
Theorem flush_keeps_unsent
    (makeDeadline : Context -> Duration -> Time * option error)
    (maxWebSocketFramePayloadSize : Z)
    (context_ : Context) (timeout : Duration) (t t' : transport) (c : Conn)
    (e : option error)
    (Hconn : t_connection t = Some c)
    (Hcontract : conn_kind c = WebSocketConn ->
                 writes_whole_frames maxWebSocketFramePayloadSize
                   (conn_write_script c))
    (Hflush : flush makeDeadline maxWebSocketFramePayloadSize context_ timeout t
              = Done t' e) :
  isClosed t = false ->
  exists c',
    t_connection t' = Some c' /\
    conn_outgoing c' ++ GetData (outputByteStream t')
    = conn_outgoing c ++ GetData (outputByteStream t) /\
    inputByteStream t' = inputByteStream t /\ t_policy t' = t_policy t /\
    openness t' = openness t /\
    (conn_kind c = WebSocketConn -> e = None ->
     GetData (outputByteStream t') = []).
Proof.
  intros Hopen. revert Hflush. unfold flush. rewrite Hopen, Hconn.
  destruct (makeDeadline context_ timeout) as [deadline [e0 |]].
  { intros [= <- <-]. exists c. repeat split; try assumption. discriminate. }
  unfold conn_SetWriteDeadline.
  destruct (conn_deadline_result c) as [e0 |] eqn:Hdl.
  { intros [= <- <-]. exists c. repeat split. discriminate. }
  set (c1 := mkConn _ _ _ _ _ _ _ _ _).
  assert (Hkind : conn_kind c1 = conn_kind c) by reflexivity.
  assert (Hout : conn_outgoing c1 = conn_outgoing c) by reflexivity.
  assert (Hscript : conn_write_script c1 = conn_write_script c) by reflexivity.
  clearbody c1. rewrite Hkind.
  set (data := GetData (outputByteStream t)).
  assert (Hdefault :
            Done (mkTransport (t_policy t)
                    (Some (snd (conn_Write data c1)))
                    (inputByteStream t)
                    (ByteStream_Skip (fst (fst (conn_Write data c1)))
                       (outputByteStream t))
                    (openness t))
                 (snd (fst (conn_Write data c1)))
            = Done t' e ->
            conn_kind c <> WebSocketConn ->
            exists c',
              t_connection t' = Some c' /\
              conn_outgoing c' ++ GetData (outputByteStream t')
              = conn_outgoing c ++ data /\
              inputByteStream t' = inputByteStream t /\
              t_policy t' = t_policy t /\ openness t' = openness t /\
              (conn_kind c = WebSocketConn -> e = None ->
               GetData (outputByteStream t') = [])).
  { pose proof (conn_Write_sent data c1) as Hw.
    destruct (conn_Write data c1) as [[n e1] c2].
    destruct Hw as (Hn & Hsent & _). cbn [fst snd].
    intros [= <- <-] Hk. exists c2. cbn. repeat split; [| congruence].
    rewrite Hsent, Hout, <- app_assoc. f_equal.
    unfold GetData in data. apply take_drop. }
  destruct (conn_kind c) eqn:Hk.
  - intros Hrun. apply Hdefault; [| discriminate].
    destruct (conn_Write data c1) as [[n e1] c2]. exact Hrun.
  - specialize (Hcontract eq_refl).
    destruct (Z.ltb_spec maxWebSocketFramePayloadSize 0) as [| Hmax];
      [discriminate |].
    destruct (flush_websocket maxWebSocketFramePayloadSize
                (S (length data)) data 0 0 c1)
      as [[[nn e1] c2] |] eqn:Hws; [| discriminate].
    intros [= <- <-].
    rewrite <- Hscript in Hcontract.
    pose proof (flush_websocket_sent _ _ Hmax data 0 c1 nn e1 c2
                  ltac:(lia) Hcontract Hws) as (Hnn & Hsent).
    exists c2. cbn. repeat split.
    + rewrite Hsent, Hout, <- app_assoc. f_equal.
      rewrite Z.sub_0_r. cbn [Z.to_nat drop]. rewrite drop_0.
      unfold GetData in data. apply take_drop.
    + intros _ ->.
      pose proof (flush_websocket_all _ _ Hmax data 0 c1 nn c2
                    ltac:(lia) Hcontract Hws) as ->.
      rewrite Nat2Z.id. unfold GetData in data. apply drop_all.
  - intros Hrun. apply Hdefault; [| discriminate].
    destruct (conn_Write data c1) as [[n e1] c2]. exact Hrun.
Qed.

Lemma flush_keeps_unsent_witness :
  exists t' c',
    flush sample_makeDeadline 2 (mkContext None None None) 5
      sample_websocket_transport
    = Done t' None /\
    t_connection t' = Some c' /\
    conn_outgoing c' = [x00; x00; x00; x01; x09] /\
    GetData (outputByteStream t') = [].
Proof.
  assert (Hflush : flush sample_makeDeadline 2 (mkContext None None None) 5
                     sample_websocket_transport
                   = Done _ None) by reflexivity.
  destruct (flush_keeps_unsent sample_makeDeadline 2 _ _
              sample_websocket_transport _ sample_websocket_conn _ eq_refl
              (fun _ => List.Forall_nil _) Hflush eq_refl)
    as (c' & Hconn & Hkept & _ & _ & _ & Hempty).
  eexists _, c'. split; [exact Hflush |]. split; [exact Hconn |].
  specialize (Hempty eq_refl eq_refl). split; [| exact Hempty].
  rewrite Hempty, app_nil_r in Hkept. exact Hkept.
Defined.

(** ** The life of a transport *)

(** X9. A transport is used once.  [initialize] on a fresh transport opens it
    with the validated policy and a read buffer of at least
    [InitialReadBufferSize] bytes; on a transport that is open, or that has
    been closed, it panics. *)
Theorem transport_used_once (policy : TransportPolicy) (c : Conn)
    (force : bool) (t : transport) (Hfresh : openness t = 0) :
  exists t1,
    initialize policy (Some c) t = Done t1 tt /\
    isClosed t1 = false /\
    t_policy t1 = Some (TransportPolicy_Validate policy) /\
    InitialReadBufferSize (TransportPolicy_Validate policy)
    <= GetBufferSize (inputByteStream t1) /\
    GetData (inputByteStream t1) = GetData (inputByteStream t) /\
    (forall policy2 connection2, initialize policy2 connection2 t1 = Panic) /\
    exists t2,
      close force t1 = Done t2 (conn_close_result c) /\
      forall policy2 connection2, initialize policy2 connection2 t2 = Panic.
Proof.
  unfold initialize at 1. rewrite Hfresh. cbn [Z.eqb negb].
  eexists. split; [reflexivity |].
  split; [reflexivity |]. split; [reflexivity |].
  split; [apply ReserveBuffer_size |].
  split; [unfold GetData; cbn; apply ReserveBuffer_data |].
  split; [reflexivity |].
  eexists. split.
  - unfold close. cbn. f_equal.
    destruct force; [destruct (conn_kind c) |]; reflexivity.
  - reflexivity.
Qed.

Lemma transport_used_once_witness :
  exists t1 t2,
    initialize (mkTransportPolicy 0 0 false) (Some sample_conn)
      (mkTransport None None emptyByteStream emptyByteStream 0)
    = Done t1 tt /\
    4096 <= GetBufferSize (inputByteStream t1) /\
    close false t1 = Done t2 None /\
    initialize (mkTransportPolicy 0 0 false) (Some sample_conn) t2 = Panic.
Proof.
  destruct (transport_used_once (mkTransportPolicy 0 0 false) sample_conn false
              (mkTransport None None emptyByteStream emptyByteStream 0) eq_refl)
    as (t1 & Hinit & _ & _ & Hbuf & _ & _ & t2 & Hclose & Hagain).
  exists t1, t2. split; [exact Hinit |]. split; [exact Hbuf |].
  split; [exact Hclose | apply Hagain].
Defined.

(** ** Reassembly *)

Lemma conn_Read_delivers (buffer : list byte) (c : Conn) :
  delivers c -> buffer <> [] -> pending c <> [] ->
  let '(chunk, e, c') := conn_Read buffer c in
  chunk <> [] /\ (length chunk <= length buffer)%nat /\
  chunk ++ pending c' = pending c /\ delivers c' /\
  conn_deadline_result c' = conn_deadline_result c.
Proof.
  unfold delivers, pending, conn_Read. intros Hgood Hbuf Hpending.
  destruct (conn_incoming c) as [| [chunk e] rest]; [now cbn in Hpending |].
  inversion Hgood as [| ? ? [Hchunk He] Hrest]; subst. cbn in Hchunk, He.
  destruct (Nat.leb_spec (length chunk) (length buffer)) as [Hfits | Hcut]; cbn.
  - repeat split; assumption.
  - repeat split.
    + destruct buffer; [congruence |]. destruct chunk; [congruence | discriminate].
    + rewrite length_take. lia.
    + now rewrite app_assoc, take_drop.
    + constructor; [| exact Hrest]. cbn. split; [| exact He].
      intros Hnil. apply (f_equal length) in Hnil.
      rewrite length_drop in Hnil. cbn in Hnil. lia.
Qed.

(** A read loop on a connection that delivers enough, into a buffer with
    room for what is missing, breaks with its target reached; no byte of
    the stream is lost or moved. *)
Lemma readLoop_delivers (fuel : nat) :
  forall target c bs,
    delivers c ->
    0 < target - GetDataSize bs <= Z.of_nat fuel ->
    target - GetDataSize bs <= GetBufferSize bs ->
    target - GetDataSize bs <= Z.of_nat (length (pending c)) ->
    exists c' bs',
      readLoop fuel target c bs = ReadBreak c' bs' /\
      bs_data bs' ++ pending c' = bs_data bs ++ pending c /\
      delivers c' /\ target <= GetDataSize bs' /\
      conn_deadline_result c' = conn_deadline_result c.
Proof.
  induction fuel as [| fuel IH]; intros target c bs Hgood Hfuel Hroom Hpending;
    [lia |].
  cbn [readLoop].
  assert (Hbuf : GetBuffer bs <> [])
    by (unfold GetBufferSize, GetBuffer in *; destruct (bs_buffer bs);
        [cbn in Hroom; lia | discriminate]).
  assert (Hp : pending c <> [])
    by (destruct (pending c); [cbn in Hpending; lia | discriminate]).
  pose proof (conn_Read_delivers (GetBuffer bs) c Hgood Hbuf Hp) as Hread.
  destruct (conn_Read (GetBuffer bs) c) as [[chunk e] c1].
  destruct Hread as (Hchunk & Hfits & Hstream & Hgood1 & Hdl).
  destruct (Nat.eqb_spec (length chunk) 0) as [Hzero | _].
  { destruct chunk; [congruence | discriminate]. }
  assert (Hsize : GetDataSize (CommitBytes chunk bs)
                  = GetDataSize bs + Z.of_nat (length chunk))
    by (unfold GetDataSize, CommitBytes; cbn; rewrite length_app; lia).
  assert (Hlen : (0 < length chunk)%nat)
    by (destruct chunk; [congruence | cbn; lia]).
  destruct (Z.geb_spec (GetDataSize (CommitBytes chunk bs)) target) as [Hge | Hlt].
  - eexists _, _. split; [reflexivity |].
    assert (Hdata : bs_data (if GetBufferSize (CommitBytes chunk bs) =? 0
                             then ReserveBuffer 1 (CommitBytes chunk bs)
                             else CommitBytes chunk bs)
                    = bs_data bs ++ chunk)
      by (destruct (_ =? 0); rewrite ?ReserveBuffer_data; reflexivity).
    repeat split; try assumption.
    + now rewrite Hdata, <- app_assoc, Hstream.
    + unfold GetDataSize in *. now rewrite Hdata.
  - destruct (IH target c1 (CommitBytes chunk bs) Hgood1) as (c' & bs' & Hrun & Hkept & Hgood' & Htarget & Hdl').
    + lia.
    + unfold GetBufferSize, GetBuffer, CommitBytes in *. cbn.
      rewrite length_drop. lia.
    + apply (f_equal length) in Hstream. rewrite length_app in Hstream. lia.
    + exists c', bs'. repeat split; try assumption; [| congruence].
      rewrite Hkept. cbn. now rewrite <- app_assoc, Hstream.
Qed.

Lemma stream_header (data more payload rest : list byte) :
  Z.of_nat (length payload) < 2 ^ 32 ->
  data ++ more = frame payload ++ rest ->
  (4 <= length data)%nat ->
  Uint32 data = Some (Z.of_nat (length payload)).
Proof.
  intros H32 Hstream Hlen.
  rewrite <- (Uint32_take data 4) by lia.
  rewrite <- (take_app_le data more) by lia.
  rewrite Hstream, Uint32_take by lia. now apply Uint32_frame_front.
Qed.

Lemma stream_packet (data more payload rest : list byte) :
  data ++ more = frame payload ++ rest ->
  (length (frame payload) <= length data)%nat ->
  take (length (frame payload)) data = frame payload.
Proof.
  intros Hstream Hlen.
  rewrite <- (take_app_le data more) by lia.
  rewrite Hstream. apply take_app_length.
Qed.

Section Reassembly.

Variable makeDeadline : Context -> Duration -> Time * option error.

Lemma setReadDeadline_delivers (context_ : Context) (timeout : Duration)
    (t : transport) (c : Conn) :
  snd (makeDeadline context_ timeout) = None ->
  t_connection t = Some c -> conn_deadline_result c = None -> delivers c ->
  exists c1,
    setReadDeadline makeDeadline context_ timeout t = inr c1 /\
    pending c1 = pending c /\ delivers c1 /\ conn_deadline_result c1 = None.
Proof.
  intros Hmd Hconn Hdl Hgood. unfold setReadDeadline, conn_SetReadDeadline.
  destruct (makeDeadline context_ timeout) as [deadline e]. cbn in Hmd. subst e.
  rewrite Hconn, Hdl. eexists. split; [reflexivity |]. repeat split. exact Hgood.
Qed.

Lemma doPeek_packet_delivers (context_ : Context) (timeout : Duration)
    (deadlineIsSet : bool) (t : transport) (p : TransportPolicy) (c : Conn)
    (payload rest : list byte) :
  t_policy t = Some p -> t_connection t = Some c ->
  snd (makeDeadline context_ timeout) = None ->
  conn_deadline_result c = None -> delivers c ->
  Z.of_nat (length payload) < 2 ^ 32 ->
  Z.of_nat (length payload) <= MaxPacketPayloadSize p ->
  packetHeaderSize <= GetDataSize (inputByteStream t) ->
  GetData (inputByteStream t) ++ pending c = frame payload ++ rest ->
  exists t' c',
    doPeek_packet makeDeadline context_ timeout deadlineIsSet t
    = Done t' (frame payload, None) /\
    t_connection t' = Some c' /\ delivers c' /\
    GetData (inputByteStream t') ++ pending c' = frame payload ++ rest /\
    t_policy t' = Some p /\ openness t' = openness t.
Proof.
  intros Hp Hconn Hmd Hdl Hgood H32 Hmax Hheader Hstream.
  unfold GetData, GetDataSize, packetHeaderSize in *.
  assert (Hu : Uint32 (bs_data (inputByteStream t))
               = Some (Z.of_nat (length payload)))
    by (eapply stream_header; [exact H32 | exact Hstream | lia]).
  assert (Hlt : (Z.of_nat (length (bs_data (inputByteStream t))) <? 4) = false)
    by (apply Z.ltb_ge; lia).
  assert (Hgt : (Z.of_nat (length payload) >? MaxPacketPayloadSize p) = false)
    by (rewrite Z.gtb_ltb; apply Z.ltb_ge; lia).
  assert (Htotal : (length (bs_data (inputByteStream t)) + length (pending c)
                    = length (frame payload) + length rest)%nat)
    by (rewrite <- !length_app; now f_equal).
  rewrite length_frame in Htotal.
  unfold doPeek_packet, GetData, GetDataSize, packetHeaderSize.
  rewrite Hlt, Uint32_take, Hu, Hp, Hgt by lia.
  replace (Z.to_nat (4 + Z.of_nat (length payload)))
    with (length (frame payload)) by (rewrite length_frame; lia).
  destruct (Z.geb_spec (4 + Z.of_nat (length payload)
                        - Z.of_nat (length (bs_data (inputByteStream t)))) 1)
    as [Hmore | Hwhole].
  - assert (Harmed : exists c1,
               (if deadlineIsSet
                then match t_connection t with
                     | Some c0 => inr c0
                     | None => inl Panic
                     end
                else setReadDeadline makeDeadline context_ timeout t)
               = inr c1 /\
               pending c1 = pending c /\ delivers c1 /\
               conn_deadline_result c1 = None).
    { destruct deadlineIsSet.
      - rewrite Hconn. exists c. repeat split; assumption.
      - now apply setReadDeadline_delivers. }
    destruct Harmed as (c1 & -> & Hpend1 & Hgood1 & Hdl1).
    set (bufferSize := 4 + Z.of_nat (length payload)
                       - Z.of_nat (length (bs_data (inputByteStream t)))) in *.
    destruct (readLoop_delivers (Z.to_nat bufferSize)
                (4 + Z.of_nat (length payload)) c1
                (ReserveBuffer bufferSize (inputByteStream t)) Hgood1)
      as (c' & bs' & -> & Hkept & Hgood' & Htarget & _).
    + unfold GetDataSize. rewrite ReserveBuffer_data. lia.
    + unfold GetDataSize. rewrite ReserveBuffer_data.
      pose proof (ReserveBuffer_size bufferSize (inputByteStream t)). lia.
    + unfold GetDataSize. rewrite ReserveBuffer_data, Hpend1. lia.
    + rewrite ReserveBuffer_data, Hpend1, Hstream in Hkept.
      exists (set_input c' bs' t), c'. split.
      * do 2 f_equal. eapply stream_packet; [exact Hkept |].
        rewrite length_frame. unfold GetDataSize in Htarget. lia.
      * repeat split; assumption.
  - exists t, c. split.
    + do 2 f_equal. eapply stream_packet; [exact Hstream |].
      rewrite length_frame. lia.
    + repeat split; assumption.
Qed.

(** X10. However the connection cuts the byte stream into reads, [peek] returns
    the first packet's payload.  The input and what the connection has
    still to deliver make up the frame of [payload] followed by [rest]; the
    deadline can be set, every read delivers bytes, and the buffer has room
    for what is missing of the header.  Then [peek] returns [payload], and
    input and connection still make up the same stream. *)
Theorem peek_reassembles (context_ : Context) (timeout : Duration)
    (t : transport) (p : TransportPolicy) (c : Conn)
    (payload rest : list byte)
    (Hopen : isClosed t = false) (Hpolicy : t_policy t = Some p)
    (Hconn : t_connection t = Some c)
    (Hdeadline : snd (makeDeadline context_ timeout) = None)
    (Hsetter : conn_deadline_result c = None)
    (Hdelivers : delivers c)
    (H32 : Z.of_nat (length payload) < 2 ^ 32)
    (Hsize : Z.of_nat (length payload) <= MaxPacketPayloadSize p)
    (Hroom : packetHeaderSize - GetDataSize (inputByteStream t)
             <= GetBufferSize (inputByteStream t))
    (Hstream : GetData (inputByteStream t) ++ pending c = frame payload ++ rest) :
  exists t' c',
    peek makeDeadline context_ timeout t = Done t' (payload, None) /\
    t_connection t' = Some c' /\ delivers c' /\
    GetData (inputByteStream t') ++ pending c' = frame payload ++ rest.
Proof.
  assert (Hdo : exists t' c',
             doPeek makeDeadline context_ timeout t
             = Done t' (frame payload, None) /\
             t_connection t' = Some c' /\ delivers c' /\
             GetData (inputByteStream t') ++ pending c' = frame payload ++ rest).
  { unfold doPeek. rewrite Hopen.
    destruct (Z.ltb_spec (GetDataSize (inputByteStream t)) packetHeaderSize)
      as [Hshort | Hlong].
    - destruct (setReadDeadline_delivers context_ timeout t c
                  Hdeadline Hconn Hsetter Hdelivers)
        as (c1 & -> & Hpend1 & Hgood1 & Hdl1).
      assert (Htotal : (length (GetData (inputByteStream t)) + length (pending c)
                        = length (frame payload) + length rest)%nat)
        by (rewrite <- !length_app; now f_equal).
      rewrite length_frame in Htotal.
      destruct (readLoop_delivers
                  (Z.to_nat (packetHeaderSize - GetDataSize (inputByteStream t)))
                  packetHeaderSize c1 (inputByteStream t) Hgood1)
        as (c2 & bs2 & -> & Hkept & Hgood2 & Htarget & Hdl2).
      + lia.
      + exact Hroom.
      + rewrite Hpend1. unfold GetDataSize, GetData, packetHeaderSize in *. lia.
      + rewrite Hpend1 in Hkept. fold (GetData (inputByteStream t)) in Hkept.
        rewrite Hstream in Hkept.
        destruct (doPeek_packet_delivers context_ timeout true
                    (set_input c2 bs2 t) p c2 payload rest)
          as (t' & c' & Hrun & Hc' & Hgood' & Hkept' & _); try assumption;
          try reflexivity; [congruence |].
        exists t', c'. repeat split; assumption.
    - destruct (doPeek_packet_delivers context_ timeout false t p c payload rest)
        as (t' & c' & Hrun & Hc' & Hgood' & Hkept' & _); try assumption.
      exists t', c'. repeat split; assumption. }
  destruct Hdo as (t' & c' & Hrun & Hrest).
  exists t', c'. split; [| exact Hrest].
  unfold peek. rewrite Hrun, length_frame.
  assert (Hlt : (Z.of_nat (4 + length payload) <? packetHeaderSize) = false)
    by (apply Z.ltb_ge; unfold packetHeaderSize; lia).
  now rewrite Hlt, drop_header_frame.
Qed.

End Reassembly.

Lemma peek_reassembles_witness :
  exists t' c',
    peek sample_makeDeadline (mkContext None None None) 5
      sample_chunked_transport
    = Done t' ([x01; x02; x03], None) /\
    t_connection t' = Some c' /\
    GetData (inputByteStream t') ++ pending c'
    = [x00; x00; x00; x03; x01; x02; x03; x00].
Proof.
  assert (Hgood : delivers sample_chunked_conn)
    by (repeat constructor; discriminate).
  assert (H32 : Z.of_nat (length [x01; x02; x03]) < 2 ^ 32) by reflexivity.
  assert (Hsize : Z.of_nat (length [x01; x02; x03])
                  <= MaxPacketPayloadSize sample_policy)
    by (vm_compute; discriminate).
  assert (Hroom : packetHeaderSize
                  - GetDataSize (inputByteStream sample_chunked_transport)
                  <= GetBufferSize (inputByteStream sample_chunked_transport))
    by (vm_compute; discriminate).
  destruct (peek_reassembles sample_makeDeadline (mkContext None None None) 5
              sample_chunked_transport sample_policy sample_chunked_conn
              [x01; x02; x03] [x00]
              eq_refl eq_refl eq_refl eq_refl eq_refl Hgood H32 Hsize Hroom
              eq_refl)
    as (t' & c' & Hrun & Hconn & _ & Hstream).
  exists t', c'. split; [exact Hrun |]. split; [exact Hconn | exact Hstream].
Defined.

(** * Further properties of the call surface *)

(** ** Chains that are cut short, and chains without a return *)

(** The handler, with the counter at [i], runs the named interceptors up to
    the end of [names] and comes back to itself at the first interceptor
    behind them. *)
Lemma outgoingMethodHandler_prefix (final : OutgoingMethodHandler)
    (names : list string) (others : list OutgoingMethodInterceptor)
    (i_addr : nat) (context_ : CallContext) (request : Message) :
  let interceptors := (named_interceptor <$> names) ++ others in
  forall k i fuel w,
    (i + k = length names)%nat ->
    w_cells w !! i_addr = Some i ->
    outgoingMethodHandler (k + fuel) final interceptors (length interceptors)
      i_addr context_ request w
    = outgoingMethodHandler fuel final interceptors (length interceptors)
        i_addr context_ request
        (add_logs (ev_interceptor <$> drop i names)
           (set_cells (<[i_addr := length names]> (w_cells w)) w)).
Proof.
  cbv zeta. induction k as [| k IH]; intros i fuel w Hik Hcell.
  - assert (i = length names) by lia. subst i.
    rewrite drop_all, list_insert_id by assumption.
    destruct w; unfold add_logs, set_cells; cbn; now rewrite app_nil_r.
  - destruct others as [| other others].
    + rewrite app_nil_r, length_fmap.
      rewrite (outgoingMethodHandler_named final names i_addr context_ request
                 (S k) i (S k + fuel) w Hik ltac:(lia) Hcell).
      symmetry.
      assert (Hcell' : w_cells (add_logs (ev_interceptor <$> drop i names)
                                  (set_cells (<[i_addr := length names]> (w_cells w)) w))
                       !! i_addr = Some (length names)).
      { cbn. apply list_lookup_insert_eq. now apply lookup_lt_Some in Hcell. }
      rewrite (outgoingMethodHandler_named final names i_addr context_ request
                 0 (length names) fuel _ ltac:(lia) ltac:(lia) Hcell').
      f_equal. rewrite drop_all. unfold add_logs, set_cells. cbn.
      now rewrite list_insert_insert_eq, app_nil_r.
    + cbn [Nat.add outgoingMethodHandler]. rewrite Hcell.
      destruct (Nat.eqb_spec i (length ((named_interceptor <$> names)
                                        ++ other :: others))) as [Heq | _].
      { rewrite length_app, length_fmap in Heq. cbn in Heq. lia. }
      destruct (lookup_lt_is_Some_2 names i ltac:(lia)) as [name Hname].
      rewrite lookup_app_l by (rewrite length_fmap; lia).
      rewrite list_lookup_fmap, Hname. cbn [fmap option_fmap option_map].
      unfold named_interceptor at 1.
      rewrite (IH (S i)); [| lia |].
      * f_equal. rewrite (drop_S names name i Hname).
        unfold add_logs, add_log, set_cells. cbn.
        rewrite list_insert_insert_eq, <- app_assoc. reflexivity.
      * cbn. apply list_lookup_insert_eq. now apply lookup_lt_Some in Hcell.
Qed.

(** X11. An interceptor that answers by itself ends the call: the interceptors
    before it have run, in order; the ones behind it have not, whatever
    they are; the request is never handed to the channel and no event is
    waited for.  [callMethod] returns the answer, [callMethodWithoutReturn]
    its error. *)
Theorem interceptor_answer_ends_call
    (impl_callMethod : CallContext -> nat -> Message -> string -> bool -> bool ->
                       World -> Result (option error))
    (names : list string) (name : string) (answer : CallResult)
    (others : list OutgoingMethodInterceptor)
    (context_ : CallContext) (contextVars_ : nat) (request : Message)
    (responseType : string) (autoRetryMethodCall : bool) (w : World) :
  let interceptors :=
    (named_interceptor <$> names)
    ++ answering_interceptor name answer :: others in
  exists w',
    callMethod impl_callMethod interceptors context_ contextVars_ request
      responseType autoRetryMethodCall w
    = Returned answer w' /\
    callMethodWithoutReturn impl_callMethod interceptors context_ contextVars_
      request responseType autoRetryMethodCall w
    = Returned (snd answer) w' /\
    w_log w' = w_log w ++ (ev_interceptor <$> names ++ [name]) /\
    w_store w' = w_store w /\ w_select w' = w_select w /\
    w_ctx_err w' = w_ctx_err w /\ w_rand_pos w' = w_rand_pos w.
Proof.
  cbv zeta.
  set (interceptors := (named_interceptor <$> names)
                       ++ answering_interceptor name answer :: others).
  assert (Hn : length interceptors = (length names + S (length others))%nat)
    by (unfold interceptors; rewrite length_app, length_fmap; reflexivity).
  assert (Hrun : forall final,
             outgoingMethodHandler (length interceptors) final interceptors
               (length interceptors) (length (w_cells w))
               (bindContextVars context_ contextVars_) request
               (set_cells (w_cells w ++ [0%nat]) w)
             = Returned answer
                 (add_log (ev_interceptor name)
                    (set_cells (<[length (w_cells w) := S (length names)]>
                                  (w_cells w ++ [0%nat]))
                       (add_logs (ev_interceptor <$> names) w)))).
  { intros final.
    replace (length interceptors) with (length names + S (length others))%nat
      at 1 by lia.
    unfold interceptors.
    rewrite (outgoingMethodHandler_prefix final names
               (answering_interceptor name answer :: others)
               (length (w_cells w)) _ request (length names) 0%nat);
      [| lia | cbn; rewrite lookup_app_r by lia; now rewrite Nat.sub_diag].
    fold interceptors. cbn [outgoingMethodHandler].
    assert (Hcell : w_cells
                      (add_logs (ev_interceptor <$> drop 0 names)
                         (set_cells
                            (<[length (w_cells w) := length names]>
                               (w_cells (set_cells (w_cells w ++ [0%nat]) w)))
                            (set_cells (w_cells w ++ [0%nat]) w)))
                    !! length (w_cells w) = Some (length names)).
    { cbn. apply list_lookup_insert_eq. rewrite length_app. cbn. lia. }
    rewrite Hcell.
    destruct (Nat.eqb_spec (length names) (length interceptors)); [lia |].
    unfold interceptors at 1.
    rewrite lookup_app_r by (rewrite length_fmap; lia).
    rewrite length_fmap, Nat.sub_diag. cbn [lookup list_lookup].
    unfold answering_interceptor at 1. f_equal.
    unfold add_log, add_logs, set_cells. cbn.
    now rewrite list_insert_insert_eq, drop_0. }
  eexists. split; [| split].
  - unfold callMethod.
    destruct (Nat.eqb_spec (length interceptors) 0); [lia |]. apply Hrun.
  - unfold callMethodWithoutReturn.
    destruct (Nat.eqb_spec (length interceptors) 0); [lia |].
    rewrite Hrun. destruct answer. reflexivity.
  - cbn. rewrite fmap_app, app_assoc. repeat split; reflexivity.
Qed.

(** X12. A chain that ends in [callMethodWithoutReturn] hands the request to the
    channel and returns at once what the channel returns: with interceptors
    that call their continuation once, the result is that of
    [impl.callMethod], called with the empty callback after the
    interceptors have run in order; no [select] is entered. *)
Theorem callMethodWithoutReturn_returns_at_once
    (impl_callMethod : CallContext -> nat -> Message -> string -> bool -> bool ->
                       World -> Result (option error))
    (names : list string)
    (context_ : CallContext) (contextVars_ : nat) (request : Message)
    (responseType : string) (autoRetryMethodCall : bool) (w : World) :
  exists w',
    callMethodWithoutReturn impl_callMethod (named_interceptor <$> names)
      context_ contextVars_ request responseType autoRetryMethodCall w
    = impl_callMethod (bindContextVars context_ contextVars_) contextVars_
        request responseType autoRetryMethodCall false w' /\
    w_log w'
    = w_log w ++ (ev_interceptor <$> names) ++ [ev_callMethod contextVars_ false] /\
    w_store w' = w_store w /\ w_select w' = w_select w /\
    w_ctx_err w' = w_ctx_err w /\ w_rand_pos w' = w_rand_pos w.
Proof.
  unfold callMethodWithoutReturn. rewrite length_fmap.
  destruct names as [| name names].
  - cbn [length Nat.eqb]. unfold doCallMethodWithoutReturn.
    eexists. split; [reflexivity |]. cbn. repeat split; reflexivity.
  - change ((length (name :: names) =? 0)%nat) with false. cbv iota.
    rewrite (outgoingMethodHandler_named _ (name :: names) _ _ _
               (length (name :: names)) 0%nat);
      [| lia | lia | cbn; rewrite lookup_app_r by lia; now rewrite Nat.sub_diag].
    unfold doCallMethodWithoutReturn. eexists. split.
    + match goal with
      | |- context [impl_callMethod ?c ?p ?r ?rt ?ar false ?w0] =>
          transitivity (impl_callMethod c p r rt ar false w0);
          [destruct (impl_callMethod c p r rt ar false w0)
             as [[e |] w1 | | |]; reflexivity
          | reflexivity]
      end.
    + cbn [drop]. cbn. rewrite <- app_assoc. repeat split; reflexivity.
Qed.

(** ** Traces *)

Lemma omap_insert_same {A B : Type} (f : A -> option B) (l : list A)
    (i : nat) (x y : A) :
  l !! i = Some x -> f y = f x -> omap f (<[i := y]> l) = omap f l.
Proof.
  revert i. induction l as [| a l IH]; intros [| i]; try discriminate.
  - intros [= ->] Hf. change (omap f (y :: l) = omap f (x :: l)).
    cbn [omap list_omap]. now rewrite Hf.
  - intros Hi Hf. change (omap f (a :: <[i := y]> l) = omap f (a :: l)).
    cbn [omap list_omap]. now rewrite (IH i Hi Hf).
Qed.

Lemma omap_all_None {A B : Type} (f : A -> option B) (l : list A) :
  Forall (fun x => f x = None) l -> omap f l = [].
Proof. induction 1 as [| x l Hx _ IH]; cbn; [| rewrite Hx]; auto. Qed.

Lemma span_ids_fresh (w : World) :
  store_closed w -> span_ids w (length (w_store w)) = [].
Proof.
  intros Hclosed. unfold span_ids. apply omap_all_None.
  unfold store_closed in Hclosed. rewrite Forall_forall in *.
  intros cv Hcv. specialize (Hclosed cv Hcv).
  destruct (decide (nextSpanID cv = Some (length (w_store w)))) as [Heq |];
    [| reflexivity].
  apply Hclosed in Heq. lia.
Qed.

Lemma wrap32_small (z : Z) : - 2 ^ 31 <= z < 2 ^ 31 -> wrap32 z = z.
Proof. intros H. unfold wrap32. rewrite Z.mod_small; lia. Qed.

Lemma store_closed_grow (w : World) (st : list ContextVars) (cv : ContextVars) :
  length st = length (w_store w) ->
  Forall (fun cv0 => forall k, nextSpanID cv0 = Some k ->
                               (k < length (w_store w))%nat) st ->
  (forall k, nextSpanID cv = Some k -> (k <= length (w_store w))%nat) ->
  forall w0, store_closed (set_store (st ++ [cv]) w0).
Proof.
  intros Hlen Hst Hcv w0. unfold store_closed. cbn [w_store set_store].
  rewrite length_app, Hlen. cbn [length].
  apply Forall_app. split.
  - eapply Forall_impl; [exact Hst |]. cbn. intros cv0 H k Hk.
    specialize (H k Hk). lia.
  - constructor; [| constructor]. intros k Hk. specialize (Hcv k Hk). lia.
Qed.

Lemma span_ids_snoc (w0 : World) (st : list ContextVars) (cv : ContextVars)
    (root : nat) :
  span_ids (set_store (st ++ [cv]) w0) root
  = omap (fun cv0 =>
            if decide (nextSpanID cv0 = Some root)
            then Some (SpanID cv0) else None) st
    ++ (if decide (nextSpanID cv = Some root) then [SpanID cv] else []).
Proof.
  unfold span_ids. cbn [w_store set_store]. rewrite omap_app. f_equal.
  cbn. destruct (decide (nextSpanID cv = Some root)); reflexivity.
Qed.

Lemma span_ids_root_member (w : World) (root : nat) (r : ContextVars) :
  w_store w !! root = Some r -> nextSpanID r = Some root ->
  SpanID r ∈ span_ids w root.
Proof.
  intros Hr Hroot. unfold span_ids. apply list_elem_of_omap.
  exists r. split; [now apply list_elem_of_lookup_2 in Hr |].
  destruct (decide (nextSpanID r = Some root)); [reflexivity | contradiction].
Qed.

(** X13. Calls made one after the other get different span ids within a
    trace.  Every [makeContextVars] is taken here as one step: in the source
    the read of the shared counter and its increment are two plain
    statements, so calls that run at the same time on one trace are not
    covered.  In a store whose counter pointers all lead into it, a root
    call starts a trace in order, with the one span id 1.  A child call,
    made from any call variables of a trace in order whose counter is below
    the largest [int32], gets the counter's value as its span id, different
    from every span id the trace had, and leaves the trace in order.  Both
    leave every other trace as it was, and the counter pointers inside the
    store. *)
Theorem span_ids_unique_in_sequence :
  (forall sub serviceName methodName methodIndex fifoKey extraData
          tryInheritSpan context_ w traceID,
      store_closed w ->
      (tryInheritSpan = false \/
       exists c, context_ = Some c /\ GetContextVars c = None) ->
      w_rand w (w_rand_pos w) = (traceID, None) ->
      exists w',
        makeContextVars sub serviceName methodName methodIndex fifoKey
          extraData tryInheritSpan context_ w
        = Returned (Some (length (w_store w)), None) w' /\
        store_closed w' /\
        span_ids w' (length (w_store w)) = [1] /\
        trace_in_order w' (length (w_store w)) /\
        forall other,
          other <> length (w_store w) ->
          span_ids w' other = span_ids w other /\
          (trace_in_order w other -> trace_in_order w' other)) /\
  (forall sub serviceName methodName methodIndex fifoKey extraData
          c w parent parentContextVars root,
      store_closed w ->
      GetContextVars c = Some parent ->
      w_store w !! parent = Some parentContextVars ->
      nextSpanID parentContextVars = Some root ->
      trace_in_order w root ->
      (forall r, w_store w !! root = Some r ->
                 bufferOfNextSpanID r < 2 ^ 31 - 1) ->
      exists w' id,
        makeContextVars sub serviceName methodName methodIndex fifoKey
          extraData true (Some c) w
        = Returned (Some (length (w_store w)), None) w' /\
        store_closed w' /\
        (SpanID <$> (w_store w' !! length (w_store w))) = Some id /\
        span_ids w' root = span_ids w root ++ [id] /\
        (id ∉ span_ids w root) /\
        trace_in_order w' root /\
        forall other,
          other <> root ->
          span_ids w' other = span_ids w other /\
          (trace_in_order w other -> trace_in_order w' other)).
Proof.
  split.
  - intros sub serviceName methodName methodIndex fifoKey extraData
      tryInheritSpan context_ w traceID Hclosed Hroot Hrand.
    set (new := length (w_store w)).
    set (cv := mkContextVars sub serviceName methodName methodIndex fifoKey
                 extraData traceID 0 1 0 2 (Some new)).
    exists (set_store (w_store w ++ [cv]) (snd (GenerateUUID4 w))).
    split.
    { unfold makeContextVars.
      destruct Hroot as [-> | (c & -> & Hc)].
      - unfold GenerateUUID4. rewrite Hrand. reflexivity.
      - destruct tryInheritSpan; rewrite ?Hc;
          unfold GenerateUUID4; rewrite Hrand; reflexivity. }
    assert (Hnew : span_ids (set_store (w_store w ++ [cv])
                               (snd (GenerateUUID4 w))) new = [1]).
    { rewrite span_ids_snoc. fold (span_ids w new).
      unfold new at 1. rewrite span_ids_fresh by assumption. cbn.
      destruct (decide (Some new = Some new)); [reflexivity | contradiction]. }
    split; [| split; [exact Hnew | split]].
    + apply (store_closed_grow w); [reflexivity | exact Hclosed |].
      intros k [= <-]. reflexivity.
    + exists cv. cbn [w_store set_store].
      split; [rewrite lookup_app_r by lia; unfold new;
              now rewrite Nat.sub_diag |].
      split; [reflexivity |]. rewrite Hnew. cbn.
      split; [repeat constructor; lia |].
      apply NoDup_singleton.
    + intros other Hother.
      assert (Hsame : span_ids (set_store (w_store w ++ [cv])
                                  (snd (GenerateUUID4 w))) other
                      = span_ids w other).
      { rewrite span_ids_snoc. fold (span_ids w other). cbn.
        destruct (decide (Some new = Some other)) as [[= Heq] |];
          [congruence | apply app_nil_r]. }
      split; [exact Hsame |].
      intros (r & Hr & Hptr & Hall & Hdup). exists r. rewrite Hsame.
      cbn [w_store set_store]. repeat split; try assumption.
      rewrite lookup_app_l; [exact Hr | now apply lookup_lt_Some in Hr].
  - intros sub serviceName methodName methodIndex fifoKey extraData
      c w parent parentContextVars root Hclosed Hc Hparent Hptr
      (r & Hr & Hrptr & Hall & Hdup) Hbelow.
    specialize (Hbelow r Hr).
    pose proof (lookup_lt_Some _ _ _ Hr) as Hlt.
    pose proof (span_ids_root_member w root r Hr Hrptr) as Hmember.
    assert (Hrange : 1 <= SpanID r < bufferOfNextSpanID r)
      by (rewrite Forall_forall in Hall; now apply Hall).
    set (id := bufferOfNextSpanID r) in *.
    set (cv := mkContextVars sub serviceName methodName methodIndex fifoKey
                 extraData (TraceID parentContextVars)
                 (SpanID parentContextVars) id 0 0 (Some root)).
    set (r' := set_bufferOfNextSpanID (wrap32 (id + 1)) r).
    exists (set_store (<[root := r']> (w_store w) ++ [cv]) w), id.
    split.
    { unfold makeContextVars. rewrite Hc, Hparent, Hptr, Hr, length_insert.
      reflexivity. }
    assert (Hids : forall other,
               span_ids (set_store (<[root := r']> (w_store w) ++ [cv]) w) other
               = span_ids w other
                 ++ (if decide (Some root = Some other) then [id] else [])).
    { intros other. rewrite span_ids_snoc. f_equal.
      unfold span_ids. now apply (omap_insert_same _ _ _ r). }
    assert (Hfresh : id ∉ span_ids w root).
    { intros Hin. rewrite Forall_forall in Hall. apply Hall in Hin. lia. }
    assert (Hnew : span_ids (set_store (<[root := r']> (w_store w) ++ [cv]) w)
                     root
                   = span_ids w root ++ [id]).
    { rewrite Hids. destruct (decide (Some root = Some root));
        [reflexivity | contradiction]. }
    split; [| split; [| split; [exact Hnew | split; [exact Hfresh | split]]]].
    + apply (store_closed_grow w); [apply length_insert | |].
      * apply Forall_insert; [exact Hclosed |].
        intros k Hk. cbn in Hk. rewrite Hrptr in Hk. injection Hk as <-. exact Hlt.
      * intros k [= <-]. lia.
    + cbn [w_store set_store].
      rewrite lookup_app_r by (rewrite length_insert; lia).
      now rewrite length_insert, Nat.sub_diag.
    + exists r'. cbn [w_store set_store].
      split; [rewrite lookup_app_l by (rewrite length_insert; lia);
              now apply list_lookup_insert_eq |].
      split; [exact Hrptr |]. rewrite Hnew.
      unfold r'. cbn [bufferOfNextSpanID set_bufferOfNextSpanID].
      rewrite wrap32_small by lia.
      split.
      * apply Forall_app. split.
        -- eapply Forall_impl; [exact Hall |]. cbn. intros; lia.
        -- repeat constructor; lia.
      * apply NoDup_app. repeat split; [exact Hdup | | apply NoDup_singleton].
        intros x Hx Hx'. apply list_elem_of_singleton in Hx'. subst x.
        contradiction.
    + intros other Hother.
      assert (Hsame : span_ids (set_store (<[root := r']> (w_store w) ++ [cv]) w)
                        other
                      = span_ids w other).
      { rewrite Hids. destruct (decide (Some root = Some other)) as [[= Heq] |];
          [congruence | apply app_nil_r]. }
      split; [exact Hsame |].
      intros (ro & Hro & Hoptr & Hoall & Hodup). exists ro. rewrite Hsame.
      cbn [w_store set_store]. repeat split; try assumption.
      rewrite lookup_app_l
        by (rewrite length_insert; now apply lookup_lt_Some in Hro).
      rewrite list_lookup_insert_ne by congruence. exact Hro.
Qed.

Lemma span_ids_unique_in_sequence_witness :
  exists w',
    makeContextVars (ClientChannelRef 0) "svc" "m" 0 "" ∅ true
      (Some (ctx_WithValue (ctx_base 0) 0)) sample_world
    = Returned (Some 1%nat, None) w' /\
    span_ids w' 0 = [1; 2] /\ trace_in_order w' 0.
Proof.
  assert (Hclosed : store_closed sample_world).
  { constructor; [| constructor]. intros k0 [= <-]. cbn. lia. }
  assert (Htrace : trace_in_order sample_world 0).
  { eexists. split; [reflexivity |]. split; [reflexivity |].
    split; [repeat constructor; cbn; lia | apply NoDup_singleton]. }
  assert (Hbelow : forall r, w_store sample_world !! 0%nat = Some r ->
                             bufferOfNextSpanID r < 2 ^ 31 - 1).
  { intros r [= <-]. reflexivity. }
  destruct (proj2 span_ids_unique_in_sequence (ClientChannelRef 0) "svc"%string "m"%string
              0 ""%string ∅ (ctx_WithValue (ctx_base 0) 0) sample_world 0%nat
              _ 0%nat Hclosed eq_refl eq_refl eq_refl Htrace Hbelow)
    as (w' & id & Hrun & _ & Hid & Hids & _ & Hin & _).
  exists w'. split; [exact Hrun |]. split; [| exact Hin].
  rewrite Hids. f_equal. f_equal.
  assert (Hw' : makeContextVars (ClientChannelRef 0) "svc" "m" 0 "" ∅ true
                  (Some (ctx_WithValue (ctx_base 0) 0)) sample_world
                = Returned (Some 1%nat, None) _) by reflexivity.
  rewrite Hw' in Hrun. injection Hrun as <-. cbn in Hid. congruence.
Defined.

(** ** Calls that fail before they start, and calls inside calls *)

(** X14. When the trace id cannot be generated the call is over before it
    starts: [CallMethodWithoutReturn], and [CallMethod] under a context that
    binds no call variables, return the generator's error; no call
    variables are stored, no interceptor runs, nothing is handed to the
    channel. *)
Theorem trace_id_failure_ends_call
    (impl_callMethod : CallContext -> nat -> Message -> string -> bool -> bool ->
                       World -> Result (option error))
    (client : ClientChannel) (server : ServerChannel)
    (context_ : CallContext) (serviceName methodName : string)
    (methodIndex : Z) (fifoKey : string) (extraData : gmap string (list byte))
    (request : Message) (responseType : string) (autoRetryMethodCall : bool)
    (w : World) (traceID : UUID) (e : error)
    (Hrand : w_rand w (w_rand_pos w) = (traceID, Some e)) :
  let w' := snd (GenerateUUID4 w) in
  w_store w' = w_store w /\ w_log w' = w_log w /\ w_select w' = w_select w /\
  ClientChannel_CallMethodWithoutReturn impl_callMethod client context_
    serviceName methodName methodIndex fifoKey extraData request responseType
    autoRetryMethodCall w
  = Returned (Some e) w' /\
  ServerChannel_CallMethodWithoutReturn impl_callMethod server context_
    serviceName methodName methodIndex fifoKey extraData request responseType
    autoRetryMethodCall w
  = Returned (Some e) w' /\
  (GetContextVars context_ = None ->
   ClientChannel_CallMethod impl_callMethod client context_
     serviceName methodName methodIndex fifoKey extraData request responseType
     autoRetryMethodCall w
   = Returned (None, Some e) w' /\
   ServerChannel_CallMethod impl_callMethod server context_
     serviceName methodName methodIndex fifoKey extraData request responseType
     autoRetryMethodCall w
   = Returned (None, Some e) w').
Proof.
  cbv zeta.
  unfold ClientChannel_CallMethodWithoutReturn,
    ServerChannel_CallMethodWithoutReturn, ClientChannel_CallMethod,
    ServerChannel_CallMethod, CallMethodWithoutReturn_on, CallMethod_on,
    makeContextVars, GenerateUUID4.
  rewrite Hrand. cbn [snd w_store w_log w_select].
  repeat split; intros; try rewrite H; reflexivity.
Qed.

Lemma trace_id_failure_ends_call_witness :
  ClientChannel_CallMethod sample_impl_callMethod
    (mkClientChannel 7 (named_policy {[ ""%string := ["audit"%string] ]}))
    (ctx_base 0) "svc" "m" 0 "" ∅ [] "Reply" false sample_failing_world
  = Returned (None, Some (other_error "entropy"))
      (snd (GenerateUUID4 sample_failing_world)).
Proof.
  apply (trace_id_failure_ends_call sample_impl_callMethod
           (mkClientChannel 7 (named_policy {[ ""%string := ["audit"%string] ]}))
           (mkServerChannel 8 (mkChannelPolicy ∅))
           (ctx_base 0) "svc" "m" 0 "" ∅ [] "Reply" false sample_failing_world
           [] (other_error "entropy") eq_refl).
  reflexivity.
Defined.

(** X15. A call made with the context a call hands on is its child.
    [CallMethod], on a client or a server channel, under a context bound to
    the call variables at [parent], goes on to [callMethod] with call
    variables that carry the parent's trace id, the parent's span id as
    [SpanParentID], and the value [next] of the trace's counter as span id;
    the counter is one higher afterwards (in [int32] arithmetic) and no
    trace id is generated.  The context handed on to the interceptors is
    bound to the new call variables, so calls made from there are children
    in turn. *)
Theorem nested_call_is_child
    (impl_callMethod : CallContext -> nat -> Message -> string -> bool -> bool ->
                       World -> Result (option error))
    (client : ClientChannel) (server : ServerChannel)
    (context_ : CallContext) (parent : nat) (parentContextVars : ContextVars)
    (serviceName methodName : string)
    (methodIndex : Z) (fifoKey : string) (extraData : gmap string (list byte))
    (request : Message) (responseType : string) (autoRetryMethodCall : bool)
    (w : World) (counter : nat) (holder : ContextVars)
    (Hparent : w_store w !! parent = Some parentContextVars)
    (Hcounter : nextSpanID parentContextVars = Some counter)
    (Hholder : w_store w !! counter = Some holder) :
  let p := length (w_store w) in
  let child sub :=
    mkContextVars sub serviceName methodName methodIndex fifoKey extraData
      (TraceID parentContextVars) (SpanID parentContextVars)
      (bufferOfNextSpanID holder) 0 0 (Some counter) in
  let w1 sub :=
    set_store
      (<[counter := set_bufferOfNextSpanID
                      (wrap32 (bufferOfNextSpanID holder + 1)) holder]>
         (w_store w) ++ [child sub]) w in
  ClientChannel_CallMethod impl_callMethod client
    (bindContextVars context_ parent)
    serviceName methodName methodIndex fifoKey extraData request responseType
    autoRetryMethodCall w
  = callMethod impl_callMethod
      (makeOutgoingMethodInterceptors (cc_policy client)
         (child (ClientChannelRef (cc_id client))))
      (bindContextVars context_ parent) p request responseType
      autoRetryMethodCall (w1 (ClientChannelRef (cc_id client))) /\
  ServerChannel_CallMethod impl_callMethod server
    (bindContextVars context_ parent)
    serviceName methodName methodIndex fifoKey extraData request responseType
    autoRetryMethodCall w
  = callMethod impl_callMethod
      (makeOutgoingMethodInterceptors (sc_policy server)
         (child (ServerChannelRef (sc_id server))))
      (bindContextVars context_ parent) p request responseType
      autoRetryMethodCall (w1 (ServerChannelRef (sc_id server))) /\
  GetContextVars (bindContextVars (bindContextVars context_ parent) p) = Some p.
Proof.
  cbv zeta.
  unfold ClientChannel_CallMethod, ServerChannel_CallMethod, CallMethod_on,
    makeContextVars.
  cbn [bindContextVars GetContextVars].
  rewrite Hparent, Hcounter, Hholder, length_insert.
  cbn [w_store set_store].
  rewrite !lookup_app_r by (rewrite length_insert; lia).
  rewrite length_insert, Nat.sub_diag. cbn [lookup list_lookup].
  repeat split; reflexivity.
Qed.

Lemma nested_call_is_child_witness :
  exists w',
    ClientChannel_CallMethod sample_impl_callMethod
      (mkClientChannel 7 (mkChannelPolicy ∅))
      (bindContextVars (ctx_base 0) 0) "svc" "m" 0 "" ∅ [] "Reply" false
      (set_select [CallbackDelivers [x2a] 0 "" []] sample_world)
    = Returned (Some [x2a], None) w' /\
    (SpanParentID <$> (w_store w' !! 1%nat)) = Some 1 /\
    (SpanID <$> (w_store w' !! 1%nat)) = Some 2.
Proof.
  eexists. split.
  - rewrite (proj1 (nested_call_is_child sample_impl_callMethod
                      (mkClientChannel 7 (mkChannelPolicy ∅))
                      (mkServerChannel 8 (mkChannelPolicy ∅))
                      (ctx_base 0) 0%nat _ "svc" "m" 0 "" ∅ [] "Reply" false
                      (set_select [CallbackDelivers [x2a] 0 "" []] sample_world)
                      0%nat _ eq_refl eq_refl eq_refl)).
    reflexivity.
  - split; reflexivity.
Defined.

(** ** Responses and errors *)

Lemma doCallMethod_no_response_with_error
    (impl_callMethod : CallContext -> nat -> Message -> string -> bool -> bool ->
                       World -> Result (option error))
    (context_ : CallContext) (contextVars_ : nat) (request : Message)
    (responseType : string) (autoRetryMethodCall : bool)
    (w w' : World) (response : Message) (err : option error) :
  doCallMethod impl_callMethod context_ contextVars_ request responseType
    autoRetryMethodCall w
  = Returned (Some response, err) w' ->
  err = None.
Proof.
  unfold doCallMethod.
  destruct (impl_callMethod _ _ _ _ _ _ _) as [[e |] w1 | | |];
    try discriminate.
  destruct (w_select w1) as [| [response2 errorCode errorDesc errorData | reason] rest];
    try discriminate.
  destruct (negb (errorCode =? 0)); [discriminate |]. now intros [= _ <- _].
Qed.

(** X16. [CallMethod] never returns a response together with an error.  This
    holds for [doCallMethod] whatever the channel does with the call and
    whatever event ends the wait, and for [CallMethod] on a client or a
    server channel whose interceptors call their continuation once. *)
Theorem no_response_with_error
    (impl_callMethod : CallContext -> nat -> Message -> string -> bool -> bool ->
                       World -> Result (option error))
    (w w' : World) (response : Message) (err : option error) :
  (forall context_ contextVars_ request responseType autoRetryMethodCall,
      doCallMethod impl_callMethod context_ contextVars_ request responseType
        autoRetryMethodCall w
      = Returned (Some response, err) w' ->
      err = None) /\
  (forall id registry context_ serviceName methodName methodIndex fifoKey
          extraData request responseType autoRetryMethodCall,
      (ClientChannel_CallMethod impl_callMethod
         (mkClientChannel id (named_policy registry)) context_
         serviceName methodName methodIndex fifoKey extraData request
         responseType autoRetryMethodCall w
       = Returned (Some response, err) w' \/
       ServerChannel_CallMethod impl_callMethod
         (mkServerChannel id (named_policy registry)) context_
         serviceName methodName methodIndex fifoKey extraData request
         responseType autoRetryMethodCall w
       = Returned (Some response, err) w') ->
      err = None).
Proof.
  split.
  - intros context_ contextVars_ request responseType autoRetryMethodCall.
    apply doCallMethod_no_response_with_error.
  - intros id registry context_ serviceName methodName methodIndex fifoKey
      extraData request responseType autoRetryMethodCall.
    assert (Hon : forall sub,
               CallMethod_on impl_callMethod sub (named_policy registry)
                 context_ serviceName methodName methodIndex fifoKey extraData
                 request responseType autoRetryMethodCall w
               = Returned (Some response, err) w' ->
               err = None).
    { intros sub. unfold CallMethod_on.
      destruct (makeContextVars _ _ _ _ _ _ _ _ _)
        as [[[contextVars_ |] [e |]] w1 | | |]; try discriminate.
      destruct (w_store w1 !! contextVars_) as [cv |]; [| discriminate].
      rewrite makeOutgoingMethodInterceptors_eq, !interceptorsAt_named.
      replace (named_interceptors (namesAt registry "") ++
               named_interceptors (namesAt registry (ServiceName cv)) ++
               (if MethodIndex cv >=? 0
                then named_interceptors
                       (namesAt registry
                          (makeMethodInterceptorLocator (ServiceName cv)
                             (MethodIndex cv)))
                else []))
        with (named_interceptor <$>
                namesAt registry "" ++ namesAt registry (ServiceName cv)
                ++ (if MethodIndex cv >=? 0
                    then namesAt registry
                           (makeMethodInterceptorLocator (ServiceName cv)
                              (MethodIndex cv))
                    else []))
        by (unfold named_interceptors; rewrite !fmap_app;
            destruct (MethodIndex cv >=? 0); reflexivity).
      destruct (callMethod_named impl_callMethod
                  (namesAt registry "" ++ namesAt registry (ServiceName cv)
                   ++ (if MethodIndex cv >=? 0
                       then namesAt registry
                              (makeMethodInterceptorLocator (ServiceName cv)
                                 (MethodIndex cv))
                       else []))
                  context_ contextVars_ request responseType
                  autoRetryMethodCall w1) as (w2 & -> & _).
      apply doCallMethod_no_response_with_error. }
    intros [H | H]; revert H; apply Hon.
Qed.

(** ** The end of the dialing loop *)

Lemma Run_loop_breaks (script : list attempt) :
  forall trace trace' err,
    Run_loop script trace = Some (trace', err) ->
    exists pre a rest,
      script = pre ++ a :: rest /\
      Forall (fun a' => snd (Run_iteration a') = Continue) pre /\
      snd (Run_iteration a) = Break err /\
      trace' = trace ++ concat (map (fun a' => fst (Run_iteration a')) pre)
               ++ fst (Run_iteration a).
Proof.
  induction script as [| a script IH]; intros trace trace' err; [discriminate |].
  cbn [Run_loop]. destruct (Run_iteration a) as [evs [| e]] eqn:Ha.
  - intros H. apply IH in H.
    destruct H as (pre & b & rest & -> & Hpre & Hb & ->).
    exists (a :: pre), b, rest. repeat split.
    + constructor; [now rewrite Ha | exact Hpre].
    + exact Hb.
    + cbn. rewrite Ha. cbn. now rewrite <- !app_assoc.
  - intros [= <- <-]. exists [], a, script. rewrite Ha. cbn.
    repeat split. constructor.
Qed.

Lemma Run_iteration_events (a : attempt) :
  Forall (fun ev => ev <> ev_close /\ ev <> ev_GC) (fst (Run_iteration a)).
Proof.
  unfold Run_iteration. destruct (att_GetValue a) as [addr [e |]];
    [| destruct (att_connect a); [| destruct (att_dispatch a)]];
    cbn; repeat constructor; discriminate.
Qed.

Lemma classify_Break_inv (e err : error) :
  classify e = Break err -> err = e /\ ~ retryable e.
Proof.
  intros H. destruct (classify e) eqn:Hc; [discriminate |].
  assert (Hn : ~ retryable e)
    by (intros Hr; apply classify_Continue in Hr; congruence).
  rewrite (classify_Break e Hn) in Hc. split; [congruence | exact Hn].
Qed.

Lemma Run_iteration_Break (a : attempt) (err : error) :
  snd (Run_iteration a) = Break err ->
  snd (att_GetValue a) = Some err \/ (fails_with a err /\ ~ retryable err).
Proof.
  unfold Run_iteration, fails_with.
  destruct (att_GetValue a) as [addr [e |]]; cbn.
  - intros [= <-]. now left.
  - destruct (att_connect a) as [e |]; cbn.
    + intros H. apply classify_Break_inv in H. destruct H as [-> Hn].
      right. auto.
    + destruct (att_dispatch a) as [e |]; cbn; [| discriminate].
      intros H. apply classify_Break_inv in H. destruct H as [-> Hn].
      right. auto.
Qed.

(** X17. Once in its loop, [Run] returns only with an error: it leaves the loop
    at the first round that cannot draw an address or that fails with an
    error that is neither [io.EOF] nor a [*net.OpError]; it returns that
    error, never nil, and the rounds behind that one are never started.  It
    closes the channel and releases the address pool once, after the
    loop. *)
Theorem Run_ends_with_error (script : list attempt) (trace : list RunEvent)
    (e : option error)
    (Hrun : ClientChannel_Run false script = Some (trace, e)) :
  exists err pre a rest,
    e = Some err /\
    script = pre ++ a :: rest /\
    Forall (fun a' => snd (Run_iteration a') = Continue) pre /\
    (snd (att_GetValue a) = Some err \/ (fails_with a err /\ ~ retryable err)) /\
    ClientChannel_Run false (pre ++ [a]) = Some (trace, e) /\
    exists rounds,
      trace = rounds ++ [ev_close; ev_GC] /\
      Forall (fun ev => ev <> ev_close /\ ev <> ev_GC) rounds.
Proof.
  unfold ClientChannel_Run in Hrun.
  destruct (Run_loop script []) as [[trace' err] |] eqn:Hloop; [| discriminate].
  injection Hrun as <- <-.
  destruct (Run_loop_breaks _ _ _ _ Hloop) as (pre & a & rest & -> & Hpre & Ha & ->).
  exists err, pre, a, rest. repeat split; try assumption.
  - now apply Run_iteration_Break.
  - unfold ClientChannel_Run. rewrite (Run_loop_app pre [a] [] Hpre).
    cbn [Run_loop]. destruct (Run_iteration a) as [evs c]. cbn in Ha. subst c.
    reflexivity.
  - eexists. split; [reflexivity |]. cbn [app].
    apply Forall_app. split; [| apply Run_iteration_events].
    apply Forall_concat. rewrite Forall_map. rewrite Forall_forall.
    intros a' _. apply Run_iteration_events.
Qed.

Lemma Run_ends_with_error_witness :
  exists err pre a rest,
    Some (other_error "handshake") = Some err /\
    [ mkAttempt ("a:1"%string, None) (Some io_EOF) None;
      mkAttempt ("a:2"%string, None) None (Some (other_error "handshake"));
      mkAttempt ("a:3"%string, None) None None ]
    = pre ++ a :: rest /\
    Forall (fun a' => snd (Run_iteration a') = Continue) pre /\
    (fails_with a err /\ ~ retryable err).
Proof.
  destruct (Run_ends_with_error
              [ mkAttempt ("a:1"%string, None) (Some io_EOF) None;
                mkAttempt ("a:2"%string, None) None
                  (Some (other_error "handshake"));
                mkAttempt ("a:3"%string, None) None None ]
              _ _ eq_refl)
    as (err & pre & a & rest & He & Hscript & Hpre & Hwhy & _).
  exists err, pre, a, rest. split; [exact He |]. split; [exact Hscript |].
  split; [exact Hpre |].
  destruct Hwhy as [Hget | Hfail]; [| exact Hfail].
  exfalso.
  assert (Hall : Forall (fun a' => snd (att_GetValue a') = None)
                   (pre ++ a :: rest))
    by (rewrite <- Hscript; repeat constructor).
  apply Forall_app in Hall. destruct Hall as [_ Hall].
  inversion Hall as [| ? ? Ha _]; subst. congruence.
Defined.

Lemma no_response_with_error_witness :
  exists w',
    ClientChannel_CallMethod sample_impl_callMethod
      (mkClientChannel 7 (named_policy {[ ""%string := ["audit"%string] ]}))
      (ctx_base 0) "svc" "m" 0 "" ∅ [] "Reply" false
      (set_select [CallbackDelivers [x2a] 0 "" []] sample_world)
    = Returned (Some [x2a], None) w' /\
    @None error = None.
Proof.
  eexists. split; [reflexivity |].
  eapply (proj2 (no_response_with_error sample_impl_callMethod
                   (set_select [CallbackDelivers [x2a] 0 "" []] sample_world)
                   _ [x2a] None)
            7%nat {[ ""%string := ["audit"%string] ]} (ctx_base 0)
            "svc"%string "m"%string 0 ""%string ∅ [] "Reply"%string false).
  left. reflexivity.
Defined.

Lemma round_goes_on_Continue (a : attempt) :
  round_goes_on a -> snd (Run_iteration a) = Continue.
Proof.
  unfold round_goes_on, Run_iteration.
  destruct (att_GetValue a) as [addr g]. cbn. intros (-> & Hc & Hd).
  destruct (att_connect a) as [e |]; cbn.
  - apply classify_Continue. now apply Hc.
  - destruct (att_dispatch a) as [e |]; cbn; [| reflexivity].
    apply classify_Continue. now apply Hd.
Qed.

(** X18. [Run] does not give up: however many rounds fail with [io.EOF] or a
    [*net.OpError], and also after a [dispatch] that ends with nil, it goes
    on to the next round.  While addresses can be drawn and nothing else
    fails, it has neither returned nor closed the channel, and it has tried
    to connect once in every round, to the address drawn in that round. *)
Theorem Run_retries_without_bound (script : list attempt)
    (Hrounds : Forall round_goes_on script) :
  ClientChannel_Run false script = None /\
  exists trace,
    (forall rest, Run_loop (script ++ rest) [] = Run_loop rest trace) /\
    Forall (fun ev => ev <> ev_close /\ ev <> ev_GC) trace /\
    connected_addresses trace = (fun a => fst (att_GetValue a)) <$> script.
Proof.
  assert (Hcont : Forall (fun a => snd (Run_iteration a) = Continue) script)
    by (eapply Forall_impl; [exact Hrounds | apply round_goes_on_Continue]).
  split.
  - unfold ClientChannel_Run.
    rewrite <- (app_nil_r script), (Run_loop_app script [] [] Hcont).
    reflexivity.
  - exists (concat (map (fun a => fst (Run_iteration a)) script)).
    split; [| split].
    + intros rest. now rewrite (Run_loop_app script rest [] Hcont).
    + apply Forall_concat. rewrite Forall_map, Forall_forall.
      intros a _. apply Run_iteration_events.
    + clear Hcont. induction Hrounds as [| a script Ha _ IH]; [reflexivity |].
      cbn [map concat fmap list_fmap]. unfold connected_addresses in *.
      rewrite omap_app, IH. f_equal.
      destruct Ha as (Hget & _). unfold Run_iteration.
      destruct (att_GetValue a) as [addr g]. cbn in Hget. subst g.
      destruct (att_connect a); [| destruct (att_dispatch a)]; reflexivity.
Qed.

Lemma Run_retries_without_bound_witness :
  ClientChannel_Run false
    [ mkAttempt ("a:1"%string, None) (Some io_EOF) None;
      mkAttempt ("a:2"%string, None) None (Some (net_OpError "read"));
      mkAttempt ("a:1"%string, None) None None ]
  = None.
Proof.
  apply Run_retries_without_bound.
  assert (Hround : forall a,
             snd (att_GetValue a) = None ->
             match att_connect a with
             | Some e => retryable e
             | None => match att_dispatch a with
                       | Some e => retryable e
                       | None => True
                       end
             end ->
             round_goes_on a).
  { intros a Hget Hfail. split; [exact Hget |]. split.
    - intros e He. now rewrite He in Hfail.
    - intros Hc e He. now rewrite Hc, He in Hfail. }
  apply List.Forall_cons; [apply Hround; [reflexivity | now left] |].
  apply List.Forall_cons; [apply Hround; [reflexivity | right; eauto] |].
  apply List.Forall_cons; [apply Hround; [reflexivity | exact I] |].
  apply List.Forall_nil.
Defined.

(** * Further properties of messages, errors and servers *)

(** ** [RawMessage] *)

Lemma copy_fits (dst src : list byte) :
  (length src <= length dst)%nat ->
  copy dst src = (src ++ drop (length src) dst, Z.of_nat (length src)).
Proof.
  intros Hfit. unfold copy. rewrite Nat.min_r by exact Hfit.
  now rewrite firstn_all.
Qed.

Lemma Unmarshal_copies (data : list byte) (old : RawMessage) :
  RawMessage_Unmarshal data old = (data, None).
Proof.
  unfold RawMessage_Unmarshal. rewrite copy_fits
    by (rewrite length_replicate; lia).
  cbn [fst]. rewrite drop_ge by (rewrite length_replicate; lia).
  now rewrite app_nil_r.
Qed.

(** X19. A raw message carries bytes through unchanged.  After [Unmarshal] of
    [data], whatever the message held before, [Size] is the length of
    [data], and [MarshalTo] into a buffer of at least that size writes
    exactly [data] at its start, leaves the rest of the buffer alone, and
    returns the length of [data] and no error. *)
Theorem RawMessage_round_trip (data : list byte) (old : RawMessage)
    (buffer : list byte)
    (Hfit : RawMessage_Size (fst (RawMessage_Unmarshal data old))
            <= Z.of_nat (length buffer)) :
  snd (RawMessage_Unmarshal data old) = None /\
  RawMessage_Size (fst (RawMessage_Unmarshal data old))
  = Z.of_nat (length data) /\
  exists buffer',
    RawMessage_MarshalTo buffer (fst (RawMessage_Unmarshal data old))
    = (buffer', Z.of_nat (length data), None) /\
    take (length data) buffer' = data /\
    drop (length data) buffer' = drop (length data) buffer /\
    length buffer' = length buffer.
Proof.
  rewrite Unmarshal_copies in *. cbn [fst snd] in *.
  unfold RawMessage_Size in *.
  split; [reflexivity |]. split; [reflexivity |].
  exists (data ++ drop (length data) buffer).
  unfold RawMessage_MarshalTo. rewrite copy_fits by lia.
  split; [reflexivity |]. split; [| split].
  - now rewrite take_app_length.
  - now rewrite drop_app_length.
  - rewrite length_app, length_drop. lia.
Qed.

Lemma RawMessage_round_trip_witness :
  RawMessage_MarshalTo [x00; x00; x00; x00] (fst (RawMessage_Unmarshal [x01; x02; x03] [x09]))
  = ([x01; x02; x03; x00], 3, None).
Proof.
  destruct (RawMessage_round_trip [x01; x02; x03] [x09] [x00; x00; x00; x00])
    as (_ & _ & buffer' & Hmarshal & _).
  - vm_compute. discriminate.
  - reflexivity.
Defined.

(** X20. [MarshalTo] never reports an error: into a buffer shorter than [Size]
    it writes only the first bytes of the message, as many as the buffer
    holds, and returns that smaller count with a nil error. *)
Theorem RawMessage_MarshalTo_truncates (self : RawMessage)
    (buffer : list byte)
    (Hshort : Z.of_nat (length buffer) < RawMessage_Size self) :
  RawMessage_MarshalTo buffer self
  = (take (length buffer) self, Z.of_nat (length buffer), None) /\
  Z.of_nat (length buffer) < RawMessage_Size self.
Proof.
  split; [| exact Hshort].
  unfold RawMessage_Size in Hshort.
  unfold RawMessage_MarshalTo, copy.
  rewrite Nat.min_l by lia.
  rewrite drop_all. now rewrite app_nil_r.
Qed.

Lemma RawMessage_MarshalTo_truncates_witness :
  RawMessage_MarshalTo [x00; x00] [x01; x02; x03] = ([x01; x02], 2, None).
Proof.
  apply (RawMessage_MarshalTo_truncates [x01; x02; x03] [x00; x00]).
  vm_compute. reflexivity.
Defined.

(** ** [HangupError] *)

Lemma pretty_N_go_no_space (x : N) (s : string) :
  has_space s = false -> has_space (pretty_N_go x s) = false.
Proof.
  revert s. induction (N.lt_wf_0 x) as [x _ IH]. intros s Hs.
  assert (x = 0 \/ 0 < x)%N as [-> | Hpos] by lia.
  - now rewrite pretty_N_go_0.
  - rewrite pretty_N_go_step by exact Hpos. apply IH.
    + now apply N.div_lt.
    + cbn [has_space]. rewrite Hs.
      unfold pretty_N_char.
      repeat case_match; try reflexivity; discriminate.
Qed.

Lemma pretty_N_no_space (x : N) : has_space (pretty x) = false.
Proof.
  unfold pretty, pretty_N. case_decide; [reflexivity |].
  now apply pretty_N_go_no_space.
Qed.

Lemma pretty_Z_no_space (z : Z) : has_space (pretty z) = false.
Proof.
  destruct z as [| p | p]; unfold pretty, pretty_Z.
  - reflexivity.
  - apply pretty_N_no_space.
  - cbn [String.append has_space]. apply pretty_N_no_space.
Qed.

Lemma split_at_space (a b x y : string) :
  has_space a = false -> has_space b = false ->
  a +:+ String " " x = b +:+ String " " y -> a = b /\ x = y.
Proof.
  revert b. induction a as [| c a IH]; intros [| d b] Ha Hb Heq;
    cbn [String.append has_space] in *.
  - injection Heq as ->. now split.
  - injection Heq as <- _. now rewrite decide_True in Hb by reflexivity.
  - injection Heq as -> _. now rewrite decide_True in Ha by reflexivity.
  - injection Heq as -> Heq.
    destruct (decide (d = " "%char)); [discriminate |].
    destruct (IH b Ha Hb Heq) as [-> ->]. now split.
Qed.

Lemma append_assoc (s1 s2 s3 : string) :
  (s1 +:+ s2) +:+ s3 = s1 +:+ (s2 +:+ s3).
Proof.
  induction s1 as [| c s1 IH]; [reflexivity |].
  change (String c ((s1 +:+ s2) +:+ s3) = String c (s1 +:+ (s2 +:+ s3))).
  now rewrite IH.
Qed.

Section HangupErrorMessages.

Variables HangupErrorAborted HangupErrorBadIncomingPacket
  HangupErrorTooManyIncomingRequests HangupErrorOutgoingPacketTooLarge
  HangupErrorSystem : Z.

(** X21. The message of a hangup error tells its code and its direction, and
    nothing else: two hangup errors with the same message have the same code
    and both are passive or both are active, whatever their extra data; a
    code without a name of its own is told by its decimal digits. *)
Theorem HangupError_Error_injective (h1 h2 : HangupError)
    (Hsame :
       HangupError_Error HangupErrorAborted HangupErrorBadIncomingPacket
         HangupErrorTooManyIncomingRequests
         HangupErrorOutgoingPacketTooLarge HangupErrorSystem h1
       = HangupError_Error HangupErrorAborted HangupErrorBadIncomingPacket
           HangupErrorTooManyIncomingRequests
           HangupErrorOutgoingPacketTooLarge HangupErrorSystem h2) :
  Code h1 = Code h2 /\ IsPassive h1 = IsPassive h2.
Proof.
  destruct h1 as [c1 p1 x1], h2 as [c2 p2 x2].
  unfold HangupError_Error in Hsame. cbn [Code IsPassive] in *.
  pose proof (pretty_Z_no_space c1) as Hc1.
  pose proof (pretty_Z_no_space c2) as Hc2.
  destruct (Z.eqb_spec c1 HangupErrorAborted);
  [| destruct (Z.eqb_spec c1 HangupErrorBadIncomingPacket);
  [| destruct (Z.eqb_spec c1 HangupErrorTooManyIncomingRequests);
  [| destruct (Z.eqb_spec c1 HangupErrorOutgoingPacketTooLarge);
  [| destruct (Z.eqb_spec c1 HangupErrorSystem)]]]];
  (destruct (Z.eqb_spec c2 HangupErrorAborted);
  [| destruct (Z.eqb_spec c2 HangupErrorBadIncomingPacket);
  [| destruct (Z.eqb_spec c2 HangupErrorTooManyIncomingRequests);
  [| destruct (Z.eqb_spec c2 HangupErrorOutgoingPacketTooLarge);
  [| destruct (Z.eqb_spec c2 HangupErrorSystem)]]]]);
  destruct p1, p2; cbn -[pretty] in Hsame;
  try discriminate Hsame;
  try (split; [congruence | reflexivity]).
  all: rewrite !append_assoc in Hsame.
  all: do 2 apply (inj (String.append _)) in Hsame.
  all: apply split_at_space in Hsame; [| assumption | assumption].
  all: destruct Hsame as [Hpretty Htail]; try discriminate Htail.
  all: apply (inj pretty) in Hpretty; now split.
Qed.

End HangupErrorMessages.

Lemma HangupError_Error_injective_witness :
  Code (mkHangupError 7 true ∅)
  = Code (mkHangupError 7 true {[ "reason"%string := [x01] ]}) /\
  IsPassive (mkHangupError 7 true ∅)
  = IsPassive (mkHangupError 7 true {[ "reason"%string := [x01] ]}).
Proof.
  apply (HangupError_Error_injective 0 1 2 3 4).
  reflexivity.
Defined.


(** ** [Server] *)

Lemma validate_channel_policy_at (channel : ServerChannelPolicyRef)
    (env : ServerEnv) :
  env_serverChannelPolicy (validate_channel_policy channel env) channel
  = ServerChannelPolicy_Validate (env_serverChannelPolicy env channel).
Proof.
  destruct channel as [| i]; cbn; [| rewrite Nat.eqb_refl]; reflexivity.
Qed.

Section ServerProperties.

Variable defaultServerAddress : string.

(** X22. A server takes back what it told the registry.  The server is
    fresh and initialized with a policy not validated before; when the
    policy has a registry, the channel policy it leads to has its embedded
    [ChannelPolicy] set, as it is after [Validate] has run on it.  Then
    [Run], with a registry, announces the services of that [ChannelPolicy]
    once, under the discovery address or, when that is empty, under the
    address it binds, with a weight of at least 1; when the announcement
    succeeded it accepts on the bound address and, once [Accept] has
    returned, withdraws the very same services, address and weight, whatever
    [Accept] returned; when the announcement failed it neither accepts nor
    withdraws and returns that error.  Without a registry it only accepts.
    An empty bind address stands for the default address. *)
Theorem Server_Run_registration (policy : ServerPolicy)
    (bindAddress0 discoveryAddress0 : string) (env : ServerEnv)
    (Hfresh : sp_validateOnce policy = false)
    (Hchannel : sp_Registry policy <> None ->
                scp_ChannelPolicy (channel_policy_of env policy) <> None) :
  exists server server',
    Server_Initialize defaultServerAddress policy bindAddress0
      discoveryAddress0 (mkServer None "" "" 0) = Some server /\
    bindAddress server
    = (if decide (bindAddress0 = ""%string) then defaultServerAddress
       else bindAddress0) /\
    let accepted :=
      sev_Accept (bindAddress server) (sp_GracefulShutdownTimeout policy) in
    match sp_Registry policy with
    | None =>
        Server_Run env server
        = mkServerRun [accepted] (Some (server', env_Accept env))
    | Some _ =>
        exists channelPolicy weight,
          scp_ChannelPolicy (channel_policy_of env policy)
          = Some channelPolicy /\
          1 <= weight /\
          (1 <= sp_Weight policy -> weight = sp_Weight policy) /\
          let serviceNames := env_serviceHandlers env channelPolicy in
          let address :=
            if decide (discoveryAddress0 = ""%string) then bindAddress server
            else discoveryAddress0 in
          let added := sev_AddServiceProviders serviceNames address weight in
          let removed :=
            sev_RemoveServiceProviders serviceNames address weight in
          match env_AddServiceProviders env with
          | Some e =>
              Server_Run env server = mkServerRun [added] (Some (server', Some e))
          | None =>
              Server_Run env server
              = mkServerRun [added; accepted; removed]
                  (Some (server', env_Accept env))
          end
    end.
Proof.
  eexists. exists (mkServer None "" "" (-1)).
  split; [reflexivity |]. split; [reflexivity |].
  unfold Server_Run, ServerPolicy_Validate, channel_policy_of in *.
  cbn [srv_openness srv_policy bindAddress discoveryAddress negb Z.eqb
       Pos.eqb].
  rewrite Hfresh.
  cbn [sp_Registry sp_Channel sp_Acceptor sp_Weight
       sp_GracefulShutdownTimeout].
  destruct (sp_Registry policy) as [registry |].
  - specialize (Hchannel ltac:(discriminate)).
    assert (Hsame :
              match sp_Channel policy with
              | Some channel => Some channel
              | None => Some defaultServerChannelPolicy
              end
              = Some (default defaultServerChannelPolicy (sp_Channel policy)))
      by (destruct (sp_Channel policy); reflexivity).
    rewrite Hsame.
    destruct (scp_ChannelPolicy
                (env_serverChannelPolicy env
                   (default defaultServerChannelPolicy (sp_Channel policy))))
      as [channelPolicy |]; [| congruence].
    exists channelPolicy,
      (if sp_Weight policy <? 1 then defaultWeight else sp_Weight policy).
    split; [reflexivity |]. split; [| split].
    + destruct (Z.ltb_spec (sp_Weight policy) 1); [unfold defaultWeight |];
        lia.
    + intros Hweight.
      destruct (Z.ltb_spec (sp_Weight policy) 1); [lia | reflexivity].
    + cbn zeta.
      destruct (sp_Acceptor policy), (env_AddServiceProviders env);
        reflexivity.
  - destruct (sp_Acceptor policy); reflexivity.
Qed.

(** X23. A server runs once.  After [Run] has returned on a server that was
    initialized, the server is closed for good: running it again calls
    neither the registry nor the acceptor and returns nil, whatever the
    policies are by then, and initializing it again panics. *)
Theorem Server_runs_once (policy policy' : ServerPolicy)
    (bindAddress0 discoveryAddress0 bindAddress1 discoveryAddress1 : string)
    (env env' : ServerEnv) (server server' : Server) (e : option error)
    (Hinit : Server_Initialize defaultServerAddress policy bindAddress0
               discoveryAddress0 (mkServer None "" "" 0) = Some server)
    (Hrun : run_result (Server_Run env server) = Some (server', e)) :
  srv_openness server' = -1 /\ srv_policy server' = None /\
  Server_Run env' server' = mkServerRun [] (Some (server', None)) /\
  Server_Initialize defaultServerAddress policy' bindAddress1
    discoveryAddress1 server' = None.
Proof.
  injection Hinit as <-.
  assert (Hclosed : server' = mkServer None "" "" (-1)).
  { unfold Server_Run in Hrun.
    cbn [srv_openness srv_policy bindAddress discoveryAddress negb Z.eqb
         Pos.eqb] in Hrun.
    destruct (sp_Registry (ServerPolicy_Validate policy)).
    - destruct (sp_Channel (ServerPolicy_Validate policy)) as [channel |];
        [| discriminate Hrun].
      destruct (scp_ChannelPolicy (env_serverChannelPolicy env channel));
        [| discriminate Hrun].
      destruct (env_AddServiceProviders env).
      + cbn in Hrun. now injection Hrun as <- _.
      + destruct (sp_Acceptor (ServerPolicy_Validate policy));
          [| discriminate Hrun].
        cbn in Hrun. now injection Hrun as <- _.
    - destruct (sp_Acceptor (ServerPolicy_Validate policy));
        [| discriminate Hrun].
      cbn in Hrun. now injection Hrun as <- _. }
  subst server'. repeat split.
Qed.

(** X24. With a registry, [Run] needs a channel policy that has been
    validated.  [ServerPolicy.Validate] fills a nil [Channel] with the
    default server channel policy but does not validate it, and [Run]
    reaches [serviceHandlers] through the [ChannelPolicy] embedded in it.
    So on a server initialized with a policy that has a registry, while the
    embedded [ChannelPolicy] of its channel policy is nil, [Run] panics
    before it announces anything.  Once [Validate] has run on that channel
    policy, where it had not run before, [Run] announces the services of
    the default [ChannelPolicy] and returns. *)
Theorem Server_Run_unvalidated_channel_policy (policy : ServerPolicy)
    (bindAddress0 discoveryAddress0 : string) (env : ServerEnv)
    (server : Server)
    (Hfresh : sp_validateOnce policy = false)
    (Hregistry : sp_Registry policy <> None)
    (Hnil : scp_ChannelPolicy (channel_policy_of env policy) = None)
    (Hinit : Server_Initialize defaultServerAddress policy bindAddress0
               discoveryAddress0 (mkServer None "" "" 0) = Some server) :
  Server_Run env server = mkServerRun [] None /\
  (scp_validateOnce (channel_policy_of env policy) = false ->
   exists address weight events server' e,
     Server_Run
       (validate_channel_policy
          (default defaultServerChannelPolicy (sp_Channel policy)) env)
       server
     = mkServerRun
         (sev_AddServiceProviders (env_serviceHandlers env defaultChannelPolicy)
            address weight :: events)
         (Some (server', e))).
Proof.
  injection Hinit as <-.
  unfold channel_policy_of in *.
  unfold Server_Run, ServerPolicy_Validate.
  cbn [srv_openness srv_policy bindAddress discoveryAddress negb Z.eqb
       Pos.eqb].
  rewrite Hfresh.
  cbn [sp_Registry sp_Channel sp_Acceptor sp_Weight
       sp_GracefulShutdownTimeout].
  destruct (sp_Registry policy) as [registry |]; [| congruence].
  assert (Hsame :
            match sp_Channel policy with
            | Some channel => Some channel
            | None => Some defaultServerChannelPolicy
            end
            = Some (default defaultServerChannelPolicy (sp_Channel policy)))
    by (destruct (sp_Channel policy); reflexivity).
  rewrite Hsame.
  set (channel := default defaultServerChannelPolicy (sp_Channel policy)) in *.
  split; [now rewrite Hnil |].
  intros Hnever.
  assert (Hvalid :
            env_serverChannelPolicy (validate_channel_policy channel env)
              channel
            = mkServerChannelPolicy (Some defaultChannelPolicy)
                (match scp_Handshaker (env_serverChannelPolicy env channel) with
                 | None => Some shakeHandsWithClient
                 | Some handshaker => Some handshaker
                 end) true).
  { rewrite validate_channel_policy_at. unfold ServerChannelPolicy_Validate.
    now rewrite Hnever, Hnil. }
  rewrite Hvalid. cbn [scp_ChannelPolicy].
  destruct (env_AddServiceProviders env) as [e |] eqn:Hadd.
  - exists (if decide (discoveryAddress0 = ""%string)
            then (if decide (bindAddress0 = ""%string)
                  then defaultServerAddress else bindAddress0)
            else discoveryAddress0),
      (if sp_Weight policy <? 1 then defaultWeight else sp_Weight policy),
      [], (mkServer None "" "" (-1)), (Some e).
    unfold validate_channel_policy.
    cbn [env_AddServiceProviders env_serviceHandlers]. rewrite Hadd.
    reflexivity.
  - unfold validate_channel_policy.
    cbn [env_AddServiceProviders env_serviceHandlers env_Accept].
    rewrite Hadd.
    destruct (sp_Acceptor policy);
      eexists _, _, _, (mkServer None "" "" (-1)), _; reflexivity.
Qed.

End ServerProperties.

Lemma Server_Run_registration_witness :
  exists server server',
    Server_Initialize "127.0.0.1:8888" sample_server_policy "" ""
      (mkServer None "" "" 0) = Some server /\
    Server_Run
      (validate_channel_policy defaultServerChannelPolicy sample_server_env)
      server
    = mkServerRun
        [ sev_AddServiceProviders ["echo"%string; "auth"%string]
            "127.0.0.1:8888" 3;
          sev_Accept "127.0.0.1:8888" 5;
          sev_RemoveServiceProviders ["echo"%string; "auth"%string]
            "127.0.0.1:8888" 3 ]
        (Some (server', Some io_EOF)).
Proof.
  destruct (Server_Run_registration "127.0.0.1:8888" sample_server_policy
              "" ""
              (validate_channel_policy defaultServerChannelPolicy
                 sample_server_env)
              eq_refl)
    as (server & server' & Hinit & Hbind & Hrun).
  - intros _. vm_compute. discriminate.
  - exists server, server'. split; [exact Hinit |].
    injection Hinit as <-.
    unfold sample_server_policy in *.
    cbn [sp_Registry sp_Weight sp_GracefulShutdownTimeout] in Hrun.
    destruct Hrun as (channelPolicy & weight & Hpolicy & _ & Hweight & Hrun).
    vm_compute in Hpolicy. injection Hpolicy as <-.
    rewrite (Hweight ltac:(lia)) in Hrun.
    exact Hrun.
Defined.

Lemma Server_runs_once_witness :
  Server_Run sample_server_env (mkServer None "" "" (-1))
  = mkServerRun [] (Some (mkServer None "" "" (-1), None)) /\
  Server_Initialize "127.0.0.1:8888" sample_server_policy "" ""
    (mkServer None "" "" (-1)) = None.
Proof.
  destruct (Server_runs_once "127.0.0.1:8888" sample_server_policy
              sample_server_policy "" "" "" ""
              (validate_channel_policy defaultServerChannelPolicy
                 sample_server_env)
              sample_server_env
              (mkServer (Some (ServerPolicy_Validate sample_server_policy))
                 "127.0.0.1:8888" "" 1)
              (mkServer None "" "" (-1)) (Some io_EOF) eq_refl eq_refl)
    as (_ & _ & Hagain & Hinit).
  split; [exact Hagain | exact Hinit].
Defined.

Lemma Server_Run_unvalidated_channel_policy_witness :
  Server_Run sample_server_env
    (mkServer (Some (ServerPolicy_Validate sample_server_policy))
       "127.0.0.1:8888" "" 1)
  = mkServerRun [] None.
Proof.
  apply (Server_Run_unvalidated_channel_policy "127.0.0.1:8888"
           sample_server_policy "" "" sample_server_env _ eq_refl).
  - discriminate.
  - reflexivity.
  - reflexivity.
Defined.
